(** * StormWater agent core: context store, cycle scheduler and skill dispatch

    A shallow embedding of the Python sources
      - [context_manager.py]  ([ContextManager]),
      - [agent_loop.py]       ([VaderLoop]),
      - [file_manager.py], [self_optimizer.py], [config_loader.py],
        [base_commands.py] ([BaseCommands], [WebScraper]) and
        [mobile/model_router.py],
    the properties of them that the specification states, and further
    properties that the sources show.

    Python objects are records, Python methods are computations in a small
    state-and-exception monad that also records the observable effects
    (log records, [time.sleep] requests, [json.dump] writes) in a trace.
    What the environment decides (the clock, the file system, the bodies of
    skills that do I/O) is an explicit argument of the method that asks for it.

    Scope of the value model: JSON numbers are Python [int]s (no fractional
    numbers), strings are sequences of one-byte characters, and only
    exceptions derived from [Exception] are raised ([KeyboardInterrupt] and
    [SystemExit] are not modelled). *)

From Stdlib Require Import ZArith String Ascii List Floats.
From stdpp Require Import gmap strings list pretty.

Local Open Scope Z_scope.
Local Open Scope string_scope.
Local Open Scope list_scope.
#[local] Set Warnings "-inexact-float".

(** ** Python values *)

#[local] Set Warnings "-register-all".

(** The values that [json.load] returns and that the context holds. A nested
    [dict] keeps its items in insertion order, as Python does. *)
Inductive pyval : Type :=
| VNone
| VBool (b : bool)
| VInt (z : Z)
| VStr (s : string)
| VList (l : list pyval)
| VDict (d : list (string * pyval)).

(** Hashable values as dictionary keys. [True] and [1] hash and compare
    equal in Python, so both booleans are integer keys. *)
Inductive pykey : Type :=
| KNone
| KInt (z : Z)
| KStr (s : string).

#[global] Instance pykey_eq_dec : EqDecision pykey.
Proof. solve_decision. Defined.

Definition pykey_encode (k : pykey) : unit + (Z + string) :=
  match k with
  | KNone => inl tt
  | KInt z => inr (inl z)
  | KStr s => inr (inr s)
  end.

Definition pykey_decode (x : unit + (Z + string)) : pykey :=
  match x with
  | inl _ => KNone
  | inr (inl z) => KInt z
  | inr (inr s) => KStr s
  end.

#[global] Instance pykey_countable : Countable pykey.
Proof.
  apply (inj_countable' pykey_encode pykey_decode).
  intros []; reflexivity.
Defined.

(** [type(v).__name__] *)
Definition type_name (v : pyval) : string :=
  match v with
  | VNone => "NoneType"
  | VBool _ => "bool"
  | VInt _ => "int"
  | VStr _ => "str"
  | VList _ => "list"
  | VDict _ => "dict"
  end.

(** [bool(v)], the test of [if v:] *)
Definition truthy (v : pyval) : bool :=
  match v with
  | VNone => false
  | VBool b => b
  | VInt z => negb (z =? 0)%Z
  | VStr s => negb (String.length s =? 0)%nat
  | VList l => negb (length l =? 0)%nat
  | VDict d => negb (length d =? 0)%nat
  end.

(** ['<s>'] as the C-level messages format a name ([%s] between quotes). *)
Definition quoted (s : string) : string := "'" +:+ s +:+ "'".

(** [repr(s)] of a string, for characters below 256: the quote is the
    single quote, or the double quote when the string holds a single quote
    and no double quote; the quote and the backslash are escaped by a
    backslash, tab, line feed and carriage return are written with the
    letters t, n and r after a backslash, and every other character that is
    not printable (below 32, 127 to 160, 173) as backslash, x and two
    hexadecimal digits. *)
Fixpoint contains (q : ascii) (s : string) : bool :=
  match s with
  | EmptyString => false
  | String c s' => Ascii.eqb c q || contains q s'
  end.

Definition printable (c : ascii) : bool :=
  let n := nat_of_ascii c in
  ((32 <=? n) && (n <? 127) || (161 <=? n) && negb (n =? 173))%nat.

Definition hex_digit (n : nat) : ascii :=
  nth n (list_ascii_of_string "0123456789abcdef") "0"%char.

Definition backslash : ascii := "092".
Definition double_quote : ascii := "034".

Fixpoint escape (q : ascii) (s : string) : string :=
  match s with
  | EmptyString => EmptyString
  | String c s' =>
      let rest := escape q s' in
      if Ascii.eqb c q || Ascii.eqb c backslash then String backslash (String c rest)
      else if Ascii.eqb c "009" then String backslash (String "t" rest)
      else if Ascii.eqb c "010" then String backslash (String "n" rest)
      else if Ascii.eqb c "013" then String backslash (String "r" rest)
      else if printable c then String c rest
      else String backslash
             (String "x"
                (String (hex_digit (nat_of_ascii c / 16))
                   (String (hex_digit (nat_of_ascii c mod 16)) rest)))
  end.

Definition str_repr (s : string) : string :=
  let q := if contains "'" s && negb (contains double_quote s) then double_quote
           else "'"%char in
  String q (escape q s +:+ String q EmptyString).

Fixpoint join (sep : string) (l : list string) : string :=
  match l with
  | [] => EmptyString
  | [s] => s
  | s :: l' => s +:+ sep +:+ join sep l'
  end.

(** [repr(v)] *)
Fixpoint py_repr (v : pyval) : string :=
  match v with
  | VNone => "None"
  | VBool true => "True"
  | VBool false => "False"
  | VInt z => pretty_Z z
  | VStr s => str_repr s
  | VList l => "[" +:+ join ", " (map py_repr l) +:+ "]"
  | VDict d =>
      "{" +:+ join ", " (map (fun kv => str_repr (fst kv) +:+ ": " +:+ py_repr (snd kv)) d) +:+ "}"
  end.

(** [str(v)], what an f-string interpolates *)
Definition py_str (v : pyval) : string :=
  match v with
  | VStr s => s
  | _ => py_repr v
  end.

(** ** Exceptions, effects and the method monad *)

(** An exception object: its class name and [str(e)]. *)
Record exn : Type := Exn { exc_class : string; exc_text : string }.

Definition TypeError := Exn "TypeError".
Definition ValueError := Exn "ValueError".
Definition AttributeError := Exn "AttributeError".
(** [str(KeyError(k))] is [repr(k)]. *)
Definition KeyError (k : string) := Exn "KeyError" (str_repr k).

Inductive level : Type := DEBUG | INFO | ERROR.

(** Observable effects, in the order they happen. *)
Inductive event : Type :=
| EvLog (logger : string) (lv : level) (text : string)
| EvSleep (secs : float)
| EvDump (file : string) (blob : gmap pykey pyval).

Inductive result (A : Type) : Type :=
| Ok (a : A)
| Raise (e : exn).
Arguments Ok {A} a.
Arguments Raise {A} e.

(** What running a method on an object in state [S] gives: how it ended,
    the state it left, the effects it emitted. *)
Record out (S A : Type) : Type := Out { res : result A; post : S; emitted : list event }.
Arguments Out {S A} res post emitted.
Arguments res {S A} o.
Arguments post {S A} o.
Arguments emitted {S A} o.

Definition M (S A : Type) : Type := S -> out S A.

Definition ret {S A} (a : A) : M S A := fun s => Out (Ok a) s [].

Definition raise {S A} (e : exn) : M S A := fun s => Out (Raise e) s [].

Definition bind {S A B} (m : M S A) (k : A -> M S B) : M S B :=
  fun s =>
    let o := m s in
    match res o with
    | Ok a => let o' := k a (post o) in Out (res o') (post o') (emitted o ++ emitted o')
    | Raise e => Out (Raise e) (post o) (emitted o)
    end.

(** [try: m  except Exception as e: h e]; the state changes and effects of
    the interrupted body stay. *)
Definition try_except {S A} (m : M S A) (h : exn -> M S A) : M S A :=
  fun s =>
    let o := m s in
    match res o with
    | Ok a => o
    | Raise e => let o' := h e (post o) in Out (res o') (post o') (emitted o ++ emitted o')
    end.

Definition is_Ok {A} (r : result A) : Prop := exists a, r = Ok a.

Definition lift_result {S A} (r : result A) : M S A :=
  match r with
  | Ok a => ret a
  | Raise e => raise e
  end.

Definition get {S} : M S S := fun s => Out (Ok s) s [].
Definition modify {S} (f : S -> S) : M S unit := fun s => Out (Ok tt) (f s) [].
Definition emit {S} (ev : event) : M S unit := fun s => Out (Ok tt) s [ev].

(** Every run of [m] relates the state before to the state after by [R]. *)
Definition preserves {S A} (R : S -> S -> Prop) (m : M S A) : Prop :=
  forall s, R s (post (m s)).

(** Run a method of a member object (a field read by [proj], written by [inj]). *)
Definition zoom {S T A} (proj : S -> T) (inj : T -> S -> S) (m : M T A) : M S A :=
  fun s => let o := m (proj s) in Out (res o) (inj (post o) s) (emitted o).

Declare Scope py_scope.
Delimit Scope py_scope with py.
Notation "x <- m ;; k" := (bind m (fun x => k))
  (at level 100, m at next level, right associativity) : py_scope.
Notation "m ;;; k" := (bind m (fun _ => k))
  (at level 100, right associativity) : py_scope.
Local Open Scope py_scope.

Definition log {S} (logger : string) (lv : level) (text : string) : M S unit :=
  emit (EvLog logger lv text).

(** ** Operations on values that may raise *)

(** [len(v)] *)
Definition py_len (v : pyval) : result nat :=
  match v with
  | VStr s => Ok (String.length s)
  | VList l => Ok (length l)
  | VDict d => Ok (length d)
  | _ => Raise (TypeError ("object of type " +:+ quoted (type_name v) +:+ " has no len()"))
  end.

Fixpoint string_drop (n : nat) (s : string) : string :=
  match n, s with
  | O, _ => s
  | S n', String _ s' => string_drop n' s'
  | S _, EmptyString => EmptyString
  end.

(** [v[-n:]] for [n > 0]: the last [n] items (all of them when there are
    fewer). A dictionary cannot be sliced: [TypeError] before Python 3.12,
    [KeyError] since; the class name is all that differs. *)
Definition py_slice_last (n : nat) (v : pyval) : result pyval :=
  match v with
  | VList l => Ok (VList (drop (length l - n) l))
  | VStr s => Ok (VStr (string_drop (String.length s - n) s))
  | VDict _ => Raise (TypeError "unhashable type: 'slice'")
  | _ => Raise (TypeError (quoted (type_name v) +:+ " object is not subscriptable"))
  end.

(** [v.append(x)]: only a list has the method. *)
Definition py_append (v x : pyval) : result pyval :=
  match v with
  | VList l => Ok (VList (l ++ [x]))
  | _ => Raise (AttributeError (quoted (type_name v) +:+ " object has no attribute 'append'"))
  end.

Fixpoint assoc_get (k : string) (d : list (string * pyval)) : option pyval :=
  match d with
  | [] => None
  | (k', v) :: d' => if String.eqb k' k then Some v else assoc_get k d'
  end.

(** [v[k]] with a string [k] *)
Definition py_getitem (v : pyval) (k : string) : result pyval :=
  match v with
  | VDict d =>
      match assoc_get k d with
      | Some x => Ok x
      | None => Raise (KeyError k)
      end
  | VList _ => Raise (TypeError "list indices must be integers or slices, not str")
  | VStr _ => Raise (TypeError "string indices must be integers, not 'str'")
  | _ => Raise (TypeError (quoted (type_name v) +:+ " object is not subscriptable"))
  end.

(** [v.get(k)] *)
Definition py_get (v : pyval) (k : string) : result pyval :=
  match v with
  | VDict d =>
      match assoc_get k d with
      | Some x => Ok x
      | None => Ok VNone
      end
  | _ => Raise (AttributeError (quoted (type_name v) +:+ " object has no attribute 'get'"))
  end.

(** [v.get(k, default)] *)
Definition py_get_default (v : pyval) (k : string) (default : pyval) : result pyval :=
  match v with
  | VDict d =>
      match assoc_get k d with
      | Some x => Ok x
      | None => Ok default
      end
  | _ => Raise (AttributeError (quoted (type_name v) +:+ " object has no attribute 'get'"))
  end.

(** [v == s] for a string [s] *)
Definition py_eq_str (v : pyval) (s : string) : bool :=
  match v with
  | VStr s' => String.eqb s' s
  | _ => false
  end.

(** [d.setdefault(k, v)], as the dictionary it leaves *)
Definition set_default (k : string) (v : pyval) (d : list (string * pyval))
  : list (string * pyval) :=
  match assoc_get k d with
  | Some _ => d
  | None => d ++ [(k, v)]
  end.

(** [hash(v)] succeeds *)
Definition key_of (v : pyval) : result pykey :=
  match v with
  | VNone => Ok KNone
  | VBool b => Ok (KInt (if b then 1 else 0))
  | VInt z => Ok (KInt z)
  | VStr s => Ok (KStr s)
  | _ => Raise (TypeError ("unhashable type: " +:+ quoted (type_name v)))
  end.

(** ** context_manager.py *)

Module ContextManager.

(** The mutable part of a [ContextManager] object: its [current_context]
    dictionary. [logger] and [context_file] never change. *)
Record state : Type := Build { current_context : gmap pykey pyval }.

Definition logger : string := "ContextManager".
Definition context_file : string := "data/context.json".

(** [__init__] *)
Definition init : state :=
  Build (list_to_map
    [ (KStr "system_state", VStr "initializing");
      (KStr "last_update", VNone);
      (KStr "active_tasks", VList []);
      (KStr "pending_inputs", VList []);
      (KStr "environment_data", VDict []);
      (KStr "short_term_memory", VList []) ]).

(** [self.current_context[k]] *)
Definition getitem (k : string) : M state pyval :=
  c <- get;;
  match current_context c !! KStr k with
  | Some v => ret v
  | None => raise (KeyError k)
  end.

(** [self.current_context[k] = v] *)
Definition setitem (k : pykey) (v : pyval) : M state unit :=
  modify (fun c => Build (<[k := v]> (current_context c))).

(** *** [dict.update], as [self.current_context.update(other)] runs it *)

Definition seq2_length_error (i n : nat) : exn :=
  ValueError ("dictionary update sequence element #" +:+ pretty i +:+
              " has length " +:+ pretty n +:+ "; 2 is required").

(** One element of an iterable of pairs: it must be a sequence of length
    two (a dictionary is the sequence of its keys). *)
Definition seq2_item (i : nat) (e : pyval) : result (pyval * pyval) :=
  match e with
  | VList [k; v] => Ok (k, v)
  | VList l => Raise (seq2_length_error i (length l))
  | VStr (String a (String b EmptyString)) =>
      Ok (VStr (String a EmptyString), VStr (String b EmptyString))
  | VStr s => Raise (seq2_length_error i (String.length s))
  | VDict [(k1, _); (k2, _)] => Ok (VStr k1, VStr k2)
  | VDict d => Raise (seq2_length_error i (length d))
  | _ => Raise (TypeError ("cannot convert dictionary update sequence element #" +:+
                           pretty i +:+ " to a sequence"))
  end.

Fixpoint merge_items (d : list (string * pyval)) : M state unit :=
  match d with
  | [] => ret tt
  | (k, v) :: d' => setitem (KStr k) v;;; merge_items d'
  end.

Fixpoint merge_seq2 (i : nat) (l : list pyval) : M state unit :=
  match l with
  | [] => ret tt
  | e :: l' =>
      kv <- lift_result (seq2_item i e);;
      k <- lift_result (key_of (fst kv));;
      setitem k (snd kv);;;
      merge_seq2 (S i) l'
  end.

Definition dict_update (other : pyval) : M state unit :=
  match other with
  | VDict d => merge_items d
  | VList l => merge_seq2 0 l
  | VStr EmptyString => ret tt
  | VStr _ => raise (seq2_length_error 0 1)
  | _ => raise (TypeError (quoted (type_name other) +:+ " object is not iterable"))
  end.

(** *** The methods *)

(** What the file system answers to [load_initial_state]:
    [self.context_file.exists()], then [open] and [json.load]. *)
Record load_env : Type :=
  { exists_result : result bool; json_load_result : result pyval }.

Definition load_initial_state (fs : load_env) : M state unit :=
  try_except
    (found <- lift_result (exists_result fs);;
     if found : bool then
       saved_context <- lift_result (json_load_result fs);;
       dict_update saved_context;;;
       log logger INFO "Context loaded from file"
     else ret tt)
    (fun e => log logger ERROR ("Error loading context: " +:+ exc_text e)).

(** What the file system answers to [save_state]: the [mkdir] of the
    parent directory, then [open] and [json.dump]. *)
Record save_env : Type :=
  { mkdir_result : result unit; dump_result : result unit }.

Definition save_state (fs : save_env) : M state unit :=
  try_except
    (lift_result (mkdir_result fs);;;
     lift_result (dump_result fs);;;
     c <- get;;
     emit (EvDump context_file (current_context c));;;
     log logger INFO "Context saved to file")
    (fun e => log logger ERROR ("Error saving context: " +:+ exc_text e)).

Definition _update_environment_data : M state unit := ret tt.

Definition _prune_short_term_memory : M state unit :=
  let max_items := 100%nat in
  mem <- getitem "short_term_memory";;
  n <- lift_result (py_len mem);;
  if (max_items <? n)%nat then
    mem' <- getitem "short_term_memory";;
    kept <- lift_result (py_slice_last max_items mem');;
    setitem (KStr "short_term_memory") kept
  else ret tt.

(** [now] is [datetime.now().isoformat()]. *)
Definition update (now : string) : M state unit :=
  setitem (KStr "last_update") (VStr now);;;
  _update_environment_data;;;
  _prune_short_term_memory.

Definition memory_entry (now : string) (item : pyval) : pyval :=
  VDict [("timestamp", VStr now); ("data", item)].

(** [append] changes the list object in place; the dictionary entry is
    the only reference to it that the class keeps. *)
Definition add_to_memory (item : pyval) (now : string) : M state unit :=
  mem <- getitem "short_term_memory";;
  mem' <- lift_result (py_append mem (memory_entry now item));;
  setitem (KStr "short_term_memory") mem'.

Definition get_pending_inputs : M state pyval :=
  inputs <- getitem "pending_inputs";;
  setitem (KStr "pending_inputs") (VList []);;;
  ret inputs.

Definition add_task (task : pyval) : M state unit :=
  tasks <- getitem "active_tasks";;
  tasks' <- lift_result (py_append tasks task);;
  setitem (KStr "active_tasks") tasks'.

Definition get_active_tasks : M state pyval := getitem "active_tasks".

(** *** Call sequences *)

Inductive call : Type :=
| AddToMemory (item : pyval) (now : string)
| Update (now : string).

Definition run_call (c : call) : M state unit :=
  match c with
  | AddToMemory item now => add_to_memory item now
  | Update now => update now
  end.

Fixpoint run_calls (cs : list call) : M state unit :=
  match cs with
  | [] => ret tt
  | c :: cs' => run_call c;;; run_calls cs'
  end.

(** A sequence of [add_to_memory] calls only. *)
Definition add_calls (items : list (pyval * string)) : list call :=
  map (fun p => AddToMemory (fst p) (snd p)) items.

(** The entries that the [add_to_memory] calls of [cs] append, in call order. *)
Fixpoint appended (cs : list call) : list pyval :=
  match cs with
  | [] => []
  | AddToMemory item now :: cs' => memory_entry now item :: appended cs'
  | Update _ :: cs' => appended cs'
  end.

Definition short_term_memory (c : state) : option pyval :=
  current_context c !! KStr "short_term_memory".

Definition pending_inputs (c : state) : option pyval :=
  current_context c !! KStr "pending_inputs".

(** The states a [ContextManager] can be in: the one [__init__] builds,
    and those its methods lead to, whatever their arguments and whatever
    the file system answers. *)
Inductive reachable : state -> Prop :=
| reach_init : reachable init
| reach_load_initial_state c fs :
    reachable c -> reachable (post (load_initial_state fs c))
| reach_save_state c fs :
    reachable c -> reachable (post (save_state fs c))
| reach_update c now :
    reachable c -> reachable (post (update now c))
| reach_add_to_memory c item now :
    reachable c -> reachable (post (add_to_memory item now c))
| reach_get_pending_inputs c :
    reachable c -> reachable (post (get_pending_inputs c))
| reach_add_task c task :
    reachable c -> reachable (post (add_task task c)).

(** The keys that [dict.update(other)] may write. *)
Definition seq2_key (e : pyval) : option pykey :=
  match seq2_item 0 e with
  | Ok kv => match key_of (fst kv) with Ok k => Some k | Raise _ => None end
  | Raise _ => None
  end.

Definition written_keys (other : pyval) : list pykey :=
  match other with
  | VDict d => map (fun kv => KStr (fst kv)) d
  | VList l => omap seq2_key l
  | _ => []
  end.

(** The keys that [load_initial_state] may write, given the file system's answers. *)
Definition loaded_keys (fs : load_env) : list pykey :=
  match exists_result fs, json_load_result fs with
  | Ok true, Ok saved_context => written_keys saved_context
  | _, _ => []
  end.

(** A loaded JSON object as a dictionary; of two items with one key the
    later one counts. *)
Definition dict_of_items (d : list (string * pyval)) : gmap pykey pyval :=
  list_to_map (reverse (map (fun kv => (KStr (fst kv), snd kv)) d)).

(** *** Vocabulary for the other methods *)


Definition active_tasks (c : state) : option pyval :=
  current_context c !! KStr "active_tasks".

Definition last_update (c : state) : option pyval :=
  current_context c !! KStr "last_update".

(** The values [_prune_short_term_memory] accepts as short-term memory:
    those with a length that can be sliced, and dictionaries small enough
    not to be sliced. *)
Definition prunable (v : pyval) : bool :=
  match v with
  | VList _ | VStr _ => true
  | VDict d => (length d <=? 100)%nat
  | _ => false
  end.

(** The keys of the dictionary that [__init__] builds. *)
Definition default_keys : list string :=
  ["system_state"; "last_update"; "active_tasks"; "pending_inputs";
   "environment_data"; "short_term_memory"].

(** A JSON array element [[key, value]]. *)
Definition pair_item (kv : string * pyval) : pyval := VList [VStr (fst kv); snd kv].

(** The fault that element [e], at index [i] of an iterable of pairs,
    makes [dict.update] raise, if any. *)
Definition item_fault (i : nat) (e : pyval) : option exn :=
  match seq2_item i e with
  | Raise ex => Some ex
  | Ok kv => match key_of (fst kv) with Raise ex => Some ex | Ok _ => None end
  end.

(** The error record of [load_initial_state]. *)
Definition load_error (e : exn) : event :=
  EvLog logger ERROR ("Error loading context: " +:+ exc_text e).

(** No method removes a key of the context. *)
Definition keeps_keys (c c' : state) : Prop :=
  forall k, is_Some (current_context c !! k) -> is_Some (current_context c' !! k).

(** Only the keys of [ks] change. *)
Definition writes_only (ks : list pykey) (c c' : state) : Prop :=
  forall k, k ∉ ks -> current_context c' !! k = current_context c !! k.

End ContextManager.

(** ** agent_loop.py *)

Module VaderLoop.

(** The attributes of a [VaderLoop] object. [context] is the
    [ContextManager] the loop was built with; time is a binary64 float,
    as [time.time()] returns it. *)
Record state : Type := Build
  { context : ContextManager.state;
    running : bool;
    cycle_count : Z;
    last_cycle_time : float }.

Definition logger : string := "VaderLoop".

(** [__init__] *)
Definition init (context_manager : ContextManager.state) : state :=
  Build context_manager false 0 0%float.

Definition set_context (c : ContextManager.state) (st : state) : state :=
  Build c (running st) (cycle_count st) (last_cycle_time st).
Definition set_running (b : bool) (st : state) : state :=
  Build (context st) b (cycle_count st) (last_cycle_time st).
Definition set_cycle_count (n : Z) (st : state) : state :=
  Build (context st) (running st) n (last_cycle_time st).
Definition set_last_cycle_time (t : float) (st : state) : state :=
  Build (context st) (running st) (cycle_count st) t.

(** A method of [self.context] *)
Definition on_context {A} (m : M ContextManager.state A) : M state A :=
  zoom context set_context m.

(** What the environment decides during one iteration of the loop: the
    two readings of [time.time()], the reading of [datetime.now()], how
    [time.sleep] ends if it is called, and whether [stop()] was called
    from outside before the loop tests [self.running] again. *)
Record cycle_env : Type :=
  { t_start : float;
    now_iso : string;
    t_end : float;
    sleep_result : result unit;
    stop_called : bool }.

(** [inputs.items()] *)
Definition py_items (v : pyval) : result (list (string * pyval)) :=
  match v with
  | VDict d => Ok d
  | _ => Raise (AttributeError (quoted (type_name v) +:+ " object has no attribute 'items'"))
  end.

Fixpoint for_items (items : list (string * pyval)) (body : string -> pyval -> M state unit)
  : M state unit :=
  match items with
  | [] => ret tt
  | (k, v) :: items' => body k v;;; for_items items' body
  end.

Definition _process_inputs (inputs : pyval) : M state unit :=
  items <- lift_result (py_items inputs);;
  for_items items (fun input_type input_data =>
    log logger DEBUG ("Processing input type: " +:+ input_type)).

Definition _determine_next_action : M state pyval := ret VNone.

Definition _execute_action (action : pyval) : M state unit :=
  log logger DEBUG ("Executing action: " +:+ py_str action).

Definition _execute_cycle (env : cycle_env) : M state unit :=
  let cycle_start := t_start env in
  modify (fun st => set_cycle_count (cycle_count st + 1) st);;;
  on_context (ContextManager.update (now_iso env));;;
  inputs <- on_context ContextManager.get_pending_inputs;;
  (if truthy inputs then _process_inputs inputs else ret tt);;;
  next_action <- _determine_next_action;;
  (if truthy next_action then _execute_action next_action else ret tt);;;
  modify (set_last_cycle_time (t_end env - cycle_start)%float).

(** [time.sleep(secs)] *)
Definition sleep (env : cycle_env) (secs : float) : M state unit :=
  emit (EvSleep secs);;;
  lift_result (sleep_result env).

Definition min_interval : float := 0.1%float.

Definition _manage_cycle_timing (env : cycle_env) : M state unit :=
  st <- get;;
  if (last_cycle_time st <? min_interval)%float
  then sleep env (min_interval - last_cycle_time st)%float
  else ret tt.

Definition stop : M state unit := modify (set_running false).

(** How [run] ended on a finite prefix of the environment's answers:
    it returned to its caller, or it is still looping. *)
Inductive exit : Type := Returned | Looping.

(** The body of the [try] of [run]. *)
Definition cycle_and_pace (env : cycle_env) : M state unit :=
  _execute_cycle env;;; _manage_cycle_timing env.

(** One pass through the body of [while self.running:]. *)
Definition iteration (env : cycle_env) : M state unit :=
  try_except
    (cycle_and_pace env)
    (fun e =>
       log logger ERROR ("Error in main loop: " +:+ exc_text e);;;
       modify (set_running false));;;
  (if stop_called env then stop else ret tt).

Fixpoint loop (envs : list cycle_env) : M state exit :=
  st <- get;;
  if running st then
    match envs with
    | [] => ret Looping
    | env :: envs' => iteration env;;; loop envs'
    end
  else ret Returned.

Definition run (envs : list cycle_env) : M state exit :=
  modify (set_running true);;;
  loop envs.

(** The log records of the Ingest step on [inputs]. *)
Definition ingest_log (inputs : pyval) : list event :=
  match inputs with
  | VDict d => map (fun kv => EvLog logger DEBUG ("Processing input type: " +:+ fst kv)) d
  | _ => []
  end.

(** An iteration in which [time.sleep] returns and nobody calls [stop()]. *)
Definition clean (env : cycle_env) : Prop :=
  sleep_result env = Ok tt /\ stop_called env = false.

(** A context on which a cycle has nothing to do: the short-term memory is
    a list and no input is pending. *)
Definition idle (c : ContextManager.state) : Prop :=
  (exists l, ContextManager.short_term_memory c = Some (VList l)) /\
  (exists v, ContextManager.pending_inputs c = Some v /\ truthy v = false).

(** The fault of [inputs.items()] on a value that is no dictionary. *)
Definition no_items (inputs : pyval) : exn :=
  AttributeError (quoted (type_name inputs) +:+ " object has no attribute 'items'").

(** The state in which the Observe step of a cycle starts. *)
Definition counted (st : state) : state := set_cycle_count (cycle_count st + 1) st.

(** The first step of every cycle counts it, and no later step touches
    [cycle_count] or [running]. *)
Definition cycle_step (st st' : state) : Prop :=
  running st' = running st /\ cycle_count st' = cycle_count st.


End VaderLoop.

(** ** The skill dispatchers *)

(** [{"status": "error", "message": message}] *)
Definition error_result (message : string) : pyval :=
  VDict [("status", VStr "error"); ("message", VStr message)].

(** [params[k]] as a step of a method *)
Definition param {S} (params : pyval) (k : string) : M S pyval :=
  lift_result (py_getitem params k).

(** *** file_manager.py *)

Module FileManager.

(** The operating-system calls the class makes, on a world [W]. *)
Record os_api (W : Type) : Type :=
  { open_read : pyval -> M W string;
    open_write : pyval -> pyval -> M W unit;
    os_listdir : pyval -> M W (list pyval);
    os_remove : pyval -> M W unit;
    shutil_move : pyval -> pyval -> M W unit }.
Arguments open_read {W} o.
Arguments open_write {W} o.
Arguments os_listdir {W} o.
Arguments os_remove {W} o.
Arguments shutil_move {W} o.

Section WithOS.
Context {W : Type} (os : os_api W).

Definition logger : string := "FileManager".

Definition allowed_operations : list string :=
  ["read"; "write"; "list"; "delete"; "move"].

Definition read_file (path : pyval) : M W pyval :=
  content <- open_read os path;;
  ret (VDict [("status", VStr "success"); ("content", VStr content)]).

Definition write_file (path content : pyval) : M W pyval :=
  open_write os path content;;;
  ret (VDict [("status", VStr "success")]).

Definition list_directory (path : pyval) : M W pyval :=
  items <- os_listdir os path;;
  ret (VDict [("status", VStr "success"); ("items", VList items)]).

Definition delete_file (path : pyval) : M W pyval :=
  os_remove os path;;;
  ret (VDict [("status", VStr "success")]).

Definition move_file (source destination : pyval) : M W pyval :=
  shutil_move os source destination;;;
  ret (VDict [("status", VStr "success")]).

(** The body of the [try] of [execute]. *)
Definition dispatch (operation : string) (params : pyval) : M W pyval :=
  if String.eqb operation "read" then
    path <- param params "path";; read_file path
  else if String.eqb operation "write" then
    path <- param params "path";;
    content <- param params "content";;
    write_file path content
  else if String.eqb operation "list" then
    path <- param params "path";; list_directory path
  else if String.eqb operation "delete" then
    path <- param params "path";; delete_file path
  else if String.eqb operation "move" then
    source <- param params "source";;
    destination <- param params "destination";;
    move_file source destination
  else ret VNone.

Definition execute (operation : string) (params : pyval) : M W pyval :=
  if negb (existsb (String.eqb operation) allowed_operations) then
    ret (error_result ("Operation " +:+ operation +:+ " not allowed"))
  else
    try_except (dispatch operation params)
      (fun e =>
         log logger ERROR ("File operation error: " +:+ exc_text e);;;
         ret (error_result (exc_text e))).
End WithOS.

(** The parameters an operation reads, in the order it reads them. *)
Definition required_params (operation : string) : list string :=
  if String.eqb operation "read" then ["path"]
  else if String.eqb operation "write" then ["path"; "content"]
  else if String.eqb operation "list" then ["path"]
  else if String.eqb operation "delete" then ["path"]
  else if String.eqb operation "move" then ["source"; "destination"]
  else [].

(** The first of [keys] that the dictionary [d] lacks. *)
Fixpoint first_missing (d : list (string * pyval)) (keys : list string) : option string :=
  match keys with
  | [] => None
  | k :: keys' =>
      match assoc_get k d with
      | Some _ => first_missing d keys'
      | None => Some k
      end
  end.

Definition error_log (e : exn) : event :=
  EvLog "FileManager" ERROR ("File operation error: " +:+ exc_text e).

End FileManager.

(** *** self_optimizer.py *)

Module SelfOptimizer.

Record state : Type := Build { optimization_history : list pyval }.

Definition logger : string := "SelfOptimizer".

Definition init : state := Build [].

(** [self.name] for a method the class does not define. *)
Definition missing_attribute {A} (name : string) : M state A :=
  raise (AttributeError ("'SelfOptimizer' object has no attribute " +:+ quoted name)).

Definition _get_memory_usage : M state pyval := missing_attribute "_get_memory_usage".
Definition _get_response_times : M state pyval := missing_attribute "_get_response_times".
Definition _get_error_rates : M state pyval := missing_attribute "_get_error_rates".
Definition _get_skill_usage_stats : M state pyval :=
  missing_attribute "_get_skill_usage_stats".
Definition _optimize_for_metric (target_metric metrics : pyval) : M state (list pyval) :=
  missing_attribute "_optimize_for_metric".
Definition _create_general_optimizations (metrics : pyval) : M state (list pyval) :=
  missing_attribute "_create_general_optimizations".
Definition _apply_single_optimization (optimization : pyval) : M state unit :=
  missing_attribute "_apply_single_optimization".
Definition _compare_with_history (metrics : pyval) : M state pyval :=
  missing_attribute "_compare_with_history".
Definition _identify_bottlenecks (metrics : pyval) : M state pyval :=
  missing_attribute "_identify_bottlenecks".

Definition _collect_metrics : M state pyval :=
  memory_usage <- _get_memory_usage;;
  response_times <- _get_response_times;;
  error_rates <- _get_error_rates;;
  skill_usage <- _get_skill_usage_stats;;
  ret (VDict [("memory_usage", memory_usage); ("response_times", response_times);
              ("error_rates", error_rates); ("skill_usage", skill_usage)]).

Definition _create_optimization_plan (metrics target_metric : pyval) : M state (list pyval) :=
  if truthy target_metric then
    more <- _optimize_for_metric target_metric metrics;; ret ([] ++ more)%list
  else
    more <- _create_general_optimizations metrics;; ret ([] ++ more)%list.

Definition record_history (entry : pyval) : M state unit :=
  modify (fun s => Build (optimization_history s ++ [entry])%list).

Fixpoint _apply_optimizations (optimization_plan : list pyval) : M state unit :=
  match optimization_plan with
  | [] => ret tt
  | optimization :: rest =>
      try_except
        (_apply_single_optimization optimization;;;
         record_history (VDict [("optimization", optimization); ("result", VStr "success")]))
        (fun e =>
           log logger ERROR ("Failed to apply optimization: " +:+ exc_text e);;;
           record_history (VDict [("optimization", optimization); ("result", VStr "failed");
                                  ("error", VStr (exc_text e))]));;;
      _apply_optimizations rest
  end.

Definition _generate_suggestions (current_state : pyval) : M state pyval := ret (VList []).

Definition optimize_system (target_metric : pyval) : M state pyval :=
  try_except
    (current_metrics <- _collect_metrics;;
     optimization_plan <- _create_optimization_plan current_metrics target_metric;;
     _apply_optimizations optimization_plan;;;
     new_metrics <- _collect_metrics;;
     ret (VDict [("status", VStr "success");
                 ("optimizations_applied", VList optimization_plan);
                 ("new_metrics", new_metrics)]))
    (fun e => ret (error_result (exc_text e))).

Definition analyze_performance : M state pyval :=
  try_except
    (metrics <- _collect_metrics;;
     comparison <- _compare_with_history metrics;;
     bottlenecks <- _identify_bottlenecks metrics;;
     ret (VDict [("status", VStr "success");
                 ("analysis", VDict [("current_metrics", metrics);
                                     ("historical_comparison", comparison);
                                     ("bottlenecks", bottlenecks)])]))
    (fun e => ret (error_result (exc_text e))).

Definition suggest_improvements : M state pyval :=
  try_except
    (current_state <- _collect_metrics;;
     suggestions <- _generate_suggestions current_state;;
     ret (VDict [("status", VStr "success"); ("suggestions", suggestions)]))
    (fun e => ret (error_result (exc_text e))).

(** The body of the [try] of [execute]. *)
Definition dispatch (operation : string) (params : pyval) : M state pyval :=
  if String.eqb operation "optimize" then
    target_metric <- lift_result (py_get params "target_metric");;
    optimize_system target_metric
  else if String.eqb operation "analyze_performance" then analyze_performance
  else if String.eqb operation "suggest_improvements" then suggest_improvements
  else ret VNone.

Definition execute (operation : string) (params : pyval) : M state pyval :=
  try_except (dispatch operation params)
    (fun e =>
       log logger ERROR ("Optimization error: " +:+ exc_text e);;;
       ret (error_result (exc_text e))).

(** The history entry and the log record of an optimization that failed
    because [_apply_single_optimization] is not defined. *)
Definition missing_apply : string :=
  "'SelfOptimizer' object has no attribute '_apply_single_optimization'".

Definition failed_entry (optimization : pyval) : pyval :=
  VDict [("optimization", optimization); ("result", VStr "failed");
         ("error", VStr missing_apply)].

Definition failed_log (optimization : pyval) : event :=
  EvLog logger ERROR ("Failed to apply optimization: " +:+ missing_apply).

End SelfOptimizer.

(** *** base_commands.py: WebScraper *)

Module WebScraper.

(** The [requests] session and the [BeautifulSoup] parser, on a world [W]. *)
Record web_api (W : Type) : Type :=
  { session_get : pyval -> M W (string * Z);
    soup_get_text : pyval -> M W string;
    soup_hrefs : pyval -> M W (list pyval) }.
Arguments session_get {W} w.
Arguments soup_get_text {W} w.
Arguments soup_hrefs {W} w.

Section WithWeb.
Context {W : Type} (web : web_api W).

Definition logger : string := "WebScraper".

Definition fetch_page (url : pyval) : M W pyval :=
  response <- session_get web url;;
  ret (VDict [("status", VStr "success"); ("html", VStr (fst response));
              ("status_code", VInt (snd response))]).

Definition extract_text (html : pyval) : M W pyval :=
  text <- soup_get_text web html;;
  ret (VDict [("status", VStr "success"); ("text", VStr text)]).

Definition extract_links (html : pyval) : M W pyval :=
  links <- soup_hrefs web html;;
  ret (VDict [("status", VStr "success"); ("links", VList links)]).

(** The body of the [try] of [execute]. *)
Definition dispatch (operation : string) (params : pyval) : M W pyval :=
  if String.eqb operation "fetch_page" then
    url <- param params "url";; fetch_page url
  else if String.eqb operation "extract_text" then
    html <- param params "html";; extract_text html
  else if String.eqb operation "extract_links" then
    html <- param params "html";; extract_links html
  else ret VNone.

Definition execute (operation : string) (params : pyval) : M W pyval :=
  try_except (dispatch operation params)
    (fun e =>
       log logger ERROR ("Scraping error: " +:+ exc_text e);;;
       ret (error_result (exc_text e))).
End WithWeb.

End WebScraper.

(** *** config_loader.py *)

Module ConfigLoader.

(** The four handlers read and write configuration files and the cache;
    the dispatcher is verified for every behaviour they may have on the
    object-and-file-system state [W]. *)
Record handlers (W : Type) : Type :=
  { load_config : pyval -> M W pyval;
    save_config : pyval -> pyval -> M W pyval;
    list_configs : M W pyval;
    validate_config : pyval -> pyval -> M W pyval }.
Arguments load_config {W} h.
Arguments save_config {W} h.
Arguments list_configs {W} h.
Arguments validate_config {W} h.

Section WithHandlers.
Context {W : Type} (self : handlers W).

Definition logger : string := "ConfigLoader".

(** The body of the [try] of [execute]. *)
Definition dispatch (operation : string) (params : pyval) : M W pyval :=
  if String.eqb operation "load" then
    name <- param params "name";; load_config self name
  else if String.eqb operation "save" then
    name <- param params "name";;
    data <- param params "data";;
    save_config self name data
  else if String.eqb operation "list" then list_configs self
  else if String.eqb operation "validate" then
    name <- param params "name";;
    schema <- param params "schema";;
    validate_config self name schema
  else ret VNone.

Definition execute (operation : string) (params : pyval) : M W pyval :=
  try_except (dispatch operation params)
    (fun e =>
       log logger ERROR ("Config operation error: " +:+ exc_text e);;;
       ret (error_result (exc_text e))).
End WithHandlers.

End ConfigLoader.

(** *** mobile/model_router.py *)

Module ModelRouter.

Section WithWorld.
(** The state the registered model handlers work on. *)
Context {W : Type}.

(** A value of [available_models]: [None], or an object whose
    [process] method is the given function. *)
Inductive model : Type :=
| NoModel
| Handler (process : pyval -> M W pyval).

Record state : Type := Build
  { available_models : gmap string model;
    world : W }.

Definition logger : string := "ModelRouter".

(** [__init__] *)
Definition init (w : W) : state :=
  Build (list_to_map [("llm", NoModel); ("vision", NoModel)]) w.

Definition set_world (w : W) (st : state) : state := Build (available_models st) w.

(** [self.available_models[model_type]] *)
Definition getitem (model_type : string) : M state model :=
  st <- get;;
  match available_models st !! model_type with
  | Some m => ret m
  | None => raise (KeyError model_type)
  end.

Definition route_request (model_type : string) (request_data : pyval) : M state pyval :=
  st <- get;;
  if negb (bool_decide (is_Some (available_models st !! model_type))) then
    log logger ERROR ("Unknown model type: " +:+ model_type);;;
    ret VNone
  else
    try_except
      (model <- getitem model_type;;
       match model with
       | NoModel =>
           log logger ERROR ("Model " +:+ model_type +:+ " not initialized");;;
           ret VNone
       | Handler process => zoom world set_world (process request_data)
       end)
      (fun e =>
         log logger ERROR ("Model processing error: " +:+ exc_text e);;;
         ret VNone).

Definition register_model (model_type : string) (model_handler : model) : M state unit :=
  modify (fun st => Build (<[model_type := model_handler]> (available_models st)) (world st));;;
  log logger INFO ("Registered new model handler for " +:+ model_type).
End WithWorld.
Arguments model W : clear implicits.
Arguments state W : clear implicits.

(** The result the specification asks of a dispatch on an unregistered
    name: an error envelope whose message contains ["unknown command"]
    followed by the name. *)
Definition unknown_command_error (name : string) (v : pyval) : Prop :=
  exists d pre mid suf, v = VDict d /\
    assoc_get "status" d = Some (VStr "error") /\
    assoc_get "message" d =
      Some (VStr (pre +:+ "unknown command" +:+ mid +:+ name +:+ suf)).

End ModelRouter.

(** ** base_commands.py: [BaseCommands] *)

Module BaseCommands.

(** The agent the commands are forwarded to; each method may answer, change
    the agent, log, or raise. *)
Record vader_api (W : Type) : Type :=
  { get_status : M W pyval;
    get_active_tasks : M W pyval;
    get_memory_usage : M W pyval;
    get_uptime : M W pyval;
    start_task : pyval -> pyval -> M W pyval;
    stop_task : pyval -> pyval -> M W pyval;
    restart_component : pyval -> pyval -> M W pyval;
    list_resources : pyval -> pyval -> M W pyval;
    get_config : pyval -> M W pyval;
    set_config : pyval -> pyval -> M W pyval }.
Arguments get_status {W} v.
Arguments get_active_tasks {W} v.
Arguments get_memory_usage {W} v.
Arguments get_uptime {W} v.
Arguments start_task {W} v.
Arguments stop_task {W} v.
Arguments restart_component {W} v.
Arguments list_resources {W} v.
Arguments get_config {W} v.
Arguments set_config {W} v.

(** What [params.get(k, default)] reads in the dictionary [d]. *)
Definition read (d : list (string * pyval)) (k : string) (default : pyval) : pyval :=
  match assoc_get k d with
  | Some x => x
  | None => default
  end.

Section WithVader.
Context {W : Type} (vader : vader_api W).

(** [except Exception as e: return {"status": "error", "message": str(e)}] *)
Definition on_error (e : exn) : M W pyval := ret (error_result (exc_text e)).

Definition commands : pyval :=
  VDict [("help", VStr "Display this help message");
         ("status", VStr "Get system status");
         ("start", VStr "Start a task or process");
         ("stop", VStr "Stop a task or process");
         ("restart", VStr "Restart a component or process");
         ("list", VStr "List available resources or tasks");
         ("config", VStr "View or modify configuration")].

Definition help : M W pyval :=
  ret (VDict [("status", VStr "success"); ("commands", commands)]).

(** [now] is [datetime.now().isoformat()]. *)
Definition status (now : string) : M W pyval :=
  try_except
    (system_status <- get_status vader;;
     active_tasks <- get_active_tasks vader;;
     memory_usage <- get_memory_usage vader;;
     uptime <- get_uptime vader;;
     let status_info :=
       VDict [("timestamp", VStr now);
              ("system_status", system_status);
              ("active_tasks", active_tasks);
              ("memory_usage", memory_usage);
              ("uptime", uptime)] in
     ret (VDict [("status", VStr "success"); ("status_info", status_info)]))
    on_error.

Definition start (params : pyval) : M W pyval :=
  try_except
    (task_type <- lift_result (py_get params "type");;
     task_params <- lift_result (py_get_default params "params" (VDict []));;
     task_id <- start_task vader task_type task_params;;
     ret (VDict [("status", VStr "success"); ("task_id", task_id)]))
    on_error.

Definition stop (params : pyval) : M W pyval :=
  try_except
    (task_id <- lift_result (py_get params "task_id");;
     force <- lift_result (py_get_default params "force" (VBool false));;
     result <- stop_task vader task_id force;;
     ret (VDict [("status", VStr "success"); ("stopped", result)]))
    on_error.

Definition restart (params : pyval) : M W pyval :=
  try_except
    (component <- lift_result (py_get params "component");;
     clean <- lift_result (py_get_default params "clean" (VBool false));;
     result <- restart_component vader component clean;;
     ret (VDict [("status", VStr "success"); ("restarted", result)]))
    on_error.

Definition config (params : pyval) : M W pyval :=
  try_except
    (action <- lift_result (py_get_default params "action" (VStr "view"));;
     config_path <- lift_result (py_get_default params "path" (VStr EmptyString));;
     value <- lift_result (py_get params "value");;
     if py_eq_str action "view" then
       config <- get_config vader config_path;;
       ret (VDict [("status", VStr "success"); ("config", config)])
     else if py_eq_str action "set" then
       result <- set_config vader config_path value;;
       ret (VDict [("status", VStr "success"); ("updated", result)])
     else ret (error_result "Invalid action"))
    on_error.

Definition list (params : pyval) : M W pyval :=
  try_except
    (resource_type <- lift_result (py_get_default params "type" (VStr "all"));;
     filter_params <- lift_result (py_get_default params "filter" (VDict []));;
     items <- list_resources vader resource_type filter_params;;
     ret (VDict [("status", VStr "success"); ("items", items)]))
    on_error.

End WithVader.

(** The fault of [params.get] on a value that is no dictionary. *)
Definition no_get (params : pyval) : exn :=
  AttributeError (quoted (type_name params) +:+ " object has no attribute 'get'").

(** [action] is neither ['view'] nor ['set']. *)
Definition other_action (action : pyval) : bool :=
  negb (py_eq_str action "view") && negb (py_eq_str action "set").

End BaseCommands.

(** ** config_loader.py: the handlers *)

Module EnvFile.

(** [c.isspace()] for a character below 256. *)
Definition is_space (c : ascii) : bool :=
  let n := nat_of_ascii c in
  ((9 <=? n) && (n <=? 13) || (28 <=? n) && (n <=? 32) || (n =? 133) || (n =? 160))%nat.

Definition is_empty (s : string) : bool :=
  match s with
  | EmptyString => true
  | String _ _ => false
  end.

Fixpoint lstrip (s : string) : string :=
  match s with
  | EmptyString => EmptyString
  | String c s' => if is_space c then lstrip s' else s
  end.

Fixpoint rstrip (s : string) : string :=
  match s with
  | EmptyString => EmptyString
  | String c s' =>
      let r := rstrip s' in
      if is_space c && is_empty r then EmptyString else String c r
  end.

(** [s.strip()] *)
Definition strip (s : string) : string := lstrip (rstrip s).

(** [s.startswith('#')] *)
Definition is_comment (s : string) : bool :=
  match s with
  | String c _ => Ascii.eqb c "#"
  | EmptyString => false
  end.

(** [s.split('=', 1)] when [s] has an ['=']: the text before the first one
    and the text after it. *)
Fixpoint split_eq (s : string) : option (string * string) :=
  match s with
  | EmptyString => None
  | String c s' =>
      if Ascii.eqb c "=" then Some (EmptyString, s')
      else match split_eq s' with
           | Some (a, b) => Some (String c a, b)
           | None => None
           end
  end.

(** [d[k] = v] on a dictionary kept in insertion order: a key that is
    there keeps its place. *)
Fixpoint assoc_set (k : string) (v : pyval) (d : list (string * pyval)) : list (string * pyval) :=
  match d with
  | [] => [(k, v)]
  | (k', v') :: d' => if String.eqb k' k then (k, v) :: d' else (k', v') :: assoc_set k v d'
  end.

(** The fault of [key, value = line.split('=', 1)] on a line without ['=']. *)
Definition unpack_error : exn :=
  ValueError "not enough values to unpack (expected 2, got 1)".

(** The loop of [_parse_env_file], from the dictionary [config] on. *)
Fixpoint parse_lines (lines : list string) (config : list (string * pyval))
  : result (list (string * pyval)) :=
  match lines with
  | [] => Ok config
  | line :: lines' =>
      let line := strip line in
      if negb (is_empty line) && negb (is_comment line) then
        match split_eq line with
        | Some (key, value) =>
            parse_lines lines' (assoc_set (strip key) (VStr (strip value)) config)
        | None => Raise unpack_error
        end
      else parse_lines lines' config
  end.

(** [file] is the sequence of lines that iterating the open file yields. *)
Definition _parse_env_file (file : list string) : result pyval :=
  match parse_lines file [] with
  | Ok config => Ok (VDict config)
  | Raise e => Raise e
  end.

(** *** Vocabulary: the lines of a well-formed file *)

Fixpoint all_space (s : string) : bool :=
  match s with
  | EmptyString => true
  | String c s' => is_space c && all_space s'
  end.

Fixpoint has_eq (s : string) : bool :=
  match s with
  | EmptyString => false
  | String c s' => Ascii.eqb c "=" || has_eq s'
  end.

(** A line the loop acts on: not blank and not a comment, once stripped. *)
Definition effective (line : string) : bool :=
  negb (is_empty (strip line)) && negb (is_comment (strip line)).

(** A line that makes the loop raise. *)
Definition malformed (line : string) : bool :=
  effective line && negb (has_eq line).

(** A line of an env file, with the white space around its parts. *)
Inductive env_line : Type :=
| Blank (ws : string)
| Comment (ws : string) (text : string)
| Assign (ws1 key ws2 ws3 value ws4 : string).

Definition render (l : env_line) : string :=
  match l with
  | Blank ws => ws
  | Comment ws text => ws +:+ "#" +:+ text
  | Assign ws1 key ws2 ws3 value ws4 =>
      ws1 +:+ key +:+ ws2 +:+ "=" +:+ ws3 +:+ value +:+ ws4
  end.

(** White space is white space, keys and values have none at their ends,
    a key has no ['='] and does not start a comment. *)
Definition well_formed (l : env_line) : Prop :=
  match l with
  | Blank ws => all_space ws = true
  | Comment ws _ => all_space ws = true
  | Assign ws1 key ws2 ws3 value ws4 =>
      all_space ws1 = true /\ all_space ws2 = true /\
      all_space ws3 = true /\ all_space ws4 = true /\
      strip key = key /\ strip value = value /\
      has_eq key = false /\ is_comment key = false
  end.

(** The assignments a sequence of lines makes, starting from [config]. *)
Fixpoint assign_all (ls : list env_line) (config : list (string * pyval))
  : list (string * pyval) :=
  match ls with
  | [] => config
  | Assign _ key _ _ value _ :: ls' => assign_all ls' (assoc_set key (VStr value) config)
  | _ :: ls' => assign_all ls' config
  end.

(** Every key and every value of [d] is a string without white space at its ends. *)
Definition all_stripped (d : list (string * pyval)) : Prop :=
  Forall (fun kv => strip (fst kv) = fst kv /\
                    exists s, snd kv = VStr s /\ strip s = s) d.

End EnvFile.

Module ConfigFiles.

(** The file system under [config/], on a world [W] with open files [F]:
    the order in which the set [supported_formats] is iterated, the path
    arithmetic of [pathlib], and the calls that read and write. *)
Record fs_api (W F : Type) : Type :=
  { formats_order : list string;
    config_path : string -> string;
    suffix : string -> string;
    path_exists : string -> M W bool;
    open_read : string -> M W F;
    yaml_safe_load : F -> M W pyval;
    json_load : F -> M W pyval;
    file_lines : F -> M W (list string);
    write_json : string -> pyval -> M W unit;
    glob_stems : string -> M W (list pyval);
    check_schema : pyval -> pyval -> M W (list string) }.
Arguments formats_order {W F} f.
Arguments config_path {W F} f.
Arguments suffix {W F} f.
Arguments path_exists {W F} f.
Arguments open_read {W F} f.
Arguments yaml_safe_load {W F} f.
Arguments json_load {W F} f.
Arguments file_lines {W F} f.
Arguments write_json {W F} f.
Arguments glob_stems {W F} f.
Arguments check_schema {W F} f.

Section WithFiles.
Context {W F : Type} (fs : fs_api W F).

(** The object: its cache, and the world its files live in. *)
Record state : Type := Build
  { cached_configs : gmap pykey pyval;
    world : W }.

Definition set_world (w : W) (st : state) : state := Build (cached_configs st) w.

Definition on_world {A} (m : M W A) : M state A := zoom world set_world m.

(** [self.cached_configs[name] = data], [name] already hashed *)
Definition cache (k : pykey) (data : pyval) : M state unit :=
  modify (fun st => Build (<[k := data]> (cached_configs st)) (world st)).

Definition success_config (config : pyval) : pyval :=
  VDict [("status", VStr "success"); ("config", config)].

Definition not_found (name : pyval) : pyval :=
  error_result ("Config '" +:+ py_str name +:+ "' not found").

Fixpoint find_in (exts : list string) (name : pyval) : M state (option string) :=
  match exts with
  | [] => ret None
  | ext :: exts' =>
      let path := config_path fs (py_str name +:+ ext) in
      found <- on_world (path_exists fs path);;
      if found : bool then ret (Some path) else find_in exts' name
  end.

Definition _find_config_file (name : pyval) : M state (option string) :=
  find_in (formats_order fs) name.

Definition _read_config_file (path : string) : M state pyval :=
  f <- on_world (open_read fs path);;
  if String.eqb (suffix fs path) ".yaml" || String.eqb (suffix fs path) ".yml" then
    on_world (yaml_safe_load fs f)
  else if String.eqb (suffix fs path) ".json" then
    on_world (json_load fs f)
  else if String.eqb (suffix fs path) ".env" then
    lines <- on_world (file_lines fs f);;
    lift_result (EnvFile._parse_env_file lines)
  else raise (ValueError ("Unsupported config format: " +:+ suffix fs path)).

Definition load_config (name : pyval) : M state pyval :=
  try_except
    (k <- lift_result (key_of name);;
     st <- get;;
     match cached_configs st !! k with
     | Some config => ret (success_config config)
     | None =>
         config_path <- _find_config_file name;;
         match config_path with
         | None => ret (not_found name)
         | Some path =>
             config_data <- _read_config_file path;;
             cache k config_data;;;
             ret (success_config config_data)
         end
     end)
    (fun e => ret (error_result (exc_text e))).

Definition save_config (name data : pyval) : M state pyval :=
  try_except
    (let path := config_path fs (py_str name +:+ ".json") in
     on_world (write_json fs path data);;;
     k <- lift_result (key_of name);;
     cache k data;;;
     ret (VDict [("status", VStr "success"); ("path", VStr path)]))
    (fun e => ret (error_result (exc_text e))).

Fixpoint glob_all (exts : list string) : M state (list pyval) :=
  match exts with
  | [] => ret []
  | ext :: exts' =>
      stems <- on_world (glob_stems fs ext);;
      more <- glob_all exts';;
      ret (stems ++ more)
  end.

Definition list_configs : M state pyval :=
  configs <- glob_all (formats_order fs);;
  ret (VDict [("status", VStr "success"); ("configs", VList configs)]).

(** The loop over the schema is the environment's ([eval] decides the
    types); the result is built from the errors it collects. *)
Definition _validate_against_schema (data schema : pyval) : M state pyval :=
  errors <- on_world (check_schema fs data schema);;
  ret (VDict [("valid", VBool (length errors =? 0)%nat);
              ("errors", VList (map VStr errors))]).

(** [v != "success"] *)
Definition is_not_success (v : pyval) : bool :=
  match v with
  | VStr s => negb (String.eqb s "success")
  | _ => true
  end.

Definition validate_config (name schema : pyval) : M state pyval :=
  try_except
    (config_data <- load_config name;;
     status <- lift_result (py_getitem config_data "status");;
     if is_not_success status then ret config_data
     else
       config <- lift_result (py_getitem config_data "config");;
       validation_result <- _validate_against_schema config schema;;
       valid <- lift_result (py_getitem validation_result "valid");;
       errors <- lift_result (py_get_default validation_result "errors" (VList []));;
       ret (VDict [("status", VStr "success"); ("valid", valid); ("errors", errors)]))
    (fun e => ret (error_result (exc_text e))).

(** The handlers that [ConfigLoader.execute] dispatches to. *)
Definition self_handlers : ConfigLoader.handlers state :=
  ConfigLoader.Build_handlers state load_config save_config list_configs validate_config.

Definition execute (operation : string) (params : pyval) : M state pyval :=
  ConfigLoader.execute self_handlers operation params.

End WithFiles.
Arguments state W : clear implicits.

(** [__init__] *)
Definition init {W : Type} (w : W) : state W := Build ∅ w.

(** The cache after is the cache before. *)
Definition keeps_cache {W : Type} (st st' : state W) : Prop :=
  cached_configs st' = cached_configs st.

(** [config_dir / f"{name}.json"], the file [save_config] writes. *)
Definition json_path {W F : Type} (fs : fs_api W F) (name : pyval) : string :=
  config_path fs (py_str name +:+ ".json").

(** [{"status": "success", "path": str(config_path)}] *)
Definition saved {W F : Type} (fs : fs_api W F) (name : pyval) : pyval :=
  VDict [("status", VStr "success"); ("path", VStr (json_path fs name))].

End ConfigFiles.

(** ** Sample inputs *)

(** A context whose blob on disk had [null] for the short-term memory, the
    loop built on it, and an environment in which nothing else goes wrong. *)
Definition null_memory_context : ContextManager.state :=
  post (ContextManager.load_initial_state
          (ContextManager.Build_load_env (Ok true) (Ok (VDict [("short_term_memory", VNone)])))
          ContextManager.init).

Definition quiet_env : VaderLoop.cycle_env :=
  VaderLoop.Build_cycle_env 1000%float "2024-01-01T00:00:00" 1000.025%float (Ok tt) false.

(** The text of the fault that every handler of [SelfOptimizer] meets
    first: the class does not define the metric collectors it calls. *)
Definition missing_collector : string :=
  "'SelfOptimizer' object has no attribute '_get_memory_usage'".

(** A file system on which every call fails. *)
Definition no_such_file {A} (path : pyval) : M unit A :=
  raise (Exn "FileNotFoundError" ("[Errno 2] No such file or directory: " +:+ py_repr path)).

Definition failing_os : FileManager.os_api unit :=
  FileManager.Build_os_api unit
    no_such_file (fun path _ => no_such_file path) no_such_file no_such_file
    (fun source _ => no_such_file source).

(** Skills whose handlers all answer [{"status": "success"}]. *)
Definition success_result : pyval := VDict [("status", VStr "success")].

Definition quiet_web : WebScraper.web_api unit :=
  WebScraper.Build_web_api unit
    (fun _ => ret (EmptyString, 200)) (fun _ => ret EmptyString) (fun _ => ret []).

Definition quiet_config : ConfigLoader.handlers unit :=
  ConfigLoader.Build_handlers unit
    (fun _ => ret success_result) (fun _ _ => ret success_result)
    (ret success_result) (fun _ _ => ret success_result).

(** An env file: a comment, assignments with white space around their
    parts, a blank line, a value that holds an ['='], a key assigned twice. *)
Definition newline : string := String "010" EmptyString.

Definition env_sample : list EnvFile.env_line :=
  [EnvFile.Comment EmptyString " database";
   EnvFile.Assign EmptyString "HOST" " " " " "localhost" newline;
   EnvFile.Blank newline;
   EnvFile.Assign "  " "URL" EmptyString EmptyString "a=b" newline;
   EnvFile.Assign EmptyString "HOST" EmptyString EmptyString "db" EmptyString].

(** The suffix of a path: from its last dot on. *)
Fixpoint path_suffix (path : string) : string :=
  match path with
  | EmptyString => EmptyString
  | String c rest =>
      if EnvFile.is_empty (path_suffix rest)
      then (if Ascii.eqb c "." then path else EmptyString)
      else path_suffix rest
  end.

(** A file system kept in memory: the files under [config/] with their
    parsed content. Reading a JSON or YAML file gives the content, writing
    replaces it; nothing fails but opening a file that is not there. *)
Definition memory_fs : ConfigFiles.fs_api (list (string * pyval)) pyval :=
  ConfigFiles.Build_fs_api (list (string * pyval)) pyval
    [".json"; ".yaml"; ".yml"; ".env"]
    (fun file => "config/" +:+ file)
    path_suffix
    (fun path files =>
       Out (Ok (match assoc_get path files with Some _ => true | None => false end)) files [])
    (fun path files =>
       match assoc_get path files with
       | Some content => Out (Ok content) files []
       | None => Out (Raise (Exn "FileNotFoundError"
                               ("[Errno 2] No such file or directory: " +:+ str_repr path)))
                     files []
       end)
    ret
    ret
    (fun _ => ret [])
    (fun path data files => Out (Ok tt) ((path, data) :: files) [])
    (fun _ => ret [])
    (fun _ _ => ret []).

(** An empty disk without a [config/] directory: no file exists, nothing
    can be opened or written. *)
Definition bare_fs : ConfigFiles.fs_api unit unit :=
  ConfigFiles.Build_fs_api unit unit
    [".json"; ".yaml"; ".yml"; ".env"]
    (fun file => "config/" +:+ file)
    path_suffix
    (fun _ => ret false)
    (fun path => no_such_file (VStr path))
    (fun _ => ret VNone)
    (fun _ => ret VNone)
    (fun _ => ret [])
    (fun path _ => no_such_file (VStr path))
    (fun _ => ret [])
    (fun _ _ => ret []).

(** An agent that answers every call with [None] and never fails. *)
Definition quiet_vader : BaseCommands.vader_api unit :=
  BaseCommands.Build_vader_api unit
    (ret VNone) (ret VNone) (ret VNone) (ret VNone)
    (fun _ _ => ret VNone) (fun _ _ => ret VNone) (fun _ _ => ret VNone)
    (fun _ _ => ret VNone) (fun _ => ret VNone) (fun _ _ => ret VNone).

(** An agent that echoes what it is called with: every call returns the
    list of its arguments. *)
Definition echo_vader : BaseCommands.vader_api unit :=
  BaseCommands.Build_vader_api unit
    (ret VNone) (ret VNone) (ret VNone) (ret VNone)
    (fun a b => ret (VList [a; b])) (fun a b => ret (VList [a; b]))
    (fun a b => ret (VList [a; b])) (fun a b => ret (VList [a; b]))
    (fun a => ret (VList [a])) (fun a b => ret (VList [a; b])).

(** An agent that is not there: every call raises. *)
Definition agent_offline {A} : M unit A := raise (Exn "RuntimeError" "agent offline").

Definition offline_vader : BaseCommands.vader_api unit :=
  BaseCommands.Build_vader_api unit
    agent_offline agent_offline agent_offline agent_offline
    (fun _ _ => agent_offline) (fun _ _ => agent_offline) (fun _ _ => agent_offline)
    (fun _ _ => agent_offline) (fun _ => agent_offline) (fun _ _ => agent_offline).

(** A disk that refuses every write. *)
Definition read_only_fs : ConfigFiles.fs_api (list (string * pyval)) pyval :=
  ConfigFiles.Build_fs_api (list (string * pyval)) pyval
    (ConfigFiles.formats_order memory_fs)
    (ConfigFiles.config_path memory_fs)
    (ConfigFiles.suffix memory_fs)
    (ConfigFiles.path_exists memory_fs)
    (ConfigFiles.open_read memory_fs)
    (ConfigFiles.yaml_safe_load memory_fs)
    (ConfigFiles.json_load memory_fs)
    (ConfigFiles.file_lines memory_fs)
    (fun path _ =>
       raise (Exn "OSError" ("[Errno 30] Read-only file system: " +:+ str_repr path)))
    (ConfigFiles.glob_stems memory_fs)
    (ConfigFiles.check_schema memory_fs).

(** * Properties *)

Example init_memory : ContextManager.short_term_memory ContextManager.init = Some (VList []).
Proof. reflexivity. Qed.

Example add_then_read :
  ContextManager.short_term_memory
    (post (ContextManager.add_to_memory (VInt 7) "t0" ContextManager.init))
  = Some (VList [VDict [("timestamp", VStr "t0"); ("data", VInt 7)]]).
Proof. reflexivity. Qed.

(** ** Running the monad *)

Section Monad.
Context {S A B : Type}.

Lemma bind_Ok (m : M S A) (k : A -> M S B) s a s' ev :
  m s = Out (Ok a) s' ev ->
  bind m k s = Out (res (k a s')) (post (k a s')) (ev ++ emitted (k a s')).
Proof. intros H. unfold bind. rewrite H. reflexivity. Qed.

Lemma bind_Raise (m : M S A) (k : A -> M S B) s e s' ev :
  m s = Out (Raise e) s' ev ->
  bind m k s = Out (Raise e) s' ev.
Proof. intros H. unfold bind. rewrite H. reflexivity. Qed.

Lemma try_except_Ok (m : M S A) (h : exn -> M S A) s a :
  res (m s) = Ok a -> try_except m h s = m s.
Proof. intros H. unfold try_except. rewrite H. reflexivity. Qed.

Lemma try_except_Raise (m : M S A) (h : exn -> M S A) s e :
  res (m s) = Raise e ->
  try_except m h s =
    Out (res (h e (post (m s)))) (post (h e (post (m s))))
        (emitted (m s) ++ emitted (h e (post (m s)))).
Proof. intros H. unfold try_except. rewrite H. reflexivity. Qed.

Lemma bind_res_Ok (m : M S A) (k : A -> M S B) s a :
  res (m s) = Ok a ->
  bind m k s =
    Out (res (k a (post (m s)))) (post (k a (post (m s))))
        (emitted (m s) ++ emitted (k a (post (m s)))).
Proof. intros H. unfold bind. rewrite H. reflexivity. Qed.

Lemma bind_res_Raise (m : M S A) (k : A -> M S B) s e :
  res (m s) = Raise e ->
  bind m k s = Out (Raise e) (post (m s)) (emitted (m s)).
Proof. intros H. unfold bind. rewrite H. reflexivity. Qed.

Lemma bind_post_Ok (m : M S A) (k : A -> M S B) s a :
  res (m s) = Ok a -> post (bind m k s) = post (k a (post (m s))).
Proof. intros H. rewrite (bind_res_Ok _ _ _ _ H). reflexivity. Qed.

Lemma bind_post_Raise (m : M S A) (k : A -> M S B) s e :
  res (m s) = Raise e -> post (bind m k s) = post (m s).
Proof. intros H. rewrite (bind_res_Raise _ _ _ _ H). reflexivity. Qed.

Lemma bind_result_Ok (m : M S A) (k : A -> M S B) s a :
  res (m s) = Ok a -> res (bind m k s) = res (k a (post (m s))).
Proof. intros H. rewrite (bind_res_Ok _ _ _ _ H). reflexivity. Qed.

Lemma bind_result_Raise (m : M S A) (k : A -> M S B) s e :
  res (m s) = Raise e -> res (bind m k s) = Raise e.
Proof. intros H. rewrite (bind_res_Raise _ _ _ _ H). reflexivity. Qed.

Lemma res_Out (r : result A) (s : S) ev : res (Out r s ev) = r.
Proof. reflexivity. Qed.

Lemma post_Out (r : result A) (s : S) ev : post (Out r s ev) = s.
Proof. reflexivity. Qed.

Lemma emitted_Out (r : result A) (s : S) ev : emitted (Out r s ev) = ev.
Proof. reflexivity. Qed.

Lemma out_eta (o : out S A) : Out (res o) (post o) (emitted o) = o.
Proof. destruct o; reflexivity. Qed.
End Monad.

(** A relation between the state before and the state after that every
    step of a method respects is respected by the method. *)
Section Preservation.
Context {S : Type} (R : S -> S -> Prop).
Hypothesis R_refl : forall s, R s s.
Hypothesis R_trans : forall s1 s2 s3, R s1 s2 -> R s2 s3 -> R s1 s3.

Lemma preserves_ret {A} (a : A) : preserves R (ret a).
Proof. intros s. apply R_refl. Qed.

Lemma preserves_raise {A} e : preserves R (@raise S A e).
Proof. intros s. apply R_refl. Qed.

Lemma preserves_get : preserves R get.
Proof. intros s. apply R_refl. Qed.

Lemma preserves_emit ev : preserves R (emit ev).
Proof. intros s. apply R_refl. Qed.

Lemma preserves_log logger lv text : preserves R (log logger lv text).
Proof. apply preserves_emit. Qed.

Lemma preserves_lift_result {A} (r : result A) : preserves R (lift_result r).
Proof. destruct r; [apply preserves_ret | apply preserves_raise]. Qed.

Lemma preserves_bind {A B} (m : M S A) (k : A -> M S B) :
  preserves R m -> (forall a, preserves R (k a)) -> preserves R (bind m k).
Proof.
  intros Hm Hk s. unfold bind. specialize (Hm s).
  destruct (res (m s)); cbn [post]; [| exact Hm].
  eapply R_trans; [exact Hm | apply Hk].
Qed.

Lemma preserves_try_except {A} (m : M S A) (h : exn -> M S A) :
  preserves R m -> (forall e, preserves R (h e)) -> preserves R (try_except m h).
Proof.
  intros Hm Hh s. unfold try_except. specialize (Hm s).
  destruct (res (m s)); cbn [post]; [exact Hm |].
  eapply R_trans; [exact Hm | apply Hh].
Qed.

Lemma preserves_bind_lift {A B} (r : result A) (k : A -> M S B) :
  (forall a, r = Ok a -> preserves R (k a)) -> preserves R (bind (lift_result r) k).
Proof.
  intros Hk s. destruct r as [a | e]; [exact (Hk a eq_refl s) | apply R_refl].
Qed.

Lemma preserves_if {A} (b : bool) (m1 m2 : M S A) :
  preserves R m1 -> preserves R m2 -> preserves R (if b then m1 else m2).
Proof. destruct b; auto. Qed.
End Preservation.

Ltac out_simpl := repeat (rewrite res_Out || rewrite post_Out || rewrite emitted_Out).

Create HintDb preserve.

#[local] Hint Resolve preserves_ret preserves_raise preserves_get preserves_emit
  preserves_log preserves_lift_result preserves_if : preserve.

Ltac preserve_step :=
  first [ solve [eauto with preserve]
        | apply preserves_bind; [solve [eauto with preserve] | | intros ?]
        | apply preserves_try_except; [solve [eauto with preserve] | | intros ?]
        | apply preserves_if
        | match goal with
          | |- preserves _ (match ?x with _ => _ end) => destruct x
          end ].

Ltac preserve := repeat preserve_step.

(** ** The context store *)

Section ContextStore.
Import ContextManager.

Implicit Types (c : state) (l : list pyval) (k : pykey).

Lemma getitem_Some c (name : string) v :
  current_context c !! KStr name = Some v ->
  getitem name c = Out (Ok v) c [].
Proof. intros H. unfold getitem, bind, get; cbn. rewrite H. reflexivity. Qed.

Lemma getitem_None c (name : string) :
  current_context c !! KStr name = None ->
  getitem name c = Out (Raise (KeyError name)) c [].
Proof. intros H. unfold getitem, bind, get; cbn. rewrite H. reflexivity. Qed.

Lemma state_eta c : Build (current_context c) = c.
Proof. destruct c; reflexivity. Qed.

(** [add_to_memory] on a list appends one entry and evicts nothing. *)
Lemma add_to_memory_list c l item now :
  short_term_memory c = Some (VList l) ->
  add_to_memory item now c =
    Out (Ok tt)
        (Build (<[KStr "short_term_memory" := VList (l ++ [memory_entry now item])]>
                  (current_context c)))
        [].
Proof.
  intros H. unfold add_to_memory, bind.
  rewrite (getitem_Some _ _ _ H). reflexivity.
Qed.

(** [_prune_short_term_memory] on a list keeps its last 100 items. *)
Lemma prune_list c l :
  short_term_memory c = Some (VList l) ->
  _prune_short_term_memory c =
    Out (Ok tt)
        (Build (<[KStr "short_term_memory" := VList (drop (length l - 100) l)]>
                  (current_context c)))
        [].
Proof.
  intros H. unfold _prune_short_term_memory.
  rewrite (bind_Ok _ _ _ _ _ _ (getitem_Some _ _ _ H)).
  erewrite bind_Ok by reflexivity.
  destruct (Nat.ltb_spec 100 (length l)) as [Hlt | Hle].
  - rewrite (bind_Ok _ _ _ _ _ _ (getitem_Some _ _ _ H)). reflexivity.
  - cbn. f_equal.
    replace (length l - 100)%nat with 0%nat by lia.
    rewrite drop_0, insert_id by exact H. symmetry; apply state_eta.
Qed.

Lemma update_list c l now :
  short_term_memory c = Some (VList l) ->
  update now c =
    Out (Ok tt)
        (Build (<[KStr "short_term_memory" := VList (drop (length l - 100) l)]>
                  (<[KStr "last_update" := VStr now]> (current_context c))))
        [].
Proof.
  intros H. unfold update.
  erewrite bind_Ok by reflexivity.
  erewrite bind_Ok by reflexivity.
  rewrite (prune_list _ l).
  - reflexivity.
  - unfold short_term_memory; cbn. rewrite lookup_insert_ne by discriminate. exact H.
Qed.

Lemma get_pending_inputs_run c v :
  pending_inputs c = Some v ->
  get_pending_inputs c =
    Out (Ok v) (Build (<[KStr "pending_inputs" := VList []]> (current_context c))) [].
Proof.
  intros Hv. unfold get_pending_inputs.
  rewrite (bind_Ok _ _ _ _ _ _ (getitem_Some _ _ _ Hv)). reflexivity.
Qed.

(** The memory is always a suffix of everything appended so far that
    still holds the 100 most recent entries. *)
Lemma run_calls_suffix cs : forall c l0 n,
  short_term_memory c = Some (VList (drop n l0)) ->
  (n <= length l0 - 100)%nat ->
  res (run_calls cs c) = Ok tt /\
  exists n',
    short_term_memory (post (run_calls cs c)) = Some (VList (drop n' (l0 ++ appended cs))) /\
    (n' <= length (l0 ++ appended cs) - 100)%nat.
Proof.
  induction cs as [| [item now | now] cs IH]; intros c l0 n Hmem Hn.
  - cbn. split; [reflexivity |]. exists n. rewrite app_nil_r. auto.
  - cbn [run_calls run_call appended]. unfold bind.
    rewrite (add_to_memory_list _ _ _ _ Hmem). cbn [res post emitted].
    destruct (IH (Build (<[KStr "short_term_memory" :=
                             VList (drop n l0 ++ [memory_entry now item])]>
                           (current_context c)))
                 (l0 ++ [memory_entry now item]) n) as [Hres [n' [Hm' Hn']]].
    + unfold short_term_memory; cbn. rewrite lookup_insert_eq.
      rewrite drop_app_le by lia. reflexivity.
    + rewrite length_app; cbn. lia.
    + rewrite Hres. split; [reflexivity |]. exists n'.
      rewrite <- app_assoc in Hm', Hn'. auto.
  - cbn [run_calls run_call appended]. unfold bind.
    rewrite (update_list _ _ _ Hmem). cbn [res post emitted].
    destruct (IH (Build (<[KStr "short_term_memory" :=
                             VList (drop (length (drop n l0) - 100) (drop n l0))]>
                           (<[KStr "last_update" := VStr now]> (current_context c))))
                 l0 (length l0 - 100)%nat) as [Hres [n' [Hm' Hn']]].
    + unfold short_term_memory; cbn. rewrite lookup_insert_eq.
      rewrite drop_drop, length_drop. do 3 f_equal. lia.
    + lia.
    + rewrite Hres. split; [reflexivity |]. exists n'. auto.
Qed.

Lemma run_calls_app cs1 cs2 c :
  res (run_calls cs1 c) = Ok tt ->
  res (run_calls (cs1 ++ cs2) c) = res (run_calls cs2 (post (run_calls cs1 c))) /\
  post (run_calls (cs1 ++ cs2) c) = post (run_calls cs2 (post (run_calls cs1 c))).
Proof.
  revert c. induction cs1 as [| x cs1 IH]; intros c Hres.
  - split; reflexivity.
  - cbn [run_calls app] in *. unfold bind in *.
    destruct (res (run_call x c)) eqn:Hx; [| discriminate].
    cbn [res post] in *. apply IH. exact Hres.
Qed.

Lemma appended_add_calls items :
  appended (add_calls items) = map (fun p => memory_entry (snd p) (fst p)) items.
Proof.
  induction items as [| [item now] items IH]; [reflexivity |].
  cbn [add_calls map appended fst snd]. f_equal. exact IH.
Qed.

Lemma run_add_calls items : forall c l,
  short_term_memory c = Some (VList l) ->
  res (run_calls (add_calls items) c) = Ok tt /\
  short_term_memory (post (run_calls (add_calls items) c)) =
    Some (VList (l ++ appended (add_calls items))).
Proof.
  induction items as [| [item now] items IH]; intros c l Hmem.
  - cbn. rewrite app_nil_r. auto.
  - cbn [add_calls map run_calls run_call appended fst snd]. unfold bind.
    rewrite (add_to_memory_list _ _ _ _ Hmem). cbn [res post emitted].
    destruct (IH (Build (<[KStr "short_term_memory" := VList (l ++ [memory_entry now item])]>
                           (current_context c)))
                 (l ++ [memory_entry now item])) as [Hres Hm].
    + unfold short_term_memory; cbn. apply lookup_insert_eq.
    + fold (add_calls items). rewrite Hres. split; [reflexivity |].
      rewrite Hm, <- app_assoc. reflexivity.
Qed.
End ContextStore.

Section ContextFrames.
Import ContextManager.

Lemma try_except_is_Ok {S A} (m : M S A) (h : exn -> M S A) s :
  (forall e s', is_Ok (res (h e s'))) -> is_Ok (res (try_except m h s)).
Proof.
  intros Hh. unfold try_except. destruct (res (m s)) as [a | e] eqn:Hm.
  - exists a. exact Hm.
  - cbn [res]. apply Hh.
Qed.

Lemma keeps_keys_refl c : keeps_keys c c.
Proof. intros k H; exact H. Qed.

Lemma keeps_keys_trans c1 c2 c3 : keeps_keys c1 c2 -> keeps_keys c2 c3 -> keeps_keys c1 c3.
Proof. intros H1 H2 k H. auto. Qed.

Lemma writes_only_refl ks c : writes_only ks c c.
Proof. intros k _; reflexivity. Qed.

Lemma writes_only_trans ks c1 c2 c3 :
  writes_only ks c1 c2 -> writes_only ks c2 c3 -> writes_only ks c1 c3.
Proof. intros H1 H2 k H. rewrite H2, H1 by exact H. reflexivity. Qed.

Lemma writes_only_mono ks ks' {A} (m : M state A) :
  ks ⊆ ks' -> preserves (writes_only ks) m -> preserves (writes_only ks') m.
Proof. intros Hsub Hm c k Hk. apply Hm. intros Hin. apply Hk, Hsub, Hin. Qed.

Lemma setitem_keeps_keys k v : preserves keeps_keys (setitem k v).
Proof.
  intros c k' H. cbn. destruct (decide (k = k')) as [-> | Hne].
  - rewrite lookup_insert_eq. eauto.
  - rewrite lookup_insert_ne by exact Hne. exact H.
Qed.

Lemma setitem_writes_only ks k v : k ∈ ks -> preserves (writes_only ks) (setitem k v).
Proof.
  intros Hin c k' Hk'. cbn. apply lookup_insert_ne. intros ->. exact (Hk' Hin).
Qed.

Lemma getitem_preserves (R : state -> state -> Prop) name :
  (forall c, R c c) -> preserves R (getitem name).
Proof.
  intros Hrefl c. unfold getitem, bind, get; cbn.
  destruct (current_context c !! KStr name); cbn; apply Hrefl.
Qed.
End ContextFrames.

#[local] Hint Resolve keeps_keys_refl keeps_keys_trans writes_only_refl writes_only_trans
  setitem_keeps_keys getitem_preserves : preserve.

Section ContextMethods.
Import ContextManager.

Lemma merge_items_keeps_keys d : preserves keeps_keys (merge_items d).
Proof. induction d as [| [k v] d IH]; cbn [merge_items]; preserve. Qed.

Lemma merge_seq2_keeps_keys l : forall i, preserves keeps_keys (merge_seq2 i l).
Proof. induction l as [| e l IH]; intros i; cbn [merge_seq2]; preserve. Qed.

Lemma dict_update_keeps_keys other : preserves keeps_keys (dict_update other).
Proof.
  unfold dict_update. preserve.
  - apply merge_seq2_keeps_keys.
  - apply merge_items_keeps_keys.
Qed.

Lemma load_initial_state_keeps_keys fs : preserves keeps_keys (load_initial_state fs).
Proof. unfold load_initial_state. preserve. apply dict_update_keeps_keys. Qed.

Lemma save_state_keeps_keys fs : preserves keeps_keys (save_state fs).
Proof. unfold save_state. preserve. Qed.

Lemma prune_keeps_keys : preserves keeps_keys _prune_short_term_memory.
Proof. unfold _prune_short_term_memory. preserve. Qed.

Lemma update_keeps_keys now : preserves keeps_keys (update now).
Proof. unfold update. preserve. Qed.

Lemma add_to_memory_keeps_keys item now : preserves keeps_keys (add_to_memory item now).
Proof. unfold add_to_memory. preserve. Qed.

Lemma get_pending_inputs_keeps_keys : preserves keeps_keys get_pending_inputs.
Proof. unfold get_pending_inputs. preserve. Qed.

Lemma add_task_keeps_keys task : preserves keeps_keys (add_task task).
Proof. unfold add_task. preserve. Qed.

(** Every reachable context still has the six keys of [__init__]. *)
Lemma reachable_keeps_init_keys c :
  reachable c -> keeps_keys init c.
Proof.
  induction 1 as [| c fs _ IH | c fs _ IH | c now _ IH | c item now _ IH | c _ IH | c task _ IH].
  - apply keeps_keys_refl.
  - eapply keeps_keys_trans; [exact IH | apply load_initial_state_keeps_keys].
  - eapply keeps_keys_trans; [exact IH | apply save_state_keeps_keys].
  - eapply keeps_keys_trans; [exact IH | apply update_keeps_keys].
  - eapply keeps_keys_trans; [exact IH | apply add_to_memory_keeps_keys].
  - eapply keeps_keys_trans; [exact IH | apply get_pending_inputs_keeps_keys].
  - eapply keeps_keys_trans; [exact IH | apply add_task_keeps_keys].
Qed.

Lemma reachable_pending_inputs c : reachable c -> is_Some (pending_inputs c).
Proof.
  intros H. apply (reachable_keeps_init_keys c H (KStr "pending_inputs")).
  eexists; reflexivity.
Qed.

(** *** What [update] and [load_initial_state] may write *)

Lemma prune_writes_only :
  preserves (writes_only [KStr "last_update"; KStr "short_term_memory"])
            _prune_short_term_memory.
Proof.
  unfold _prune_short_term_memory. preserve.
  apply setitem_writes_only. set_solver.
Qed.

Lemma update_writes_only now :
  preserves (writes_only [KStr "last_update"; KStr "short_term_memory"]) (update now).
Proof.
  unfold update. apply preserves_bind; [eauto with preserve | | intros _].
  - apply setitem_writes_only. set_solver.
  - apply preserves_bind; [eauto with preserve | | intros _].
    + unfold _update_environment_data. preserve.
    + apply prune_writes_only.
Qed.

Lemma merge_items_writes_only d :
  preserves (writes_only (written_keys (VDict d))) (merge_items d).
Proof.
  induction d as [| [k v] d IH]; cbn [merge_items written_keys map fst].
  - preserve.
  - apply preserves_bind; [eauto with preserve | | intros _].
    + apply setitem_writes_only. set_solver.
    + eapply writes_only_mono; [| exact IH]. cbn [written_keys].
      intros x Hx. right. exact Hx.
Qed.

(** The index of an element only shows in the text of the error. *)
Lemma seq2_item_index i e kv : seq2_item i e = Ok kv -> seq2_item 0 e = Ok kv.
Proof.
  destruct e as [| b | z | s | l | d]; cbn; try discriminate.
  - destruct s as [| a [| b [| c s]]]; cbn; congruence.
  - destruct l as [| x [| y [| z l]]]; cbn; congruence.
  - destruct d as [| [k1 v1] [| [k2 v2] [| kv3 d]]]; cbn; congruence.
Qed.

Lemma merge_seq2_writes_only l : forall i,
  preserves (writes_only (written_keys (VList l))) (merge_seq2 i l).
Proof.
  induction l as [| e l IH]; intros i; cbn [merge_seq2 written_keys].
  - preserve.
  - apply preserves_bind_lift; [eauto with preserve |]. intros kv Hkv.
    apply preserves_bind_lift; [eauto with preserve |]. intros k Hk.
    assert (Hkey : seq2_key e = Some k).
    { unfold seq2_key. rewrite (seq2_item_index _ _ _ Hkv), Hk. reflexivity. }
    apply preserves_bind; [eauto with preserve | | intros _].
    + apply setitem_writes_only. cbn [omap list_omap]. rewrite Hkey. set_solver.
    + eapply writes_only_mono; [| apply IH].
      cbn [written_keys omap list_omap]. rewrite Hkey. set_solver.
Qed.

Lemma dict_update_writes_only other :
  preserves (writes_only (written_keys other)) (dict_update other).
Proof.
  destruct other as [| b | z | s | l | d]; cbn [dict_update]; try solve [preserve].
  - apply merge_seq2_writes_only.
  - apply merge_items_writes_only.
Qed.

Lemma load_initial_state_writes_only fs :
  preserves (writes_only (loaded_keys fs)) (load_initial_state fs).
Proof.
  unfold load_initial_state, loaded_keys.
  apply preserves_try_except; [eauto with preserve | | intros e; preserve].
  apply preserves_bind_lift; [eauto with preserve |]. intros found ->.
  destruct found; [| preserve].
  apply preserves_bind_lift; [eauto with preserve |]. intros saved_context ->.
  apply preserves_bind; [eauto with preserve | | intros _; preserve].
  apply dict_update_writes_only.
Qed.

(** *** What [load_initial_state] and [save_state] return *)

Lemma merge_items_run d : forall c,
  merge_items d c = Out (Ok tt) (Build (dict_of_items d ∪ current_context c)) [].
Proof.
  induction d as [| [k v] d IH]; intros c.
  - cbn. unfold dict_of_items; cbn. rewrite (left_id_L ∅ (∪)). destruct c; reflexivity.
  - cbn [merge_items]. erewrite bind_Ok by reflexivity. rewrite IH. cbn [res post emitted app].
    do 2 f_equal. unfold dict_of_items. cbn [map fst snd current_context].
    rewrite reverse_cons, list_to_map_app. cbn [list_to_map foldr].
    rewrite <- (assoc_L (∪)). f_equal.
    rewrite <- insert_union_l, (left_id_L ∅ (∪)). reflexivity.
Qed.

Lemma load_initial_state_is_Ok fs c : res (load_initial_state fs c) = Ok tt.
Proof.
  destruct (try_except_is_Ok
    (found <- lift_result (exists_result fs);;
     if found : bool then
       saved_context <- lift_result (json_load_result fs);;
       dict_update saved_context;;;
       log logger INFO "Context loaded from file"
     else ret tt)
    (fun e => log logger ERROR ("Error loading context: " +:+ exc_text e)) c)
    as [[] H].
  - intros e s'. exists tt. reflexivity.
  - exact H.
Qed.

Lemma save_state_run fs c :
  res (save_state fs c) = Ok tt /\ post (save_state fs c) = c.
Proof.
  unfold save_state.
  destruct fs as [[[] | e1] [[] | e2]]; cbn; auto.
Qed.

End ContextMethods.


(** ** Claims about the context store *)

Section ContextClaims.
Import ContextManager.

(** C1, as stated, fails: [add_to_memory] appends and never evicts. After
    101 calls on a fresh context the short-term memory holds 101 entries. *)
Lemma add_to_memory_exceeds_cap :
  exists l,
    short_term_memory
      (post (run_calls (add_calls (replicate 101 (VNone, "t"))) init)) = Some (VList l) /\
    ~ (length l <= 100)%nat.
Proof.
  destruct (run_add_calls (replicate 101 (VNone, "t")) init []) as [_ Hmem];
    [reflexivity |].
  eexists. split; [exact Hmem |].
  rewrite appended_add_calls. cbn [app]. rewrite length_map, length_replicate. lia.
Qed.

(** C1, amended: every [add_to_memory] call appends its entry and evicts
    nothing, so a sequence of such calls leaves all entries in call order
    and may exceed 100; the cap is enforced by [update()]: whatever calls of
    [add_to_memory] and [update] came before, immediately after an [update]
    the short-term memory holds at most 100 entries, and they are the most
    recent 100 appended, in call order. *)
Theorem memory_capped_by_update
  (items : list (pyval * string)) (cs : list call) (now : string) (c : state)
  (l0 : list pyval) :
  short_term_memory c = Some (VList l0) ->
  (res (run_calls (add_calls items) c) = Ok tt /\
   short_term_memory (post (run_calls (add_calls items) c)) =
     Some (VList (l0 ++ appended (add_calls items)))) /\
  (let o := run_calls (cs ++ [Update now]) c in
   let all := l0 ++ appended cs in
   res o = Ok tt /\
   short_term_memory (post o) = Some (VList (drop (length all - 100) all)) /\
   (length (drop (length all - 100) all) <= 100)%nat).
Proof.
  intros Hmem. split; [apply run_add_calls; exact Hmem |].
  destruct (run_calls_suffix cs c l0 0) as [Hres [n [Hn Hle]]];
    [rewrite drop_0; exact Hmem | lia |].
  destruct (run_calls_app cs [Update now] c Hres) as [Hr Hp].
  cbv zeta. rewrite Hr, Hp. cbn [run_calls run_call].
  erewrite bind_Ok by (apply update_list; exact Hn).
  cbn [res post emitted ret]. split; [reflexivity |]. split.
  - unfold short_term_memory; cbn. rewrite lookup_insert_eq.
    rewrite drop_drop, length_drop. do 3 f_equal. lia.
  - rewrite length_drop. lia.
Qed.

Lemma memory_capped_by_update_witness :
  short_term_memory
    (post (run_calls ([AddToMemory (VInt 1) "t1"; Update "t2"; AddToMemory (VInt 2) "t3"]
                        ++ [Update "t4"]) init))
  = Some (VList [memory_entry "t1" (VInt 1); memory_entry "t3" (VInt 2)]).
Proof.
  exact (proj1 (proj2 (proj2
    (memory_capped_by_update [] [AddToMemory (VInt 1) "t1"; Update "t2"; AddToMemory (VInt 2) "t3"]
       "t4" init [] eq_refl)))).
Defined.

(** C2: in every state a context can reach, [get_pending_inputs] does not
    raise, returns the current value of [pending_inputs] and leaves an
    empty list there; a second call at once returns the empty list and
    changes nothing; with no pending input the call returns the empty list
    and leaves the context as it was. *)
Theorem get_pending_inputs_drains (c : state) :
  reachable c ->
  exists v,
    pending_inputs c = Some v /\
    let o := get_pending_inputs c in
    res o = Ok v /\
    emitted o = [] /\
    pending_inputs (post o) = Some (VList []) /\
    get_pending_inputs (post o) = Out (Ok (VList [])) (post o) [] /\
    (v = VList [] -> o = Out (Ok (VList [])) c []).
Proof.
  intros Hreach. destruct (reachable_pending_inputs c Hreach) as [v Hv].
  exists v. split; [exact Hv |]. cbv zeta.
  rewrite (get_pending_inputs_run c v Hv). cbn [res post emitted].
  repeat split.
  - unfold pending_inputs; cbn. apply lookup_insert_eq.
  - unfold get_pending_inputs.
    erewrite bind_Ok; [| apply getitem_Some; cbn; apply lookup_insert_eq].
    cbn. rewrite insert_insert_eq. reflexivity.
  - intros ->. rewrite insert_id by exact Hv. rewrite state_eta. reflexivity.
Qed.

Lemma get_pending_inputs_drains_witness :
  exists v,
    pending_inputs init = Some v /\
    let o := get_pending_inputs init in
    res o = Ok v /\
    emitted o = [] /\
    pending_inputs (post o) = Some (VList []) /\
    get_pending_inputs (post o) = Out (Ok (VList [])) (post o) [] /\
    (v = VList [] -> o = Out (Ok (VList [])) init []).
Proof. exact (get_pending_inputs_drains init reach_init). Defined.

(** C10: whether it returns or raises, [update()] changes no key of the
    context other than [last_update] and [short_term_memory]; in particular
    [active_tasks], [pending_inputs], [environment_data] and [system_state]
    stay as they were, and the environment refresh changes nothing at all. *)
Theorem update_frame (now : string) (c : state) (k : pykey) :
  k ≠ KStr "last_update" ->
  k ≠ KStr "short_term_memory" ->
  current_context (post (update now c)) !! k = current_context c !! k /\
  _update_environment_data c = Out (Ok tt) c [].
Proof.
  intros H1 H2. split; [| reflexivity].
  apply (update_writes_only now c k).
  intros Hin. apply elem_of_cons in Hin as [-> | Hin]; [exact (H1 eq_refl) |].
  apply elem_of_cons in Hin as [-> | Hin]; [exact (H2 eq_refl) |].
  inversion Hin.
Qed.

Lemma update_frame_witness :
  current_context (post (update "2024-01-01T00:00:00" init)) !! KStr "pending_inputs" =
    current_context init !! KStr "pending_inputs" /\
  _update_environment_data init = Out (Ok tt) init [].
Proof.
  apply (update_frame "2024-01-01T00:00:00" init (KStr "pending_inputs")); discriminate.
Defined.

(** C8: [load_initial_state] and [save_state] never raise, whatever the
    file system answers. [load_initial_state] merges what it loaded into
    the context it is called on (the defaults, at start-up): a loaded JSON
    object overrides the keys it has, and in every case each key the blob
    does not write keeps the value it had. [save_state] leaves the context
    as it was, and a failed write is logged and the call returns normally. *)
Theorem restore_persist_never_raise (c : state) (load : load_env) (save : save_env) :
  res (load_initial_state load c) = Ok tt /\
  (forall k, k ∉ loaded_keys load ->
     current_context (post (load_initial_state load c)) !! k = current_context c !! k) /\
  (forall d, exists_result load = Ok true -> json_load_result load = Ok (VDict d) ->
     current_context (post (load_initial_state load c)) = dict_of_items d ∪ current_context c) /\
  res (save_state save c) = Ok tt /\
  post (save_state save c) = c /\
  (forall e, mkdir_result save = Ok tt -> dump_result save = Raise e ->
     emitted (save_state save c) = [EvLog logger ERROR ("Error saving context: " +:+ exc_text e)]).
Proof.
  split; [apply load_initial_state_is_Ok |].
  split; [exact (load_initial_state_writes_only load c) |].
  split.
  - intros d Hex Hload. unfold load_initial_state, try_except.
    rewrite Hex, Hload. unfold bind. cbn [lift_result ret res post dict_update].
    rewrite merge_items_run. reflexivity.
  - destruct (save_state_run save c) as [Hres Hpost].
    split; [exact Hres |]. split; [exact Hpost |].
    intros e Hmk Hdump. unfold save_state, try_except. rewrite Hmk, Hdump. reflexivity.
Qed.

(** A blob written before [short_term_memory] and [pending_inputs] existed. *)
Example restore_old_blob :
  let blob := VDict [("system_state", VStr "ready"); ("last_update", VStr "2023-12-31")] in
  let c := post (load_initial_state (Build_load_env (Ok true) (Ok blob)) init) in
  current_context c !! KStr "system_state" = Some (VStr "ready") /\
  short_term_memory c = Some (VList []) /\
  pending_inputs c = Some (VList []).
Proof. repeat split; reflexivity. Qed.

(** A blob that is an iterable of pairs is merged up to its first bad element. *)
Example restore_pairs_blob :
  let blob := VList [VList [VStr "system_state"; VStr "ready"]; VInt 5;
                     VList [VStr "last_update"; VStr "never"]] in
  let o := load_initial_state (Build_load_env (Ok true) (Ok blob)) init in
  res o = Ok tt /\
  current_context (post o) !! KStr "system_state" = Some (VStr "ready") /\
  current_context (post o) !! KStr "last_update" = Some VNone /\
  emitted o =
    [EvLog logger ERROR
       "Error loading context: cannot convert dictionary update sequence element #1 to a sequence"].
Proof. repeat split; reflexivity. Qed.

End ContextClaims.

(** ** The cycle scheduler *)

Section Scheduler.
Import VaderLoop.

Implicit Types (st : state) (env : cycle_env).

Lemma on_context_run {A} (m : M ContextManager.state A) st :
  on_context m st =
    Out (res (m (context st))) (set_context (post (m (context st))) st)
        (emitted (m (context st))).
Proof. reflexivity. Qed.

Lemma execute_action_run action st :
  _execute_action action st =
    Out (Ok tt) st [EvLog logger DEBUG ("Executing action: " +:+ py_str action)].
Proof. reflexivity. Qed.

(** A fault of the Observe step ends the cycle at once. *)
Lemma execute_cycle_observe_raises env st e :
  res (ContextManager.update (now_iso env) (context st)) = Raise e ->
  _execute_cycle env st =
    Out (Raise e)
        (set_context (post (ContextManager.update (now_iso env) (context st))) (counted st))
        (emitted (ContextManager.update (now_iso env) (context st))).
Proof.
  intros H. unfold _execute_cycle.
  erewrite bind_Ok by reflexivity.
  erewrite bind_Raise; [reflexivity |].
  rewrite on_context_run. cbn [context set_cycle_count counted].
  rewrite <- H. reflexivity.
Qed.

Lemma cycle_step_refl st : cycle_step st st.
Proof. split; reflexivity. Qed.

Lemma cycle_step_trans st1 st2 st3 :
  cycle_step st1 st2 -> cycle_step st2 st3 -> cycle_step st1 st3.
Proof. intros [H1 H2] [H3 H4]. split; congruence. Qed.

Lemma on_context_cycle_step {A} (m : M ContextManager.state A) :
  preserves cycle_step (on_context m).
Proof. intros st. split; reflexivity. Qed.

Lemma for_items_cycle_step items body :
  (forall k v, preserves cycle_step (body k v)) ->
  preserves cycle_step (for_items items body).
Proof.
  intros Hbody. induction items as [| [k v] items IH]; cbn [for_items].
  - apply preserves_ret, cycle_step_refl.
  - apply preserves_bind; [apply cycle_step_trans | apply Hbody | intros _; exact IH].
Qed.

Lemma modify_cycle_step (f : state -> state) :
  (forall st, cycle_step st (f st)) -> preserves cycle_step (modify f).
Proof. intros H st. apply H. Qed.

#[local] Hint Resolve cycle_step_refl cycle_step_trans on_context_cycle_step : preserve.

Lemma process_inputs_cycle_step inputs : preserves cycle_step (_process_inputs inputs).
Proof.
  unfold _process_inputs.
  apply preserves_bind_lift; [apply cycle_step_refl |]. intros items _.
  apply for_items_cycle_step. intros k v. apply preserves_log, cycle_step_refl.
Qed.

Lemma determine_next_action_cycle_step : preserves cycle_step _determine_next_action.
Proof. apply preserves_ret, cycle_step_refl. Qed.

Lemma execute_action_cycle_step action : preserves cycle_step (_execute_action action).
Proof. apply preserves_log, cycle_step_refl. Qed.

Lemma set_last_cycle_time_cycle_step t : preserves cycle_step (modify (set_last_cycle_time t)).
Proof. apply modify_cycle_step. intros st. split; reflexivity. Qed.

#[local] Hint Resolve process_inputs_cycle_step determine_next_action_cycle_step
  execute_action_cycle_step set_last_cycle_time_cycle_step : preserve.

(** Whatever happens in a cycle, it is counted once and [running] is not touched. *)
Lemma execute_cycle_counts env st :
  running (post (_execute_cycle env st)) = running st /\
  cycle_count (post (_execute_cycle env st)) = cycle_count st + 1.
Proof.
  unfold _execute_cycle. erewrite bind_Ok by reflexivity. cbn [post].
  match goal with
  | |- context [post (?rest (set_cycle_count (cycle_count st + 1) st))] =>
      assert (Hrest : preserves cycle_step rest) by preserve
  end.
  exact (Hrest (set_cycle_count (cycle_count st + 1) st)).
Qed.

Lemma manage_cycle_timing_post env st : post (_manage_cycle_timing env st) = st.
Proof.
  unfold _manage_cycle_timing, bind, get; cbn [res post].
  destruct (last_cycle_time st <? min_interval)%float; [| reflexivity].
  unfold sleep, bind, emit; cbn [res post]. destruct (sleep_result env); reflexivity.
Qed.

Lemma cycle_and_pace_unfold env :
  cycle_and_pace env = (_execute_cycle env;;; _manage_cycle_timing env).
Proof. reflexivity. Qed.

Lemma iteration_unfold env :
  iteration env =
    (try_except (cycle_and_pace env)
       (fun e =>
          log logger ERROR ("Error in main loop: " +:+ exc_text e);;;
          modify (set_running false));;;
     (if stop_called env then stop else ret tt)).
Proof. reflexivity. Qed.

Lemma cycle_and_pace_counts env st :
  running (post (cycle_and_pace env st)) = running st /\
  cycle_count (post (cycle_and_pace env st)) = cycle_count st + 1.
Proof.
  rewrite cycle_and_pace_unfold. destruct (res (_execute_cycle env st)) as [[] | e] eqn:H.
  - rewrite (bind_post_Ok _ _ _ _ H), manage_cycle_timing_post.
    apply execute_cycle_counts.
  - rewrite (bind_post_Raise _ _ _ _ H). apply execute_cycle_counts.
Qed.

(** The [try] statement of [run] around any body [m], and the test of an
    outside [stop()] after it. *)
Lemma guarded_fault (m : M state unit) (stopped : bool) st e :
  res (m st) = Raise e ->
  (try_except m
     (fun e =>
        log logger ERROR ("Error in main loop: " +:+ exc_text e);;;
        modify (set_running false));;;
   (if stopped then stop else ret tt)) st =
    Out (Ok tt) (set_running false (post (m st)))
        (emitted (m st) ++ [EvLog logger ERROR ("Error in main loop: " +:+ exc_text e)]).
Proof.
  intros H. unfold bind at 1. rewrite (try_except_Raise _ _ _ _ H). cbn [res post emitted].
  destruct stopped; cbn [stop modify ret bind log emit res post emitted set_running
                          running context cycle_count last_cycle_time app];
    rewrite ?app_nil_r; reflexivity.
Qed.

Lemma guarded_clean (m : M state unit) (stopped : bool) st :
  res (m st) = Ok tt ->
  (try_except m
     (fun e =>
        log logger ERROR ("Error in main loop: " +:+ exc_text e);;;
        modify (set_running false));;;
   (if stopped then stop else ret tt)) st =
    Out (Ok tt) (if stopped then set_running false (post (m st)) else post (m st))
        (emitted (m st)).
Proof.
  intros H. unfold bind at 1. rewrite (try_except_Ok _ _ _ _ H), H.
  destruct stopped; cbn [stop modify ret res post emitted]; rewrite app_nil_r; reflexivity.
Qed.

Lemma running_set_running b st : running (set_running b st) = b.
Proof. reflexivity. Qed.

Lemma cycle_count_set_running b st : cycle_count (set_running b st) = cycle_count st.
Proof. reflexivity. Qed.

(** A fault in the body of the [try] is logged and clears [running]. *)
Lemma iteration_fault env st e :
  res (cycle_and_pace env st) = Raise e ->
  res (iteration env st) = Ok tt /\
  running (post (iteration env st)) = false /\
  cycle_count (post (iteration env st)) = cycle_count st + 1 /\
  emitted (iteration env st) =
    emitted (cycle_and_pace env st) ++ [EvLog logger ERROR ("Error in main loop: " +:+ exc_text e)].
Proof.
  intros H. rewrite iteration_unfold, (guarded_fault _ _ _ _ H). out_simpl.
  rewrite running_set_running, cycle_count_set_running.
  destruct (cycle_and_pace_counts env st) as [_ Hcount].
  repeat split. exact Hcount.
Qed.

(** A cycle without a fault leaves [running] to [stop()]. *)
Lemma iteration_clean env st :
  res (cycle_and_pace env st) = Ok tt ->
  res (iteration env st) = Ok tt /\
  running (post (iteration env st)) = running st && negb (stop_called env) /\
  cycle_count (post (iteration env st)) = cycle_count st + 1 /\
  emitted (iteration env st) = emitted (cycle_and_pace env st).
Proof.
  intros H. rewrite iteration_unfold, (guarded_clean _ _ _ H). out_simpl.
  destruct (cycle_and_pace_counts env st) as [Hrun Hcount].
  destruct (stop_called env);
    rewrite ?running_set_running, ?cycle_count_set_running, ?andb_true_r, ?andb_false_r;
    auto.
Qed.

Lemma loop_unfold envs st :
  loop envs st =
    if running st then
      match envs with
      | [] => Out (Ok Looping) st []
      | env :: envs' => (iteration env;;; loop envs') st
      end
    else Out (Ok Returned) st [].
Proof.
  destruct envs as [| env envs'].
  - cbn [loop]. unfold bind, get. cbn [res post emitted app]. destruct (running st); reflexivity.
  - cbn [loop]. unfold bind at 1, get. cbn [res post emitted app].
    destruct (running st); [| reflexivity]. apply out_eta.
Qed.

Lemma loop_stopped envs st :
  running st = false -> loop envs st = Out (Ok Returned) st [].
Proof. intros H. rewrite loop_unfold, H. reflexivity. Qed.

Lemma loop_nil st :
  running st = true -> loop [] st = Out (Ok Looping) st [].
Proof. intros H. rewrite loop_unfold, H. reflexivity. Qed.

Lemma iteration_is_Ok env st : res (iteration env st) = Ok tt.
Proof.
  destruct (res (cycle_and_pace env st)) as [[] | e] eqn:H.
  - apply iteration_clean, H.
  - eapply iteration_fault, H.
Qed.

Lemma loop_cons env envs st :
  running st = true ->
  loop (env :: envs) st =
    Out (res (loop envs (post (iteration env st))))
        (post (loop envs (post (iteration env st))))
        (emitted (iteration env st) ++ emitted (loop envs (post (iteration env st)))).
Proof.
  intros H. rewrite loop_unfold, H.
  apply (bind_res_Ok (iteration env) (fun _ => loop envs) st tt (iteration_is_Ok env st)).
Qed.

(** A prefix of the environment's answers on which the loop is still
    running can be extended. *)
Lemma loop_app pre more : forall st,
  res (loop pre st) = Ok Looping ->
  loop (pre ++ more) st =
    Out (res (loop more (post (loop pre st))))
        (post (loop more (post (loop pre st))))
        (emitted (loop pre st) ++ emitted (loop more (post (loop pre st)))).
Proof.
  induction pre as [| env pre IH]; intros st H;
    (destruct (running st) eqn:Hrun;
      [| rewrite (loop_stopped _ st Hrun) in H; discriminate]).
  - cbn [app]. rewrite (loop_nil st Hrun). cbn [res post emitted app].
    symmetry. apply out_eta.
  - cbn [app]. rewrite (loop_cons env (pre ++ more) st Hrun).
    rewrite (loop_cons env pre st Hrun) in H |- *. cbn [res post emitted] in H |- *.
    rewrite (IH _ H). cbn [res post emitted]. rewrite app_assoc. reflexivity.
Qed.

Lemma loop_Looping_running pre : forall st,
  res (loop pre st) = Ok Looping -> running (post (loop pre st)) = true.
Proof.
  induction pre as [| env pre IH]; intros st H;
    (destruct (running st) eqn:Hrun;
      [| rewrite (loop_stopped _ st Hrun) in H; discriminate]).
  - rewrite (loop_nil st Hrun). exact Hrun.
  - rewrite (loop_cons env pre st Hrun) in H |- *. cbn [res post] in H |- *.
    apply IH, H.
Qed.

Lemma run_loop envs st : run envs st = loop envs (set_running true st).
Proof. unfold run. erewrite bind_Ok by reflexivity. cbn [app]. apply out_eta. Qed.

(** The Pace step ends the way [time.sleep] does. *)
Lemma manage_cycle_timing_res env st :
  sleep_result env = Ok tt -> res (_manage_cycle_timing env st) = Ok tt.
Proof.
  intros H. unfold _manage_cycle_timing. erewrite bind_Ok by reflexivity. out_simpl.
  destruct (last_cycle_time st <? min_interval)%float; [| reflexivity].
  unfold sleep. erewrite bind_Ok by reflexivity. out_simpl. rewrite H. reflexivity.
Qed.

(** *** Floats: [x <= y] excludes [y < x] *)



(** *** A cycle on a well-formed context *)

Lemma for_items_log items st :
  for_items items
    (fun input_type input_data => log logger DEBUG ("Processing input type: " +:+ input_type)) st
  = Out (Ok tt) st (ingest_log (VDict items)).
Proof.
  induction items as [| [k v] items IH]; [reflexivity |].
  cbn [for_items]. erewrite bind_Ok by reflexivity. rewrite IH. reflexivity.
Qed.

Lemma ingest_run inputs st :
  truthy inputs = false \/ (exists d, inputs = VDict d) ->
  (if truthy inputs then _process_inputs inputs else ret tt) st =
    Out (Ok tt) st (ingest_log inputs).
Proof.
  intros [Hfalse | [d ->]].
  - rewrite Hfalse. destruct inputs as [| | | | | [| kv d]]; try reflexivity. discriminate.
  - destruct d as [| kv d]; [reflexivity |]. cbn [truthy length Nat.eqb negb].
    unfold _process_inputs. erewrite bind_Ok by reflexivity.
    rewrite for_items_log. reflexivity.
Qed.

(** With a list as short-term memory and nothing, or a dictionary, pending,
    every step of the cycle succeeds. *)
Lemma execute_cycle_run env st l inputs :
  ContextManager.short_term_memory (context st) = Some (VList l) ->
  ContextManager.pending_inputs (context st) = Some inputs ->
  truthy inputs = false \/ (exists d, inputs = VDict d) ->
  _execute_cycle env st =
    Out (Ok tt)
        (Build
           (ContextManager.Build
              (<[KStr "pending_inputs" := VList []]>
                 (<[KStr "short_term_memory" := VList (drop (length l - 100) l)]>
                    (<[KStr "last_update" := VStr (now_iso env)]>
                       (ContextManager.current_context (context st))))))
           (running st) (cycle_count st + 1) (t_end env - t_start env)%float)
        (ingest_log inputs).
Proof.
  intros Hmem Hpending Hinputs. unfold _execute_cycle.
  erewrite bind_Ok by reflexivity. cbn [res post emitted app].
  erewrite bind_Ok
    by (rewrite on_context_run; cbn [context set_cycle_count];
        rewrite (update_list _ _ _ Hmem); reflexivity).
  cbn [res post emitted app].
  erewrite bind_Ok
    by (rewrite on_context_run; cbn [context set_context set_cycle_count];
        rewrite (get_pending_inputs_run _ inputs)
          by (unfold ContextManager.pending_inputs; cbn [ContextManager.current_context];
              rewrite !lookup_insert_ne by discriminate; exact Hpending);
        reflexivity).
  cbn [res post emitted app ContextManager.current_context].
  erewrite bind_Ok by (apply ingest_run; exact Hinputs).
  cbn [res post emitted app].
  erewrite bind_Ok by reflexivity. cbn [res post emitted app truthy].
  erewrite bind_Ok by reflexivity.
  cbn [res post emitted app modify set_last_cycle_time set_context set_cycle_count
       context running cycle_count last_cycle_time].
  rewrite app_nil_r. reflexivity.
Qed.

End Scheduler.

(** ** Claims about the cycle scheduler *)

Section SchedulerClaims.
Import VaderLoop.

(** C5: when the Observe step ([context.update()]) or the Pace step
    ([_manage_cycle_timing]) of a cycle raises, [run] catches the fault,
    logs it, sets [running] to false, leaves the loop and returns to its
    caller: it does not raise, and it runs no further cycle, however many
    the environment would still have served. *)
Theorem run_stops_on_fatal_fault
  (pre : list cycle_env) (env : cycle_env) (rest : list cycle_env) (st : state) (e : exn) :
  res (run pre st) = Ok Looping ->
  res (ContextManager.update (now_iso env) (context (post (run pre st)))) = Raise e \/
  (res (_execute_cycle env (post (run pre st))) = Ok tt /\
   res (_manage_cycle_timing env (post (_execute_cycle env (post (run pre st))))) = Raise e) ->
  let o := run (pre ++ env :: rest) st in
  res o = Ok Returned /\
  running (post o) = false /\
  cycle_count (post o) = cycle_count (post (run pre st)) + 1 /\
  exists evs,
    emitted o =
      emitted (run pre st) ++ evs ++ [EvLog logger ERROR ("Error in main loop: " +:+ exc_text e)].
Proof.
  intros Hpre Hfault. cbv zeta. rewrite !run_loop in *.
  pose proof (loop_Looping_running _ _ Hpre) as Hrun.
  rewrite (loop_app pre (env :: rest) _ Hpre). out_simpl.
  remember (post (loop pre (set_running true st))) as st1 eqn:Hst1. clear Hst1 Hpre.
  assert (Hbody : res (cycle_and_pace env st1) = Raise e).
  { rewrite cycle_and_pace_unfold. destruct Hfault as [Hobs | [Hcycle Hpace]].
    - rewrite (bind_Raise _ _ _ _ _ _ (execute_cycle_observe_raises env st1 e Hobs)).
      apply res_Out.
    - rewrite (bind_result_Ok _ _ _ _ Hcycle). exact Hpace. }
  destruct (iteration_fault env st1 e Hbody) as [Hres [Hstop [Hcount Hev]]].
  rewrite (loop_cons env rest st1 Hrun), (loop_stopped rest _ Hstop). out_simpl.
  split; [reflexivity |]. split; [exact Hstop |]. split; [exact Hcount |].
  exists (emitted (cycle_and_pace env st1)). rewrite Hev, app_nil_r. reflexivity.
Qed.

Lemma run_stops_on_fatal_fault_witness :
  let o := run ([] ++ quiet_env :: [quiet_env; quiet_env]) (init null_memory_context) in
  res o = Ok Returned /\
  running (post o) = false /\
  cycle_count (post o) = cycle_count (post (run [] (init null_memory_context))) + 1 /\
  exists evs,
    emitted o =
      emitted (run [] (init null_memory_context)) ++ evs ++
      [EvLog logger ERROR
         ("Error in main loop: " +:+
          exc_text (TypeError "object of type 'NoneType' has no len()"))].
Proof.
  apply (run_stops_on_fatal_fault [] quiet_env [quiet_env; quiet_env]
           (init null_memory_context)
           (TypeError "object of type 'NoneType' has no len()")).
  - reflexivity.
  - left. reflexivity.
Defined.

(** The Act step of the scheduler is a stub. [_execute_action] only
    writes a debug log record and leaves every attribute of the scheduler
    as it was, whatever the action, and [_determine_next_action] always
    answers [None], so a cycle never reaches it: there is no dispatch, no
    command result and no error counter. A cycle on a context whose
    short-term memory is a list and whose pending inputs are empty or a
    dictionary raises nothing, counts itself in [cycle_count] and logs only
    its inputs; if then [time.sleep] returns and nobody called [stop()],
    [running] stays as it was and the loop goes on. *)
Theorem act_step_only_logs
  (action : pyval) (env : cycle_env) (st : state) (l : list pyval) (inputs : pyval) :
  ContextManager.short_term_memory (context st) = Some (VList l) ->
  ContextManager.pending_inputs (context st) = Some inputs ->
  truthy inputs = false \/ (exists d, inputs = VDict d) ->
  _execute_action action st =
    Out (Ok tt) st [EvLog logger DEBUG ("Executing action: " +:+ py_str action)] /\
  _determine_next_action st = Out (Ok VNone) st [] /\
  res (_execute_cycle env st) = Ok tt /\
  emitted (_execute_cycle env st) = ingest_log inputs /\
  running (post (_execute_cycle env st)) = running st /\
  cycle_count (post (_execute_cycle env st)) = cycle_count st + 1 /\
  (sleep_result env = Ok tt -> stop_called env = false ->
   res (iteration env st) = Ok tt /\
   running (post (iteration env st)) = running st /\
   cycle_count (post (iteration env st)) = cycle_count st + 1).
Proof.
  intros Hmem Hpending Hinputs.
  pose proof (execute_cycle_run env st l inputs Hmem Hpending Hinputs) as Hcycle.
  split; [reflexivity |]. split; [reflexivity |].
  rewrite Hcycle. out_simpl.
  split; [reflexivity |]. split; [reflexivity |].
  split; [reflexivity |]. split; [reflexivity |].
  intros Hsleep Hstop.
  assert (Hbody : res (cycle_and_pace env st) = Ok tt).
  { rewrite cycle_and_pace_unfold, (bind_Ok _ _ _ _ _ _ Hcycle). out_simpl.
    apply manage_cycle_timing_res, Hsleep. }
  destruct (iteration_clean env st Hbody) as [Hres [Hrun [Hcount _]]].
  rewrite Hrun, Hstop, andb_true_r. auto.
Qed.

Lemma act_step_only_logs_witness :
  res (iteration quiet_env (set_running true (init ContextManager.init))) = Ok tt /\
  running (post (iteration quiet_env (set_running true (init ContextManager.init)))) = true /\
  cycle_count (post (iteration quiet_env (set_running true (init ContextManager.init)))) = 1.
Proof.
  exact (proj2 (proj2 (proj2 (proj2 (proj2 (proj2
    (act_step_only_logs VNone quiet_env (set_running true (init ContextManager.init))
       [] (VList []) eq_refl eq_refl (or_introl eq_refl)))))))
    eq_refl eq_refl).
Defined.





End SchedulerClaims.



(** ** Claims about the skill dispatchers *)

Section SkillClaims.

Lemma eqb_of_neq (a b : string) : a <> b -> String.eqb a b = false.
Proof. intros H. apply String.eqb_neq, H. Qed.

(** [FileManager.execute] runs its [try] only on an allowed operation, and
    only an allowed operation can make the body raise. *)
Lemma FileManager_dispatch_raises_allowed {W} (os : FileManager.os_api W) operation params w e :
  res (FileManager.dispatch os operation params w) = Raise e ->
  existsb (String.eqb operation) FileManager.allowed_operations = true.
Proof.
  unfold FileManager.dispatch, FileManager.allowed_operations. cbn [existsb].
  destruct (String.eqb operation "read"); [reflexivity |].
  destruct (String.eqb operation "write"); [reflexivity |].
  destruct (String.eqb operation "list"); [reflexivity |].
  destruct (String.eqb operation "delete"); [reflexivity |].
  destruct (String.eqb operation "move"); [reflexivity |].
  discriminate.
Qed.

Lemma FileManager_execute_is_Ok {W} (os : FileManager.os_api W) operation params w :
  is_Ok (res (FileManager.execute os operation params w)).
Proof.
  unfold FileManager.execute.
  destruct (negb _).
  - eexists; reflexivity.
  - apply try_except_is_Ok. intros e s'. eexists; reflexivity.
Qed.

Lemma SelfOptimizer_execute_is_Ok operation params s :
  is_Ok (res (SelfOptimizer.execute operation params s)).
Proof.
  unfold SelfOptimizer.execute. apply try_except_is_Ok. intros e s'. eexists; reflexivity.
Qed.

(** C3: a fault raised while [FileManager.execute] or
    [SelfOptimizer.execute] dispatches an operation never reaches the
    caller. Neither method ever raises; when the dispatched handler (or the
    reading of its parameters) raises [e], the caller gets the result
    [{"status": "error", "message": str(e)}], and [FileManager] logs the
    fault. The handlers of [SelfOptimizer] raise internally on every call
    (a missing method), and the caller gets the error result with that
    fault's text. *)
Theorem handler_fault_becomes_error_result
  {W : Type} (os : FileManager.os_api W) (operation : string) (params : pyval)
  (w : W) (s : SelfOptimizer.state) :
  is_Ok (res (FileManager.execute os operation params w)) /\
  (forall e, res (FileManager.dispatch os operation params w) = Raise e ->
     res (FileManager.execute os operation params w) = Ok (error_result (exc_text e)) /\
     emitted (FileManager.execute os operation params w) =
       emitted (FileManager.dispatch os operation params w) ++
       [EvLog FileManager.logger ERROR ("File operation error: " +:+ exc_text e)]) /\
  is_Ok (res (SelfOptimizer.execute operation params s)) /\
  (forall e, res (SelfOptimizer.dispatch operation params s) = Raise e ->
     res (SelfOptimizer.execute operation params s) = Ok (error_result (exc_text e))) /\
  SelfOptimizer.execute "analyze_performance" params s =
    Out (Ok (error_result missing_collector)) s [] /\
  SelfOptimizer.execute "suggest_improvements" params s =
    Out (Ok (error_result missing_collector)) s [] /\
  (forall d, params = VDict d ->
     SelfOptimizer.execute "optimize" params s =
       Out (Ok (error_result missing_collector)) s []).
Proof.
  split; [apply FileManager_execute_is_Ok |]. split.
  { intros e He. unfold FileManager.execute.
    rewrite (FileManager_dispatch_raises_allowed os _ _ _ _ He). cbn [negb].
    rewrite (try_except_Raise _ _ _ _ He). cbn [res emitted].
    split; reflexivity. }
  split; [apply SelfOptimizer_execute_is_Ok |]. split.
  { intros e He. unfold SelfOptimizer.execute.
    rewrite (try_except_Raise _ _ _ _ He). reflexivity. }
  split; [reflexivity |]. split; [reflexivity |].
  intros d ->. unfold SelfOptimizer.execute, SelfOptimizer.dispatch. cbn [String.eqb Ascii.eqb Bool.eqb].
  unfold try_except, bind. cbn [py_get lift_result].
  destruct (assoc_get "target_metric" d); reflexivity.
Qed.

Lemma handler_fault_becomes_error_result_witness :
  res (FileManager.execute failing_os "read" (VDict [("path", VStr "/nope")]) tt) =
    Ok (error_result "[Errno 2] No such file or directory: '/nope'") /\
  res (FileManager.execute failing_os "move" (VDict [("source", VStr "/nope")]) tt) =
    Ok (error_result "'destination'").
Proof.
  split.
  - apply (proj1 (proj2 (handler_fault_becomes_error_result failing_os "read"
                           (VDict [("path", VStr "/nope")]) tt SelfOptimizer.init))
                 (Exn "FileNotFoundError" "[Errno 2] No such file or directory: '/nope'")).
    reflexivity.
  - apply (proj1 (proj2 (handler_fault_becomes_error_result failing_os "move"
                           (VDict [("source", VStr "/nope")]) tt SelfOptimizer.init))
                 (KeyError "destination")).
    reflexivity.
Defined.

Lemma route_request_unknown_returns_None_aux
  {W : Type} (st : ModelRouter.state W) (name : string) (request_data : pyval) :
  ModelRouter.available_models st !! name = None ->
  ModelRouter.route_request name request_data st =
    Out (Ok VNone) st [EvLog ModelRouter.logger ERROR ("Unknown model type: " +:+ name)].
Proof.
  intros H. unfold ModelRouter.route_request.
  erewrite bind_Ok by reflexivity. rewrite H.
  rewrite bool_decide_eq_false_2 by (intros [m Hm]; discriminate).
  reflexivity.
Qed.

(** C4, as stated, fails: on a name that has no registered handler
    [route_request] returns [None], not an error result. *)
Lemma route_request_unknown_is_not_error :
  ~ exists v,
      res (ModelRouter.route_request "unknown_cmd" (VDict []) (ModelRouter.init tt)) = Ok v /\
      ModelRouter.unknown_command_error "unknown_cmd" v.
Proof.
  intros [v [Hres (d & pre & mid & suf & Hv & _)]].
  vm_compute in Hres. congruence.
Qed.

(** C4, amended: for every name that is not a key of [available_models],
    [route_request(name, request_data)] does not raise and changes nothing;
    it logs ["Unknown model type: <name>"] as an error and returns [None]. *)
Theorem route_request_unknown_returns_None
  {W : Type} (st : ModelRouter.state W) (name : string) (request_data : pyval) :
  ModelRouter.available_models st !! name = None ->
  ModelRouter.route_request name request_data st =
    Out (Ok VNone) st [EvLog ModelRouter.logger ERROR ("Unknown model type: " +:+ name)].
Proof.
  intros H. unfold ModelRouter.route_request.
  erewrite bind_Ok by reflexivity. rewrite H.
  rewrite bool_decide_eq_false_2 by (intros [m Hm]; discriminate).
  reflexivity.
Qed.

Lemma route_request_unknown_returns_None_witness :
  ModelRouter.route_request "unknown_cmd" (VDict []) (ModelRouter.init tt) =
    Out (Ok VNone) (ModelRouter.init tt)
        [EvLog ModelRouter.logger ERROR ("Unknown model type: " +:+ "unknown_cmd")].
Proof.
  apply (route_request_unknown_returns_None (ModelRouter.init tt) "unknown_cmd" (VDict [])).
  reflexivity.
Defined.

(** C9: in [WebScraper], [ConfigLoader] and [SelfOptimizer], [execute] on
    an operation that is none of the names it tests returns [None]: no
    error result, no fault, no log record, no change of state. *)
Theorem unmatched_operation_returns_None
  {W1 W2 : Type} (web : WebScraper.web_api W1) (cfg : ConfigLoader.handlers W2)
  (operation : string) (params : pyval) (w1 : W1) (w2 : W2) (s : SelfOptimizer.state) :
  (operation <> "fetch_page" -> operation <> "extract_text" ->
   operation <> "extract_links" ->
   WebScraper.execute web operation params w1 = Out (Ok VNone) w1 []) /\
  (operation <> "load" -> operation <> "save" -> operation <> "list" ->
   operation <> "validate" ->
   ConfigLoader.execute cfg operation params w2 = Out (Ok VNone) w2 []) /\
  (operation <> "optimize" -> operation <> "analyze_performance" ->
   operation <> "suggest_improvements" ->
   SelfOptimizer.execute operation params s = Out (Ok VNone) s []).
Proof.
  repeat split.
  - intros H1 H2 H3. unfold WebScraper.execute, WebScraper.dispatch.
    rewrite !eqb_of_neq by assumption. reflexivity.
  - intros H1 H2 H3 H4. unfold ConfigLoader.execute, ConfigLoader.dispatch.
    rewrite !eqb_of_neq by assumption. reflexivity.
  - intros H1 H2 H3. unfold SelfOptimizer.execute, SelfOptimizer.dispatch.
    rewrite !eqb_of_neq by assumption. reflexivity.
Qed.

Lemma unmatched_operation_returns_None_witness :
  WebScraper.execute quiet_web "scrape" (VDict []) tt = Out (Ok VNone) tt [] /\
  ConfigLoader.execute quiet_config "scrape" (VDict []) tt = Out (Ok VNone) tt [] /\
  SelfOptimizer.execute "scrape" (VDict []) SelfOptimizer.init =
    Out (Ok VNone) SelfOptimizer.init [].
Proof.
  pose proof (unmatched_operation_returns_None quiet_web quiet_config "scrape" (VDict [])
                tt tt SelfOptimizer.init) as [Hweb [Hcfg Hopt]].
  split; [| split].
  - apply Hweb; discriminate.
  - apply Hcfg; discriminate.
  - apply Hopt; discriminate.
Defined.

End SkillClaims.

(** * Further properties of the sources *)

(** ** context_manager.py *)

Section ContextExtras.
Import ContextManager.





(** In every state a context can reach, the six keys of [__init__] are
    still present: no method removes a key, and no blob that
    [load_initial_state] merges can. *)
Theorem reachable_has_default_keys (c : state) (name : string) :
  reachable c ->
  name ∈ default_keys ->
  is_Some (current_context c !! KStr name).
Proof.
  intros Hreach Hin. apply (reachable_keeps_init_keys c Hreach).
  unfold default_keys in Hin.
  repeat (apply elem_of_cons in Hin as [-> | Hin]; [eexists; reflexivity |]).
  inversion Hin.
Qed.

Lemma reachable_has_default_keys_witness :
  is_Some (current_context (post (update "t" (post (add_to_memory VNone "t" init)))) !!
             KStr "environment_data").
Proof.
  apply reachable_has_default_keys.
  - apply reach_update, reach_add_to_memory, reach_init.
  - unfold default_keys. set_solver.
Defined.

(** *** [update] on a context whose memory is not a list *)

Lemma prune_cases c v :
  short_term_memory c = Some v ->
  (res (_prune_short_term_memory c) = Ok tt <-> prunable v = true) /\
  last_update (post (_prune_short_term_memory c)) = last_update c /\
  (prunable v = false -> post (_prune_short_term_memory c) = c).
Proof.
  intros H. unfold _prune_short_term_memory.
  rewrite (bind_Ok _ _ _ _ _ _ (getitem_Some _ _ _ H)). out_simpl.
  destruct v as [| b | z | s | l | d]; cbn [py_len prunable].
  1-3: (erewrite bind_Raise by reflexivity; out_simpl;
        split; [split; discriminate |]; split; [reflexivity | reflexivity]).
  - erewrite bind_Ok by reflexivity. out_simpl.
    destruct (100 <? String.length s)%nat.
    + rewrite (bind_Ok _ _ _ _ _ _ (getitem_Some _ _ _ H)). out_simpl.
      erewrite bind_Ok by reflexivity. out_simpl.
      split; [split; reflexivity |]. split; [| discriminate].
      unfold last_update. cbn [setitem modify post current_context].
      apply lookup_insert_ne. discriminate.
    + unfold ret. out_simpl. split; [split; reflexivity |]. split; [reflexivity | discriminate].
  - erewrite bind_Ok by reflexivity. out_simpl.
    destruct (100 <? length l)%nat.
    + rewrite (bind_Ok _ _ _ _ _ _ (getitem_Some _ _ _ H)). out_simpl.
      erewrite bind_Ok by reflexivity. out_simpl.
      split; [split; reflexivity |]. split; [| discriminate].
      unfold last_update. cbn [setitem modify post current_context].
      apply lookup_insert_ne. discriminate.
    + unfold ret. out_simpl. split; [split; reflexivity |]. split; [reflexivity | discriminate].
  - erewrite bind_Ok by reflexivity. out_simpl.
    destruct (Nat.ltb_spec 100 (length d)) as [Hlt | Hle].
    + rewrite (bind_Ok _ _ _ _ _ _ (getitem_Some _ _ _ H)). out_simpl.
      erewrite bind_Raise by reflexivity. out_simpl.
      replace (length d <=? 100)%nat with false by (symmetry; apply Nat.leb_gt; lia).
      split; [split; discriminate |]. split; reflexivity.
    + unfold ret. out_simpl.
      replace (length d <=? 100)%nat with true by (symmetry; apply Nat.leb_le; lia).
      split; [split; reflexivity |]. split; [reflexivity | discriminate].
Qed.

(** [update()] returns exactly when the short-term memory is a list, a
    string, or a dictionary of at most 100 items; on [None], a number, a
    boolean or a larger dictionary (as a loaded blob may have put there) it
    raises, leaving the memory as it was. In both cases [last_update] has
    been set to the new timestamp. *)
Theorem update_returns_iff_prunable (now : string) (c : state) (v : pyval) :
  short_term_memory c = Some v ->
  (res (update now c) = Ok tt <-> prunable v = true) /\
  last_update (post (update now c)) = Some (VStr now) /\
  (prunable v = false -> short_term_memory (post (update now c)) = Some v).
Proof.
  intros H. unfold update.
  erewrite bind_Ok by reflexivity. out_simpl.
  erewrite bind_Ok by reflexivity. out_simpl.
  cbn [app].
  assert (H1 : short_term_memory
                 (Build (<[KStr "last_update" := VStr now]> (current_context c))) = Some v).
  { unfold short_term_memory. cbn [current_context].
    rewrite lookup_insert_ne by discriminate. exact H. }
  destruct (prune_cases _ v H1) as (Hres & Hlast & Hsame).
  split; [exact Hres |]. split.
  - rewrite Hlast. unfold last_update. cbn [current_context]. apply lookup_insert_eq.
  - intros Hp. rewrite (Hsame Hp). exact H1.
Qed.

Lemma update_returns_iff_prunable_witness :
  res (update "2024-01-01T00:00:00" null_memory_context) <> Ok tt /\
  last_update (post (update "2024-01-01T00:00:00" null_memory_context)) =
    Some (VStr "2024-01-01T00:00:00").
Proof.
  pose proof (update_returns_iff_prunable "2024-01-01T00:00:00" null_memory_context VNone
                eq_refl) as (Hres & Hlast & _).
  split; [| exact Hlast].
  intros Hok. apply Hres in Hok. discriminate Hok.
Defined.

(** *** [load_initial_state] when there is nothing to load, or not all of it *)

(** When the context file does not exist, or [exists()], [open] or
    [json.load] raises, [load_initial_state] leaves the context exactly as
    it was; a missing file is no error and logs nothing, a fault is logged
    once. *)
Theorem load_without_blob_keeps_context (c : state) (fs : load_env) :
  (exists_result fs = Ok false -> load_initial_state fs c = Out (Ok tt) c []) /\
  (forall e, exists_result fs = Raise e ->
     load_initial_state fs c = Out (Ok tt) c [load_error e]) /\
  (forall e, exists_result fs = Ok true -> json_load_result fs = Raise e ->
     load_initial_state fs c = Out (Ok tt) c [load_error e]).
Proof.
  unfold load_initial_state. repeat split.
  - intros H. rewrite H. reflexivity.
  - intros e H. rewrite H. reflexivity.
  - intros e H1 H2. rewrite H1, H2. reflexivity.
Qed.

Lemma merge_seq2_pairs pairs : forall i rest c,
  merge_seq2 i (map pair_item pairs ++ rest) c =
    merge_seq2 (i + length pairs) rest (Build (dict_of_items pairs ∪ current_context c)).
Proof.
  induction pairs as [| [k v] pairs IH]; intros i rest c.
  - cbn [map app length]. rewrite Nat.add_0_r.
    unfold dict_of_items; cbn [map]. rewrite reverse_nil. cbn [list_to_map foldr].
    rewrite (left_id_L ∅ (∪)), state_eta. reflexivity.
  - cbn [map app length merge_seq2 pair_item fst snd seq2_item].
    erewrite bind_Ok by reflexivity. out_simpl.
    erewrite bind_Ok by reflexivity. out_simpl.
    erewrite bind_Ok by reflexivity. out_simpl. cbn [app].
    rewrite out_eta, IH. cbn [current_context].
    replace (S i + length pairs)%nat with (i + S (length pairs))%nat by lia.
    do 2 f_equal. unfold dict_of_items. cbn [map fst snd].
    rewrite reverse_cons, list_to_map_app. cbn [list_to_map foldr].
    rewrite <- (assoc_L (∪)). f_equal.
    rewrite <- insert_union_l, (left_id_L ∅ (∪)). reflexivity.
Qed.

(** A blob that is a JSON array is taken as an iterable of pairs: the
    pairs before the first element that is none are merged into the
    context, then the fault of that element is logged and the rest of the
    array is ignored. *)
Theorem load_array_merges_leading_pairs
  (pairs : list (string * pyval)) (bad : pyval) (rest : list pyval) (e : exn) (c : state) :
  item_fault (length pairs) bad = Some e ->
  load_initial_state
    (Build_load_env (Ok true) (Ok (VList (map pair_item pairs ++ bad :: rest)))) c =
    Out (Ok tt) (Build (dict_of_items pairs ∪ current_context c)) [load_error e].
Proof.
  intros Hbad. unfold load_initial_state.
  assert (Hbody :
    merge_seq2 0 (map pair_item pairs ++ bad :: rest) c =
      Out (Raise e) (Build (dict_of_items pairs ∪ current_context c)) []).
  { rewrite merge_seq2_pairs. cbn [Nat.add merge_seq2].
    unfold item_fault in Hbad.
    destruct (seq2_item (length pairs) bad) as [kv | ex] eqn:Hitem.
    - erewrite bind_Ok by reflexivity. out_simpl.
      destruct (key_of (fst kv)) as [k | ex] eqn:Hkey; [discriminate |].
      injection Hbad as ->.
      erewrite bind_Raise by reflexivity. reflexivity.
    - injection Hbad as ->. erewrite bind_Raise by reflexivity. reflexivity. }
  cbn [exists_result json_load_result lift_result].
  rewrite try_except_Raise with (e := e).
  - erewrite bind_Ok by reflexivity. out_simpl.
    erewrite bind_Ok by reflexivity. out_simpl.
    cbn [dict_update]. rewrite (bind_Raise _ _ _ _ _ _ Hbody). out_simpl. reflexivity.
  - erewrite bind_Ok by reflexivity. out_simpl.
    erewrite bind_Ok by reflexivity. out_simpl.
    cbn [dict_update]. rewrite (bind_Raise _ _ _ _ _ _ Hbody). reflexivity.
Qed.

Lemma load_array_merges_leading_pairs_witness :
  load_initial_state
    (Build_load_env (Ok true)
       (Ok (VList (map pair_item [("system_state", VStr "ready")] ++ VInt 5 :: [VNone])))) init =
    Out (Ok tt)
        (Build (dict_of_items [("system_state", VStr "ready")] ∪ current_context init))
        [load_error
           (TypeError "cannot convert dictionary update sequence element #1 to a sequence")].
Proof.
  apply (load_array_merges_leading_pairs [("system_state", VStr "ready")] (VInt 5) [VNone]).
  reflexivity.
Defined.

(** Loading the same JSON object a second time changes nothing more. *)
Theorem load_object_is_idempotent (d : list (string * pyval)) (c : state) :
  let fs := Build_load_env (Ok true) (Ok (VDict d)) in
  load_initial_state fs (post (load_initial_state fs c)) =
    Out (Ok tt) (post (load_initial_state fs c)) [EvLog logger INFO "Context loaded from file"].
Proof.
  cbv zeta.
  assert (Hload : forall c', load_initial_state (Build_load_env (Ok true) (Ok (VDict d))) c' =
            Out (Ok tt) (Build (dict_of_items d ∪ current_context c'))
                [EvLog logger INFO "Context loaded from file"]).
  { intros c'. unfold load_initial_state, try_except, bind.
    cbn [exists_result json_load_result lift_result ret res post dict_update].
    rewrite merge_items_run. reflexivity. }
  rewrite !Hload. out_simpl. cbn [current_context].
  rewrite (assoc_L (∪)), (idemp_L (∪)). reflexivity.
Qed.

End ContextExtras.

(** ** agent_loop.py *)

Section SchedulerExtras.
Import VaderLoop.

Implicit Types (st : state) (env : cycle_env).

(** The context a cycle leaves when its Observe and drain steps succeed. *)
Lemma cycle_context_idle (ctx : gmap pykey pyval) now l :
  idle (ContextManager.Build
          (<[KStr "pending_inputs" := VList []]>
             (<[KStr "short_term_memory" := VList l]>
                (<[KStr "last_update" := VStr now]> ctx)))).
Proof.
  split.
  - exists l. unfold ContextManager.short_term_memory. cbn [ContextManager.current_context].
    rewrite lookup_insert_ne by discriminate. apply lookup_insert_eq.
  - exists (VList []). split; [| reflexivity].
    unfold ContextManager.pending_inputs. cbn [ContextManager.current_context].
    apply lookup_insert_eq.
Qed.

Lemma execute_cycle_ingest_raises env st l inputs :
  ContextManager.short_term_memory (context st) = Some (VList l) ->
  ContextManager.pending_inputs (context st) = Some inputs ->
  truthy inputs = true ->
  (forall d, inputs <> VDict d) ->
  _execute_cycle env st =
    Out (Raise (no_items inputs))
        (Build
           (ContextManager.Build
              (<[KStr "pending_inputs" := VList []]>
                 (<[KStr "short_term_memory" := VList (drop (length l - 100) l)]>
                    (<[KStr "last_update" := VStr (now_iso env)]>
                       (ContextManager.current_context (context st))))))
           (running st) (cycle_count st + 1) (last_cycle_time st))
        [].
Proof.
  intros Hmem Hpending Htruthy Hnodict. unfold _execute_cycle.
  erewrite bind_Ok by reflexivity. out_simpl.
  erewrite bind_Ok
    by (rewrite on_context_run; cbn [context set_cycle_count];
        rewrite (update_list _ _ _ Hmem); reflexivity).
  out_simpl.
  erewrite bind_Ok
    by (rewrite on_context_run; cbn [context set_context set_cycle_count];
        rewrite (get_pending_inputs_run _ inputs)
          by (unfold ContextManager.pending_inputs; cbn [ContextManager.current_context];
              rewrite !lookup_insert_ne by discriminate; exact Hpending);
        reflexivity).
  out_simpl. rewrite Htruthy.
  erewrite bind_Raise; [reflexivity |].
  unfold _process_inputs.
  erewrite bind_Raise; [reflexivity |].
  destruct inputs as [| b | z | s | l' | d]; try reflexivity.
  exfalso. exact (Hnodict d eq_refl).
Qed.

(** Pending inputs that are a non-empty list (or any other true value that
    is no dictionary) stop the scheduler: the Ingest step calls
    [inputs.items()], the fault ends the cycle, [run] logs it and returns
    with [running] false after that one cycle, and the inputs, already
    drained from the context, are lost. *)
Theorem undictionary_inputs_stop_the_loop
  (env : cycle_env) (envs : list cycle_env) (st : state) (l : list pyval) (inputs : pyval) :
  ContextManager.short_term_memory (context st) = Some (VList l) ->
  ContextManager.pending_inputs (context st) = Some inputs ->
  truthy inputs = true ->
  (forall d, inputs <> VDict d) ->
  let o := run (env :: envs) st in
  res o = Ok Returned /\
  running (post o) = false /\
  cycle_count (post o) = cycle_count st + 1 /\
  ContextManager.pending_inputs (context (post o)) = Some (VList []) /\
  emitted o = [EvLog logger ERROR ("Error in main loop: " +:+ exc_text (no_items inputs))].
Proof.
  intros Hmem Hpending Htruthy Hnodict. cbv zeta.
  pose proof (execute_cycle_ingest_raises env (set_running true st) l inputs
                Hmem Hpending Htruthy Hnodict) as Hcycle.
  assert (Hbody : cycle_and_pace env (set_running true st) =
                  Out (Raise (no_items inputs))
                      (post (_execute_cycle env (set_running true st))) []).
  { rewrite cycle_and_pace_unfold, (bind_Raise _ _ _ _ _ _ Hcycle), Hcycle.
    out_simpl. reflexivity. }
  assert (Hraise : res (cycle_and_pace env (set_running true st)) = Raise (no_items inputs)).
  { rewrite Hbody. reflexivity. }
  rewrite run_loop, (loop_cons env envs _ (running_set_running true st)).
  rewrite iteration_unfold, (guarded_fault _ _ _ _ Hraise). out_simpl.
  rewrite (loop_stopped envs _ (running_set_running false _)). out_simpl.
  rewrite Hbody. out_simpl. rewrite Hcycle. out_simpl.
  rewrite running_set_running, cycle_count_set_running.
  repeat split.
  unfold ContextManager.pending_inputs. cbn [set_running context ContextManager.current_context].
  apply lookup_insert_eq.
Qed.

Lemma undictionary_inputs_stop_the_loop_witness :
  let st :=
    init (ContextManager.Build
            (<[KStr "pending_inputs" := VList [VDict [("type", VStr "ping")]]]>
               (ContextManager.current_context ContextManager.init))) in
  let o := run (quiet_env :: [quiet_env]) st in
  res o = Ok Returned /\
  running (post o) = false /\
  cycle_count (post o) = cycle_count st + 1 /\
  ContextManager.pending_inputs (context (post o)) = Some (VList []) /\
  emitted o =
    [EvLog logger ERROR
       ("Error in main loop: " +:+ exc_text (no_items (VList [VDict [("type", VStr "ping")]])))].
Proof.
  cbv zeta.
  apply (undictionary_inputs_stop_the_loop quiet_env [quiet_env] _ []
           (VList [VDict [("type", VStr "ping")]])).
  - reflexivity.
  - reflexivity.
  - reflexivity.
  - discriminate.
Defined.

(** *** Cycles with nothing to do *)

Lemma context_set_running b st : context (set_running b st) = context st.
Proof. reflexivity. Qed.

Lemma iteration_idle env st :
  idle (context st) ->
  sleep_result env = Ok tt ->
  res (iteration env st) = Ok tt /\
  running (post (iteration env st)) = running st && negb (stop_called env) /\
  cycle_count (post (iteration env st)) = cycle_count st + 1 /\
  idle (context (post (iteration env st))).
Proof.
  intros [[l Hmem] [v [Hpending Hfalse]]] Hsleep.
  pose proof (execute_cycle_run env st l v Hmem Hpending (or_introl Hfalse)) as Hcycle.
  assert (Hbody : res (cycle_and_pace env st) = Ok tt).
  { rewrite cycle_and_pace_unfold, (bind_Ok _ _ _ _ _ _ Hcycle). out_simpl.
    apply manage_cycle_timing_res, Hsleep. }
  destruct (iteration_clean env st Hbody) as (Hres & Hrun & Hcount & _).
  split; [exact Hres |]. split; [exact Hrun |]. split; [exact Hcount |].
  rewrite iteration_unfold, (guarded_clean _ _ _ Hbody). out_simpl.
  assert (Hpost : context (post (cycle_and_pace env st)) =
                  context (post (_execute_cycle env st))).
  { rewrite cycle_and_pace_unfold, (bind_Ok _ _ _ _ _ _ Hcycle). out_simpl.
    rewrite manage_cycle_timing_post, Hcycle. out_simpl. reflexivity. }
  assert (Hctx : idle (context (post (cycle_and_pace env st)))).
  { rewrite Hpost, Hcycle. out_simpl. cbn [context]. apply cycle_context_idle. }
  destruct (stop_called env); [rewrite context_set_running |]; exact Hctx.
Qed.

Lemma loop_clean envs : forall st,
  running st = true ->
  idle (context st) ->
  Forall clean envs ->
  res (loop envs st) = Ok Looping /\
  running (post (loop envs st)) = true /\
  cycle_count (post (loop envs st)) = cycle_count st + Z.of_nat (length envs) /\
  idle (context (post (loop envs st))).
Proof.
  induction envs as [| env envs IH]; intros st Hrun Hidle Hclean.
  - rewrite (loop_nil st Hrun). out_simpl. cbn [length Z.of_nat].
    rewrite Z.add_0_r. auto.
  - apply Forall_cons in Hclean as [[Hsleep Hstop] Hclean].
    destruct (iteration_idle env st Hidle Hsleep) as (Hres & Hrun' & Hcount & Hidle').
    rewrite Hstop, Hrun in Hrun'. cbn [negb andb] in Hrun'.
    rewrite (loop_cons env envs st Hrun). out_simpl.
    destruct (IH _ Hrun' Hidle' Hclean) as (Hres2 & Hrun2 & Hcount2 & Hidle2).
    rewrite Hcount in Hcount2.
    split; [exact Hres2 |]. split; [exact Hrun2 |]. split; [| exact Hidle2].
    rewrite Hcount2. cbn [length]. lia.
Qed.

(** With nothing pending, [run] goes through one cycle per iteration for
    as long as [time.sleep] returns and nobody calls [stop()]. A call of
    [stop()] during an iteration lets that cycle finish and counts it;
    [run] then returns and runs no further cycle. A [stop()] before [run]
    is forgotten, because [run] sets [running] itself. *)
Theorem stop_ends_run_after_the_cycle
  (envs : list cycle_env) (env : cycle_env) (rest : list cycle_env) (st : state) :
  idle (context st) ->
  Forall clean envs ->
  sleep_result env = Ok tt ->
  stop_called env = true ->
  (res (run envs st) = Ok Looping /\
   cycle_count (post (run envs st)) = cycle_count st + Z.of_nat (length envs)) /\
  (res (run (envs ++ env :: rest) st) = Ok Returned /\
   running (post (run (envs ++ env :: rest) st)) = false /\
   cycle_count (post (run (envs ++ env :: rest) st)) =
     cycle_count st + Z.of_nat (length envs) + 1) /\
  run envs (post (stop st)) = run envs st.
Proof.
  intros Hidle Hclean Hsleep Hstop.
  destruct (loop_clean envs (set_running true st) (running_set_running true st) Hidle Hclean)
    as (Hres & Hrun & Hcount & Hidle').
  rewrite cycle_count_set_running in Hcount.
  rewrite !run_loop. split; [split; [exact Hres | exact Hcount] |]. split.
  - rewrite (loop_app envs (env :: rest) _ Hres). out_simpl.
    rewrite (loop_cons env rest _ Hrun). out_simpl.
    destruct (iteration_idle env _ Hidle' Hsleep) as (Hres1 & Hrun1 & Hcount1 & _).
    rewrite Hstop, andb_false_r in Hrun1.
    rewrite (loop_stopped rest _ Hrun1). out_simpl.
    split; [reflexivity |]. split; [exact Hrun1 |]. rewrite Hcount1, Hcount. reflexivity.
  - reflexivity.
Qed.

Lemma stop_ends_run_after_the_cycle_witness :
  res (run ([quiet_env; quiet_env] ++
            Build_cycle_env 0%float "t" 0%float (Ok tt) true :: [quiet_env])
           (init ContextManager.init)) = Ok Returned /\
  cycle_count (post (run ([quiet_env; quiet_env] ++
                          Build_cycle_env 0%float "t" 0%float (Ok tt) true :: [quiet_env])
                         (init ContextManager.init))) = 3.
Proof.
  pose proof (stop_ends_run_after_the_cycle [quiet_env; quiet_env]
                (Build_cycle_env 0%float "t" 0%float (Ok tt) true) [quiet_env]
                (init ContextManager.init)) as H.
  destruct H as (_ & (Hres & _ & Hcount) & _).
  - split; [exists []; reflexivity | exists (VList []); split; reflexivity].
  - repeat constructor.
  - reflexivity.
  - reflexivity.
  - split; [exact Hres | exact Hcount].
Defined.

End SchedulerExtras.

(** ** file_manager.py *)

Section FileManagerExtras.
Import FileManager.
Context {W : Type} (os : os_api W).

(** An operation outside [allowed_operations] is refused before anything
    is tried: the caller gets the error result naming it, no operating
    system call is made, nothing is logged. *)
Theorem disallowed_operation_is_refused (operation : string) (params : pyval) (w : W) :
  operation ∉ allowed_operations ->
  execute os operation params w =
    Out (Ok (error_result ("Operation " +:+ operation +:+ " not allowed"))) w [].
Proof.
  intros Hnot. unfold execute.
  replace (existsb (String.eqb operation) allowed_operations) with false; [reflexivity |].
  symmetry. apply not_true_is_false. intros Hex.
  apply existsb_exists in Hex as [x [Hin Heq]].
  apply String.eqb_eq in Heq. subst x. apply Hnot. apply list_elem_of_In, Hin.
Qed.

Lemma param_missing (d : list (string * pyval)) (k : string) (w : W) :
  assoc_get k d = None ->
  param (S := W) (VDict d) k w = Out (Raise (KeyError k)) w [].
Proof. intros H. unfold param. cbn [py_getitem]. rewrite H. reflexivity. Qed.

Lemma param_present (d : list (string * pyval)) (k : string) (v : pyval) (w : W) :
  assoc_get k d = Some v ->
  param (S := W) (VDict d) k w = Out (Ok v) w [].
Proof. intros H. unfold param. cbn [py_getitem]. rewrite H. reflexivity. Qed.

Lemma dispatch_missing_param operation d k w :
  first_missing d (required_params operation) = Some k ->
  dispatch os operation (VDict d) w = Out (Raise (KeyError k)) w [].
Proof.
  unfold required_params, dispatch.
  destruct (String.eqb operation "read"); [| destruct (String.eqb operation "write");
    [| destruct (String.eqb operation "list"); [| destruct (String.eqb operation "delete");
      [| destruct (String.eqb operation "move"); [| discriminate]]]]];
    cbn [first_missing]; intros H;
    repeat match type of H with
      | context [assoc_get ?key d] =>
          let E := fresh "E" in
          destruct (assoc_get key d) eqn:E;
          [ rewrite (bind_Ok _ _ _ _ _ _ (param_present d key _ w E)); out_simpl
          | injection H as <-;
            rewrite (bind_Raise _ _ _ _ _ _ (param_missing d key w E)); reflexivity ]
      end;
    discriminate.
Qed.

Lemma required_param_repr operation d k :
  first_missing d (required_params operation) = Some k -> str_repr k = quoted k.
Proof.
  unfold required_params.
  destruct (String.eqb operation "read"); [| destruct (String.eqb operation "write");
    [| destruct (String.eqb operation "list"); [| destruct (String.eqb operation "delete");
      [| destruct (String.eqb operation "move"); [| discriminate]]]]];
    cbn [first_missing]; intros H;
    repeat match type of H with
      | context [assoc_get ?key d] =>
          destruct (assoc_get key d); [| injection H as <-; reflexivity]
      end;
    discriminate.
Qed.

(** A parameter dictionary that lacks a key the operation reads is
    reported as an error result carrying the [KeyError] text (the quoted
    name of the first missing key) and logged; the operating system is not
    called, even when earlier parameters were present. *)
Theorem missing_parameter_is_an_error_result
  (operation : string) (d : list (string * pyval)) (k : string) (w : W) :
  first_missing d (required_params operation) = Some k ->
  execute os operation (VDict d) w =
    Out (Ok (error_result (quoted k))) w [error_log (KeyError k)].
Proof.
  intros H. pose proof (dispatch_missing_param operation d k w H) as Hd.
  assert (Hres : res (dispatch os operation (VDict d) w) = Raise (KeyError k)).
  { rewrite Hd. reflexivity. }
  rewrite <- (required_param_repr operation d k H). unfold execute.
  rewrite (FileManager_dispatch_raises_allowed os _ _ _ _ Hres). cbn [negb].
  rewrite (try_except_Raise _ _ _ _ Hres), Hd. out_simpl. reflexivity.
Qed.

End FileManagerExtras.

Lemma disallowed_operation_is_refused_witness :
  FileManager.execute failing_os "chmod" (VDict []) tt =
    Out (Ok (error_result ("Operation " +:+ "chmod" +:+ " not allowed"))) tt [].
Proof.
  apply (disallowed_operation_is_refused failing_os "chmod" (VDict []) tt).
  unfold FileManager.allowed_operations. intros Hin.
  repeat (apply elem_of_cons in Hin as [Heq | Hin]; [discriminate Heq |]).
  inversion Hin.
Defined.

Lemma missing_parameter_is_an_error_result_witness :
  FileManager.execute failing_os "write" (VDict [("path", VStr "notes.txt")]) tt =
    Out (Ok (error_result (quoted "content"))) tt
        [FileManager.error_log (KeyError "content")].
Proof.
  apply (missing_parameter_is_an_error_result failing_os "write"
           [("path", VStr "notes.txt")] "content" tt).
  reflexivity.
Defined.

(** ** self_optimizer.py *)

Section SelfOptimizerExtras.
Import SelfOptimizer.

(** [_apply_optimizations] never raises: each optimization of the plan
    fails in [_apply_single_optimization], which the class does not define,
    and the failure is logged and recorded, so the history grows by one
    [failed] entry per optimization, in plan order. *)
Theorem apply_optimizations_records_each_failure (optimization_plan : list pyval) (s : state) :
  _apply_optimizations optimization_plan s =
    Out (Ok tt)
        (Build (optimization_history s ++ map failed_entry optimization_plan))
        (map failed_log optimization_plan).
Proof.
  revert s. induction optimization_plan as [| optimization rest IH]; intros s.
  - cbn [_apply_optimizations map]. rewrite app_nil_r. destruct s; reflexivity.
  - cbn [_apply_optimizations map].
    erewrite bind_Ok with (s' := Build (optimization_history s ++ [failed_entry optimization]))
                          (ev := [failed_log optimization]) by reflexivity.
    rewrite IH. out_simpl.
    cbn [optimization_history app]. rewrite <- app_assoc. reflexivity.
Qed.

End SelfOptimizerExtras.

(** ** mobile/model_router.py *)

Section ModelRouterExtras.
Import ModelRouter.
Context {W : Type}.

Implicit Types (st : state W) (m : model W).

Lemma route_request_known st model_type request_data m :
  available_models st !! model_type = Some m ->
  route_request model_type request_data st =
    match m with
    | NoModel =>
        Out (Ok VNone) st [EvLog logger ERROR ("Model " +:+ model_type +:+ " not initialized")]
    | Handler process =>
        let o := process request_data (world st) in
        match res o with
        | Ok v => Out (Ok v) (set_world (post o) st) (emitted o)
        | Raise e =>
            Out (Ok VNone) (set_world (post o) st)
                (emitted o ++ [EvLog logger ERROR ("Model processing error: " +:+ exc_text e)])
        end
    end.
Proof.
  intros H. unfold route_request.
  erewrite bind_Ok by reflexivity. out_simpl. rewrite H.
  rewrite bool_decide_eq_true_2 by eauto. cbn [negb app].
  assert (Hget : getitem model_type st = Out (Ok m) st []).
  { unfold getitem. erewrite bind_Ok by reflexivity. out_simpl. rewrite H. reflexivity. }
  destruct m as [| process].
  - rewrite try_except_Ok with (a := VNone).
    + rewrite (bind_Ok _ _ _ _ _ _ Hget). out_simpl.
      erewrite bind_Ok by reflexivity. reflexivity.
    + rewrite (bind_Ok _ _ _ _ _ _ Hget). out_simpl.
      erewrite bind_Ok by reflexivity. reflexivity.
  - cbv zeta. destruct (res (process request_data (world st))) as [v | e] eqn:Hp.
    + rewrite try_except_Ok with (a := v).
      * rewrite (bind_Ok _ _ _ _ _ _ Hget). out_simpl. unfold zoom. rewrite Hp. reflexivity.
      * rewrite (bind_Ok _ _ _ _ _ _ Hget). out_simpl. unfold zoom. out_simpl. exact Hp.
    + rewrite try_except_Raise with (e := e).
      * rewrite (bind_Ok _ _ _ _ _ _ Hget). out_simpl. unfold zoom. out_simpl.
        erewrite bind_Ok by reflexivity. reflexivity.
      * rewrite (bind_Ok _ _ _ _ _ _ Hget). out_simpl. unfold zoom. out_simpl. exact Hp.
Qed.

(** Called with a model type that is a string, as its annotation says,
    [route_request] never raises, whatever the request and whatever the
    registered handlers do; and it answers something other than [None]
    only when a handler is registered under that type and its [process]
    returned that answer on the request. *)
Theorem route_request_is_contained st (model_type : string) (request_data : pyval) :
  is_Ok (res (route_request model_type request_data st)) /\
  forall v,
    res (route_request model_type request_data st) = Ok v -> v <> VNone ->
    exists process,
      available_models st !! model_type = Some (Handler process) /\
      res (process request_data (world st)) = Ok v.
Proof.
  destruct (available_models st !! model_type) as [m |] eqn:H.
  - rewrite (route_request_known st model_type request_data m H).
    destruct m as [| process].
    + out_simpl. split; [eexists; reflexivity |].
      intros v Hv Hne. injection Hv as <-. destruct (Hne eq_refl).
    + cbv zeta. destruct (res (process request_data (world st))) as [v0 | e] eqn:Hp;
        out_simpl; (split; [eexists; reflexivity |]); intros v Hv Hne.
      * exists process. split; [reflexivity |]. rewrite Hp. exact Hv.
      * injection Hv as <-. destruct (Hne eq_refl).
  - rewrite (route_request_unknown_returns_None_aux st model_type request_data H).
    out_simpl. split; [eexists; reflexivity |].
    intros v Hv Hne. injection Hv as <-. destruct (Hne eq_refl).
Qed.

(** After [register_model(t, handler)], whatever was registered under [t]
    before, a request for [t] is answered by [handler.process]: its result
    if it returns, [None] and an error log record if it raises. *)
Theorem registered_handler_is_routed
  st (model_type : string) (process : pyval -> M W pyval) (request_data : pyval) :
  let st' := post (register_model model_type (Handler process) st) in
  let o := process request_data (world st) in
  route_request model_type request_data st' =
    match res o with
    | Ok v => Out (Ok v) (set_world (post o) st') (emitted o)
    | Raise e =>
        Out (Ok VNone) (set_world (post o) st')
            (emitted o ++ [EvLog logger ERROR ("Model processing error: " +:+ exc_text e)])
    end.
Proof.
  cbv zeta.
  assert (Hst' : post (register_model model_type (Handler process) st) =
                 Build (<[model_type := Handler process]> (available_models st)) (world st)).
  { unfold register_model. erewrite bind_Ok by reflexivity. reflexivity. }
  rewrite Hst'.
  rewrite (route_request_known _ model_type request_data (Handler process))
    by (cbn [available_models]; apply lookup_insert_eq).
  reflexivity.
Qed.

(** A model type that is a key of [available_models] but holds [None], as
    [llm] and [vision] do until a handler is registered, is answered with
    [None] and the log record "Model <type> not initialized". *)
Theorem uninitialized_model_returns_None st (model_type : string) (request_data : pyval) :
  available_models st !! model_type = Some NoModel ->
  route_request model_type request_data st =
    Out (Ok VNone) st [EvLog logger ERROR ("Model " +:+ model_type +:+ " not initialized")].
Proof. intros H. apply (route_request_known st model_type request_data NoModel H). Qed.

(** Registering a handler under one model type does not change how a
    request for another model type is answered. *)
Theorem register_model_leaves_other_types
  st (model_type other : string) (m : model W) (request_data : pyval) :
  other <> model_type ->
  let st' := post (register_model model_type m st) in
  res (route_request other request_data st') = res (route_request other request_data st) /\
  emitted (route_request other request_data st') = emitted (route_request other request_data st) /\
  world (post (route_request other request_data st')) =
    world (post (route_request other request_data st)).
Proof.
  intros Hne. cbv zeta.
  assert (Hst' : post (register_model model_type m st) =
                 Build (<[model_type := m]> (available_models st)) (world st)).
  { unfold register_model. erewrite bind_Ok by reflexivity. reflexivity. }
  rewrite Hst'.
  set (st' := Build (<[model_type := m]> (available_models st)) (world st)).
  assert (Hlook : available_models st' !! other = available_models st !! other).
  { apply lookup_insert_ne. congruence. }
  destruct (available_models st !! other) as [m' |] eqn:H.
  - rewrite (route_request_known st other request_data m' H).
    rewrite (route_request_known st' other request_data m' Hlook).
    destruct m' as [| process]; [repeat split |].
    cbv zeta. cbn [world st'].
    destruct (res (process request_data (world st))); repeat split.
  - rewrite (route_request_unknown_returns_None_aux st other request_data H).
    rewrite (route_request_unknown_returns_None_aux st' other request_data Hlook).
    repeat split.
Qed.

End ModelRouterExtras.

Lemma route_request_is_contained_witness :
  exists process,
    ModelRouter.available_models
      (post (ModelRouter.register_model "llm"
               (ModelRouter.Handler (fun r => ret (VList [r]))) (ModelRouter.init tt)))
      !! "llm" = Some (ModelRouter.Handler process) /\
    res (process (VInt 1) tt) = Ok (VList [VInt 1]).
Proof.
  apply (proj2 (route_request_is_contained
                  (post (ModelRouter.register_model "llm"
                           (ModelRouter.Handler (fun r => ret (VList [r])))
                           (ModelRouter.init tt)))
                  "llm" (VInt 1)) (VList [VInt 1])).
  - vm_compute. reflexivity.
  - discriminate.
Defined.

Lemma uninitialized_model_returns_None_witness :
  ModelRouter.route_request "vision" (VDict []) (ModelRouter.init tt) =
    Out (Ok VNone) (ModelRouter.init tt)
        [EvLog ModelRouter.logger ERROR ("Model " +:+ "vision" +:+ " not initialized")].
Proof.
  apply (uninitialized_model_returns_None (ModelRouter.init tt) "vision" (VDict [])).
  reflexivity.
Defined.

Lemma register_model_leaves_other_types_witness :
  res (ModelRouter.route_request "vision" (VDict [])
         (post (ModelRouter.register_model "llm" (ModelRouter.Handler (fun _ => ret VNone))
                  (ModelRouter.init tt)))) =
  res (ModelRouter.route_request "vision" (VDict []) (ModelRouter.init tt)).
Proof.
  apply (register_model_leaves_other_types (ModelRouter.init tt) "llm" "vision").
  discriminate.
Defined.

(** ** base_commands.py (WebScraper) and config_loader.py: the dispatchers *)

(** [WebScraper.execute] and [ConfigLoader.execute] never raise. A fault
    raised by the dispatched handler, or by reading a parameter the
    operation needs, comes back as [{"status": "error", "message": str(e)}]
    after one error log record. *)
Theorem scraper_and_config_faults_become_error_results
  {W1 W2 : Type} (web : WebScraper.web_api W1) (cfg : ConfigLoader.handlers W2)
  (operation : string) (params : pyval) (w1 : W1) (w2 : W2) :
  is_Ok (res (WebScraper.execute web operation params w1)) /\
  (forall e, res (WebScraper.dispatch web operation params w1) = Raise e ->
     res (WebScraper.execute web operation params w1) = Ok (error_result (exc_text e)) /\
     emitted (WebScraper.execute web operation params w1) =
       emitted (WebScraper.dispatch web operation params w1) ++
       [EvLog WebScraper.logger ERROR ("Scraping error: " +:+ exc_text e)]) /\
  is_Ok (res (ConfigLoader.execute cfg operation params w2)) /\
  (forall e, res (ConfigLoader.dispatch cfg operation params w2) = Raise e ->
     res (ConfigLoader.execute cfg operation params w2) = Ok (error_result (exc_text e)) /\
     emitted (ConfigLoader.execute cfg operation params w2) =
       emitted (ConfigLoader.dispatch cfg operation params w2) ++
       [EvLog ConfigLoader.logger ERROR ("Config operation error: " +:+ exc_text e)]).
Proof.
  split; [| split; [| split]].
  - unfold WebScraper.execute. apply try_except_is_Ok. intros e s'. eexists; reflexivity.
  - intros e He. unfold WebScraper.execute.
    rewrite (try_except_Raise _ _ _ _ He). out_simpl. split; reflexivity.
  - unfold ConfigLoader.execute. apply try_except_is_Ok. intros e s'. eexists; reflexivity.
  - intros e He. unfold ConfigLoader.execute.
    rewrite (try_except_Raise _ _ _ _ He). out_simpl. split; reflexivity.
Qed.

Lemma scraper_and_config_faults_become_error_results_witness :
  res (WebScraper.execute quiet_web "fetch_page" (VDict []) tt) = Ok (error_result "'url'") /\
  res (ConfigLoader.execute quiet_config "save" (VList []) tt) =
    Ok (error_result "list indices must be integers or slices, not str").
Proof.
  pose proof (scraper_and_config_faults_become_error_results quiet_web quiet_config
                "fetch_page" (VDict []) tt tt) as (_ & Hweb & _).
  pose proof (scraper_and_config_faults_become_error_results quiet_web quiet_config
                "save" (VList []) tt tt) as (_ & _ & _ & Hcfg).
  split.
  - exact (proj1 (Hweb (KeyError "url") eq_refl)).
  - exact (proj1 (Hcfg (TypeError "list indices must be integers or slices, not str") eq_refl)).
Defined.

(** ** config_loader.py: [_parse_env_file] *)

Section EnvFileProps.
Import EnvFile.

Implicit Types (s a b r ws : string) (c : ascii).

Lemma is_empty_true s : is_empty s = true -> s = EmptyString.
Proof. destruct s; [reflexivity | discriminate]. Qed.

Lemma append_nil b : EmptyString +:+ b = b.
Proof. reflexivity. Qed.

Lemma append_cons c a b : String c a +:+ b = String c (a +:+ b).
Proof. reflexivity. Qed.

Lemma string_app_assoc a b r : (a +:+ b) +:+ r = a +:+ (b +:+ r).
Proof.
  induction a as [| c a IH]; [reflexivity |]. rewrite !append_cons, IH. reflexivity.
Qed.

Lemma string_app_nil_r a : a +:+ EmptyString = a.
Proof.
  induction a as [| c a IH]; [reflexivity |]. rewrite append_cons, IH. reflexivity.
Qed.

Lemma space_is_not_eq c : is_space c = true -> Ascii.eqb c "=" = false.
Proof.
  intros H. destruct (Ascii.eqb_spec c "=") as [-> | Hne]; [discriminate H | reflexivity].
Qed.

(** *** [lstrip] *)

Lemma lstrip_idem s : lstrip (lstrip s) = lstrip s.
Proof.
  induction s as [| c s IH]; [reflexivity |]. cbn [lstrip].
  destruct (is_space c) eqn:Hc; [exact IH |]. cbn [lstrip]. rewrite Hc. reflexivity.
Qed.

Lemma lstrip_all_space ws : all_space ws = true -> lstrip ws = EmptyString.
Proof.
  induction ws as [| c ws IH]; [reflexivity |]. cbn [all_space lstrip].
  intros H. apply andb_prop in H as [Hc Hws]. rewrite Hc. apply IH, Hws.
Qed.

Lemma lstrip_space_app ws s : all_space ws = true -> lstrip (ws +:+ s) = lstrip s.
Proof.
  induction ws as [| c ws IH]; [reflexivity |]. rewrite append_cons. cbn [all_space lstrip].
  intros H. apply andb_prop in H as [Hc Hws]. rewrite Hc. apply IH, Hws.
Qed.

Lemma lstrip_app_nonspace a c r :
  is_space c = false -> lstrip (a +:+ String c r) = lstrip a +:+ String c r.
Proof.
  intros Hc. induction a as [| c' a IH].
  - rewrite !append_nil. cbn [lstrip]. rewrite Hc. reflexivity.
  - rewrite append_cons. cbn [lstrip].
    destruct (is_space c'); [exact IH | rewrite append_cons; reflexivity].
Qed.

(** *** [rstrip] *)

Lemma rstrip_all_space ws : all_space ws = true -> rstrip ws = EmptyString.
Proof.
  induction ws as [| c ws IH]; [reflexivity |]. cbn [all_space rstrip].
  intros H. apply andb_prop in H as [Hc Hws]. rewrite (IH Hws), Hc. reflexivity.
Qed.

Lemma rstrip_nonspace c r : is_space c = false -> rstrip (String c r) = String c (rstrip r).
Proof. intros Hc. cbn [rstrip]. rewrite Hc. reflexivity. Qed.

Lemma rstrip_app_nonspace a c r :
  is_space c = false -> rstrip (a +:+ String c r) = a +:+ String c (rstrip r).
Proof.
  intros Hc. induction a as [| c' a IH].
  - rewrite !append_nil. apply rstrip_nonspace, Hc.
  - rewrite !append_cons. cbn [rstrip]. rewrite IH.
    destruct a; rewrite ?append_cons, ?append_nil; cbn [is_empty];
      rewrite andb_false_r; reflexivity.
Qed.

Lemma rstrip_app_space s ws : all_space ws = true -> rstrip (s +:+ ws) = rstrip s.
Proof.
  intros Hws. induction s as [| c s IH].
  - rewrite append_nil. apply rstrip_all_space, Hws.
  - rewrite append_cons. cbn [rstrip]. rewrite IH. reflexivity.
Qed.

Lemma rstrip_idem s : rstrip (rstrip s) = rstrip s.
Proof.
  induction s as [| c s IH]; [reflexivity |]. cbn [rstrip].
  destruct (is_space c && is_empty (rstrip s)) eqn:H; [reflexivity |].
  cbn [rstrip]. rewrite IH, H. reflexivity.
Qed.

Lemma rstrip_lstrip s : rstrip (lstrip s) = lstrip (rstrip s).
Proof.
  induction s as [| c s IH]; [reflexivity |]. cbn [lstrip rstrip].
  destruct (is_space c) eqn:Hc; cbn [andb].
  - rewrite IH. destruct (is_empty (rstrip s)) eqn:He.
    + apply is_empty_true in He. rewrite He. reflexivity.
    + cbn [lstrip]. rewrite Hc. reflexivity.
  - cbn [rstrip lstrip]. rewrite Hc. reflexivity.
Qed.

(** *** [strip] *)

Lemma strip_idem s : strip (strip s) = strip s.
Proof.
  unfold strip. rewrite (rstrip_lstrip (rstrip s)), rstrip_idem, lstrip_idem. reflexivity.
Qed.

Lemma strip_rstrip s : strip (rstrip s) = strip s.
Proof. unfold strip. rewrite rstrip_idem. reflexivity. Qed.

Lemma strip_lstrip s : strip (lstrip s) = strip s.
Proof. unfold strip. rewrite rstrip_lstrip, lstrip_idem. reflexivity. Qed.

Lemma strip_surrounded ws1 b ws2 :
  all_space ws1 = true -> all_space ws2 = true ->
  strip (ws1 +:+ b +:+ ws2) = strip b.
Proof.
  intros H1 H2. unfold strip.
  rewrite <- string_app_assoc, (rstrip_app_space _ ws2 H2).
  rewrite <- !rstrip_lstrip, (lstrip_space_app ws1 b H1). reflexivity.
Qed.

Lemma strip_all_space ws : all_space ws = true -> strip ws = EmptyString.
Proof. intros H. unfold strip. rewrite (rstrip_all_space ws H). reflexivity. Qed.

(** *** ['='] *)

Lemma has_eq_app a b : has_eq (a +:+ b) = has_eq a || has_eq b.
Proof.
  induction a as [| c a IH]; [reflexivity |]. rewrite append_cons. cbn [has_eq].
  rewrite IH, orb_assoc. reflexivity.
Qed.

Lemma has_eq_all_space ws : all_space ws = true -> has_eq ws = false.
Proof.
  induction ws as [| c ws IH]; [reflexivity |]. cbn [all_space has_eq].
  intros H. apply andb_prop in H as [Hc Hws].
  rewrite (space_is_not_eq c Hc), (IH Hws). reflexivity.
Qed.

Lemma has_eq_lstrip s : has_eq (lstrip s) = has_eq s.
Proof.
  induction s as [| c s IH]; [reflexivity |]. cbn [lstrip has_eq].
  destruct (is_space c) eqn:Hc; [| reflexivity].
  rewrite IH, (space_is_not_eq c Hc). reflexivity.
Qed.

Lemma has_eq_rstrip s : has_eq (rstrip s) = has_eq s.
Proof.
  induction s as [| c s IH]; [reflexivity |]. cbn [rstrip has_eq].
  destruct (is_space c && is_empty (rstrip s)) eqn:H.
  - apply andb_prop in H as [Hc He]. apply is_empty_true in He.
    rewrite <- IH, He, (space_is_not_eq c Hc). reflexivity.
  - cbn [has_eq]. rewrite IH. reflexivity.
Qed.

Lemma has_eq_strip s : has_eq (strip s) = has_eq s.
Proof. unfold strip. rewrite has_eq_lstrip, has_eq_rstrip. reflexivity. Qed.

Lemma split_eq_None s : has_eq s = false -> split_eq s = None.
Proof.
  induction s as [| c s IH]; [reflexivity |]. cbn [has_eq split_eq].
  intros H. apply orb_false_elim in H as [Hc Hs]. rewrite Hc, (IH Hs). reflexivity.
Qed.

Lemma split_eq_Some s : has_eq s = true -> exists a b, split_eq s = Some (a, b).
Proof.
  induction s as [| c s IH]; [discriminate |]. cbn [has_eq split_eq].
  destruct (Ascii.eqb c "="); [eauto |]. cbn [orb]. intros H.
  destruct (IH H) as (a & b & ->). eauto.
Qed.

Lemma split_eq_app a b :
  has_eq a = false -> split_eq (a +:+ String "=" b) = Some (a, b).
Proof.
  induction a as [| c a IH]; [reflexivity |]. rewrite append_cons. cbn [has_eq split_eq].
  intros H. apply orb_false_elim in H as [Hc Ha]. rewrite Hc, (IH Ha). reflexivity.
Qed.

(** *** The loop *)

Lemma parse_lines_cons line ls config :
  parse_lines (line :: ls) config =
    if effective line then
      match split_eq (strip line) with
      | Some (key, value) =>
          parse_lines ls (assoc_set (strip key) (VStr (strip value)) config)
      | None => Raise unpack_error
      end
    else parse_lines ls config.
Proof. reflexivity. Qed.

Lemma assoc_set_all_stripped k v d :
  strip k = k -> strip v = v -> all_stripped d -> all_stripped (assoc_set k (VStr v) d).
Proof.
  intros Hk Hv Hd. unfold all_stripped in *.
  induction Hd as [| [k' v'] d Hkv Hd IH]; cbn [assoc_set].
  - constructor; [| constructor]. split; [exact Hk | eauto].
  - destruct (String.eqb k' k); constructor; try assumption.
    split; [exact Hk | eauto].
Qed.

Lemma parse_lines_malformed file config :
  existsb malformed file = true -> parse_lines file config = Raise unpack_error.
Proof.
  revert config. induction file as [| line ls IH]; intros config H; [discriminate H |].
  cbn [existsb] in H. rewrite parse_lines_cons.
  destruct (effective line) eqn:He.
  - destruct (has_eq line) eqn:Hq.
    + destruct (split_eq_Some (strip line)) as (a & b & ->);
        [rewrite has_eq_strip; exact Hq |].
      apply IH. unfold malformed in H. rewrite He, Hq in H. exact H.
    + rewrite split_eq_None; [reflexivity | rewrite has_eq_strip; exact Hq].
  - apply IH. unfold malformed in H. rewrite He in H. exact H.
Qed.

Lemma parse_lines_stripped file config d :
  all_stripped config -> parse_lines file config = Ok d -> all_stripped d.
Proof.
  revert config. induction file as [| line ls IH]; intros config Hc H.
  - cbn [parse_lines] in H. injection H as <-. exact Hc.
  - rewrite parse_lines_cons in H. destruct (effective line); [| exact (IH _ Hc H)].
    destruct (split_eq (strip line)) as [[key value] |]; [| discriminate H].
    refine (IH _ _ H). apply assoc_set_all_stripped; [apply strip_idem .. | exact Hc].
Qed.

Lemma parse_lines_well_formed file config :
  existsb malformed file = false -> exists d, parse_lines file config = Ok d.
Proof.
  revert config. induction file as [| line ls IH]; intros config H; [eexists; reflexivity |].
  cbn [existsb] in H. apply orb_false_elim in H as [Hm Hls]. rewrite parse_lines_cons.
  unfold malformed in Hm. destruct (effective line); [| exact (IH _ Hls)].
  cbn [andb] in Hm. apply negb_false_iff in Hm.
  destruct (split_eq_Some (strip line)) as (a & b & ->); [rewrite has_eq_strip; exact Hm |].
  exact (IH _ Hls).
Qed.

(** *** Rendered lines *)

Lemma length_lstrip s : (String.length (lstrip s) <= String.length s)%nat.
Proof.
  induction s as [| c s IH]; [reflexivity |]. cbn [lstrip].
  destruct (is_space c); cbn [String.length]; lia.
Qed.

Lemma length_rstrip s : (String.length (rstrip s) <= String.length s)%nat.
Proof.
  induction s as [| c s IH]; [reflexivity |]. cbn [rstrip].
  destruct (is_space c && is_empty (rstrip s)); cbn [String.length]; lia.
Qed.

Lemma strip_fixed_head c s : strip (String c s) = String c s -> is_space c = false.
Proof.
  intros H. destruct (is_space c) eqn:Hc; [exfalso | reflexivity].
  apply (f_equal String.length) in H. unfold strip in H. cbn [rstrip] in H.
  rewrite Hc in H. cbn [andb] in H.
  pose proof (length_lstrip (rstrip s)). pose proof (length_rstrip s).
  destruct (is_empty (rstrip s)); cbn [lstrip String.length] in H;
    [| rewrite Hc in H]; cbn [String.length] in H; lia.
Qed.

Lemma is_empty_app a c r : is_empty (a +:+ String c r) = false.
Proof. destruct a; reflexivity. Qed.

Lemma effective_blank ws : all_space ws = true -> effective ws = false.
Proof. intros H. unfold effective. rewrite (strip_all_space ws H). reflexivity. Qed.

Lemma strip_comment ws text :
  all_space ws = true -> strip (ws +:+ String "#" text) = String "#" (rstrip text).
Proof.
  intros H. unfold strip.
  rewrite (rstrip_app_nonspace ws "#" text eq_refl), (lstrip_space_app ws _ H).
  reflexivity.
Qed.

Lemma effective_comment ws text :
  all_space ws = true -> effective (render (Comment ws text)) = false.
Proof.
  intros H. unfold effective. cbn [render].
  change ("#" +:+ text) with (String "#" text).
  rewrite (strip_comment ws text H). reflexivity.
Qed.

Lemma render_Assign ws1 key ws2 ws3 value ws4 :
  render (Assign ws1 key ws2 ws3 value ws4) =
    (ws1 +:+ key +:+ ws2) +:+ String "=" (ws3 +:+ value +:+ ws4).
Proof. cbn [render]. rewrite !string_app_assoc. reflexivity. Qed.

Lemma strip_assignment a b :
  strip (a +:+ String "=" b) = lstrip a +:+ String "=" (rstrip b).
Proof.
  unfold strip.
  rewrite (rstrip_app_nonspace a "=" b eq_refl), (lstrip_app_nonspace a "=" _ eq_refl).
  reflexivity.
Qed.

Lemma is_comment_key key ws r :
  strip key = key -> is_comment key = false -> all_space ws = true ->
  is_comment (lstrip (key +:+ ws) +:+ String "=" r) = false.
Proof.
  intros Hk Hc Hws. destruct key as [| c k].
  - rewrite append_nil, (lstrip_all_space ws Hws). reflexivity.
  - rewrite append_cons. cbn [lstrip]. rewrite (strip_fixed_head c k Hk).
    rewrite append_cons. exact Hc.
Qed.

Lemma effective_assign ws1 key ws2 ws3 value ws4 :
  well_formed (Assign ws1 key ws2 ws3 value ws4) ->
  effective (render (Assign ws1 key ws2 ws3 value ws4)) = true.
Proof.
  intros (H1 & H2 & _ & _ & Hk & _ & _ & Hc). unfold effective.
  rewrite render_Assign, strip_assignment, is_empty_app.
  rewrite (lstrip_space_app ws1 _ H1), (is_comment_key key ws2 _ Hk Hc H2). reflexivity.
Qed.

Lemma split_assign ws1 key ws2 ws3 value ws4 :
  well_formed (Assign ws1 key ws2 ws3 value ws4) ->
  exists a b, split_eq (strip (render (Assign ws1 key ws2 ws3 value ws4))) = Some (a, b) /\
              strip a = key /\ strip b = value.
Proof.
  intros (H1 & H2 & H3 & H4 & Hk & Hv & Hq & _).
  exists (lstrip (ws1 +:+ key +:+ ws2)), (rstrip (ws3 +:+ value +:+ ws4)).
  rewrite render_Assign, strip_assignment. split; [| split].
  - apply split_eq_app.
    rewrite has_eq_lstrip, !has_eq_app, Hq, (has_eq_all_space ws1 H1), (has_eq_all_space ws2 H2).
    reflexivity.
  - rewrite strip_lstrip, (strip_surrounded ws1 key ws2 H1 H2). exact Hk.
  - rewrite strip_rstrip, (strip_surrounded ws3 value ws4 H3 H4). exact Hv.
Qed.

Lemma parse_lines_rendered ls config :
  Forall well_formed ls ->
  parse_lines (map render ls) config = Ok (assign_all ls config).
Proof.
  intros H. revert config.
  induction H as [| l ls Hl Hls IH]; intros config; [reflexivity |].
  cbn [map]. rewrite parse_lines_cons. destruct l as [ws | ws text | ws1 key ws2 ws3 value ws4].
  - cbn [render assign_all]. rewrite (effective_blank ws Hl). apply IH.
  - rewrite (effective_comment ws text Hl). cbn [assign_all]. apply IH.
  - rewrite (effective_assign _ _ _ _ _ _ Hl).
    destruct (split_assign _ _ _ _ _ _ Hl) as (a & b & -> & -> & ->).
    cbn [assign_all]. apply IH.
Qed.

End EnvFileProps.

(** [_parse_env_file] raises exactly when some line that is neither blank
    nor a comment has no ['=']; the fault is the [ValueError] of the tuple
    unpacking, whatever the lines before and after it assign. Without such
    a line it returns a dictionary. *)
Theorem parse_env_file_raises_iff_malformed (file : list string) :
  (existsb EnvFile.malformed file = true ->
     EnvFile._parse_env_file file = Raise EnvFile.unpack_error) /\
  (existsb EnvFile.malformed file = false ->
     exists d, EnvFile._parse_env_file file = Ok (VDict d)).
Proof.
  unfold EnvFile._parse_env_file. split; intros H.
  - rewrite (parse_lines_malformed file [] H). reflexivity.
  - destruct (parse_lines_well_formed file [] H) as (d & ->). eauto.
Qed.

(** Whatever [_parse_env_file] returns is a dictionary whose keys and
    values are strings with no white space at either end. *)
Theorem parse_env_file_strips_keys_and_values (file : list string) (v : pyval) :
  EnvFile._parse_env_file file = Ok v ->
  exists d, v = VDict d /\ EnvFile.all_stripped d.
Proof.
  unfold EnvFile._parse_env_file. intros H.
  destruct (EnvFile.parse_lines file []) as [d | e] eqn:Hd; [| discriminate H].
  injection H as <-. exists d. split; [reflexivity |].
  apply (parse_lines_stripped file [] d); [constructor | exact Hd].
Qed.

(** Reading a file made of blank lines, comments and [key=value] lines,
    with any white space around the keys, the values and the lines: the
    result is the dictionary built by assigning each key its value, line
    after line, the white space gone; a value may hold ['='] and ['#']. *)
Theorem parse_env_file_reads_rendered_lines (ls : list EnvFile.env_line) :
  Forall EnvFile.well_formed ls ->
  EnvFile._parse_env_file (map EnvFile.render ls) = Ok (VDict (EnvFile.assign_all ls [])).
Proof.
  intros H. unfold EnvFile._parse_env_file.
  rewrite (parse_lines_rendered ls [] H). reflexivity.
Qed.

Lemma parse_env_file_raises_iff_malformed_witness :
  EnvFile._parse_env_file ["A=1"; "oops"; "B=2"] = Raise EnvFile.unpack_error /\
  exists d, EnvFile._parse_env_file ["A=1"; "# oops"; "B=2"] = Ok (VDict d).
Proof.
  split.
  - exact (proj1 (parse_env_file_raises_iff_malformed ["A=1"; "oops"; "B=2"]) eq_refl).
  - exact (proj2 (parse_env_file_raises_iff_malformed ["A=1"; "# oops"; "B=2"]) eq_refl).
Defined.

Lemma parse_env_file_strips_keys_and_values_witness :
  exists d, VDict [("A", VStr "1 2"); ("B", VStr EmptyString)] = VDict d /\
            EnvFile.all_stripped d.
Proof.
  apply (parse_env_file_strips_keys_and_values [" A = 1 2 "; "B="]).
  reflexivity.
Defined.

Lemma parse_env_file_reads_rendered_lines_witness :
  EnvFile._parse_env_file (map EnvFile.render env_sample) =
    Ok (VDict [("HOST", VStr "db"); ("URL", VStr "a=b")]).
Proof.
  apply (parse_env_file_reads_rendered_lines env_sample).
  unfold env_sample. repeat (constructor; [cbn; tauto |]). constructor.
Defined.

(** ** config_loader.py: the cache and the files *)

Lemma ret_run {S A} (a : A) (s : S) : ret a s = Out (Ok a) s [].
Proof. reflexivity. Qed.

Lemma bind_ret_l {S A B} (a : A) (k : A -> M S B) s : bind (ret a) k s = k a s.
Proof. rewrite (bind_Ok _ _ _ _ _ _ (ret_run a s)). apply out_eta. Qed.

Lemma bind_get {S B} (k : S -> M S B) s : bind get k s = k s s.
Proof. rewrite (bind_Ok get k s s s [] eq_refl). apply out_eta. Qed.

Lemma bind_modify {S B} (f : S -> S) (k : unit -> M S B) s :
  bind (modify f) k s = k tt (f s).
Proof. rewrite (bind_Ok (modify f) k s tt (f s) [] eq_refl). apply out_eta. Qed.

Lemma bind_lift_Ok {S A B} (r : result A) (a : A) (k : A -> M S B) s :
  r = Ok a -> bind (lift_result r) k s = k a s.
Proof. intros ->. apply bind_ret_l. Qed.

Lemma bind_lift_Raise {S A B} (r : result A) (e : exn) (k : A -> M S B) s :
  r = Raise e -> bind (lift_result r) k s = Out (Raise e) s [].
Proof. intros ->. reflexivity. Qed.

Section ConfigFilesProps.
Import ConfigFiles.
Context {W F : Type} (fs : fs_api W F).
Implicit Types (st : state W) (name data config schema : pyval) (k : pykey).

Lemma on_world_run {A} (m : M W A) st :
  on_world m st =
    Out (res (m (world st))) (set_world (post (m (world st))) st) (emitted (m (world st))).
Proof. reflexivity. Qed.

Lemma keeps_cache_refl st : keeps_cache st st.
Proof. reflexivity. Qed.

Lemma keeps_cache_trans st1 st2 st3 :
  keeps_cache st1 st2 -> keeps_cache st2 st3 -> keeps_cache st1 st3.
Proof. unfold keeps_cache. congruence. Qed.

Lemma on_world_keeps_cache {A} (m : M W A) : preserves keeps_cache (on_world m).
Proof. intros st. reflexivity. Qed.

#[local] Hint Resolve keeps_cache_refl keeps_cache_trans on_world_keeps_cache : preserve.

Lemma find_in_keeps_cache exts name : preserves keeps_cache (find_in fs exts name).
Proof. induction exts as [| ext exts IH]; cbn [find_in]; preserve. Qed.

Lemma find_config_file_keeps_cache name : preserves keeps_cache (_find_config_file fs name).
Proof. apply find_in_keeps_cache. Qed.

Lemma read_config_file_keeps_cache path : preserves keeps_cache (_read_config_file fs path).
Proof. unfold _read_config_file. preserve. Qed.

Lemma load_config_unhashable name e st :
  key_of name = Raise e ->
  load_config fs name st = Out (Ok (error_result (exc_text e))) st [].
Proof.
  intros Hk. unfold load_config, try_except.
  rewrite (bind_lift_Raise _ e _ _ Hk). reflexivity.
Qed.

Lemma load_config_cached name k config st :
  key_of name = Ok k -> cached_configs st !! k = Some config ->
  load_config fs name st = Out (Ok (success_config config)) st [].
Proof.
  intros Hk Hc. unfold load_config, try_except.
  rewrite (bind_lift_Ok _ k _ _ Hk), bind_get, Hc. reflexivity.
Qed.

Lemma load_config_miss name k st :
  key_of name = Ok k -> cached_configs st !! k = None ->
  match res (_find_config_file fs name st) with
  | Raise e =>
      res (load_config fs name st) = Ok (error_result (exc_text e)) /\
      post (load_config fs name st) = post (_find_config_file fs name st)
  | Ok None =>
      res (load_config fs name st) = Ok (not_found name) /\
      post (load_config fs name st) = post (_find_config_file fs name st)
  | Ok (Some path) =>
      match res (_read_config_file fs path (post (_find_config_file fs name st))) with
      | Raise e =>
          res (load_config fs name st) = Ok (error_result (exc_text e)) /\
          post (load_config fs name st) =
            post (_read_config_file fs path (post (_find_config_file fs name st)))
      | Ok config =>
          res (load_config fs name st) = Ok (success_config config) /\
          post (load_config fs name st) =
            Build (<[k := config]>
                     (cached_configs
                        (post (_read_config_file fs path (post (_find_config_file fs name st))))))
                  (world (post (_read_config_file fs path (post (_find_config_file fs name st)))))
      end
  end.
Proof.
  intros Hk Hc. unfold load_config, try_except.
  rewrite (bind_lift_Ok _ k _ _ Hk), bind_get, Hc.
  destruct (res (_find_config_file fs name st)) as [[path |] | e] eqn:Hf.
  - rewrite (bind_res_Ok _ _ _ _ Hf). out_simpl.
    destruct (res (_read_config_file fs path (post (_find_config_file fs name st))))
      as [config | e] eqn:Hr.
    + rewrite (bind_result_Ok _ _ _ _ Hr), (bind_post_Ok _ _ _ _ Hr).
      unfold cache. rewrite bind_modify, ret_run. out_simpl. split; reflexivity.
    + rewrite (bind_result_Raise _ _ _ _ Hr), (bind_post_Raise _ _ _ _ Hr).
      rewrite ret_run. out_simpl. split; reflexivity.
  - rewrite (bind_res_Ok _ _ _ _ Hf), ret_run. out_simpl. split; reflexivity.
  - rewrite (bind_res_Raise _ _ _ _ Hf). out_simpl. cbv beta iota.
    rewrite ret_run. out_simpl. split; reflexivity.
Qed.

Lemma find_in_absent exts name :
  (forall ext w, In ext exts ->
     res (path_exists fs (config_path fs (py_str name +:+ ext)) w) = Ok false) ->
  forall st, res (find_in fs exts name st) = Ok None.
Proof.
  induction exts as [| ext exts IH]; intros Habsent st; [reflexivity |].
  cbn [find_in].
  assert (Hp : res (on_world (path_exists fs (config_path fs (py_str name +:+ ext))) st)
               = Ok false).
  { rewrite on_world_run. out_simpl. apply Habsent. left. reflexivity. }
  rewrite (bind_result_Ok _ _ _ _ Hp). apply IH.
  intros ext' w Hin. apply Habsent. right. exact Hin.
Qed.

Lemma save_config_body_written name data k st :
  key_of name = Ok k ->
  res (write_json fs (json_path fs name) data (world st)) = Ok tt ->
  save_config fs name data st =
    Out (Ok (saved fs name))
        (Build (<[k := data]> (cached_configs st))
               (post (write_json fs (json_path fs name) data (world st))))
        (emitted (write_json fs (json_path fs name) data (world st)) ++ []).
Proof.
  intros Hk Hw. unfold save_config, try_except.
  assert (Ho : res (on_world (write_json fs (json_path fs name) data) st) = Ok tt).
  { rewrite on_world_run. out_simpl. exact Hw. }
  unfold json_path in *. rewrite (bind_res_Ok _ _ _ _ Ho).
  rewrite (bind_lift_Ok _ k _ _ Hk). unfold cache. rewrite bind_modify, ret_run.
  rewrite on_world_run. out_simpl. cbv beta iota. reflexivity.
Qed.

(** Saving a configuration and loading it again gives the data back: when
    the name is hashable and the file is written, [save_config] answers
    success with the path of the JSON file, and a [load_config] of the same
    name right after answers with the saved data, from the cache, without
    any call to the file system. *)
Theorem save_then_load_returns_the_data name data k st :
  key_of name = Ok k ->
  res (write_json fs (json_path fs name) data (world st)) = Ok tt ->
  res (save_config fs name data st) = Ok (saved fs name) /\
  load_config fs name (post (save_config fs name data st)) =
    Out (Ok (success_config data)) (post (save_config fs name data st)) [].
Proof.
  intros Hk Hw. rewrite (save_config_body_written name data k st Hk Hw). out_simpl.
  split; [reflexivity |].
  apply (load_config_cached name k); [exact Hk |].
  cbn [cached_configs]. apply lookup_insert_eq.
Qed.

(** A configuration that was loaded is cached: after a [load_config] that
    answered success, loading the same name again gives the same
    configuration without any call to the file system, so a later change of
    the file is not seen. *)
Theorem loaded_config_is_cached name config st :
  res (load_config fs name st) = Ok (success_config config) ->
  load_config fs name (post (load_config fs name st)) =
    Out (Ok (success_config config)) (post (load_config fs name st)) [].
Proof.
  intros H. destruct (key_of name) as [k | e] eqn:Hk.
  2: { rewrite (load_config_unhashable name e st Hk) in H. discriminate H. }
  destruct (cached_configs st !! k) as [c |] eqn:Hc.
  - rewrite (load_config_cached name k c st Hk Hc) in H |- *. out_simpl.
    rewrite res_Out in H. injection H as ->.
    apply (load_config_cached name k); assumption.
  - pose proof (load_config_miss name k st Hk Hc) as Hm.
    destruct (res (_find_config_file fs name st)) as [[path |] | e].
    + destruct (res (_read_config_file fs path (post (_find_config_file fs name st))))
        as [c | e].
      * destruct Hm as [Hres Hpost]. rewrite Hres in H. injection H as ->.
        apply (load_config_cached name k); [exact Hk |].
        rewrite Hpost. cbn [cached_configs]. apply lookup_insert_eq.
      * destruct Hm as [Hres _]. rewrite Hres in H. discriminate H.
    + destruct Hm as [Hres _]. rewrite Hres in H. discriminate H.
    + destruct Hm as [Hres _]. rewrite Hres in H. discriminate H.
Qed.

(** [load_config] never raises, and it never removes or replaces an entry
    of the cache: whatever the file system answers, every name cached
    before the call is cached with the same configuration after it. *)
Theorem load_config_keeps_cached_entries name st :
  is_Ok (res (load_config fs name st)) /\
  forall k' config,
    cached_configs st !! k' = Some config ->
    cached_configs (post (load_config fs name st)) !! k' = Some config.
Proof.
  split.
  { unfold load_config. apply try_except_is_Ok. intros e s'. eexists; reflexivity. }
  intros k' config Hk'. destruct (key_of name) as [k | e] eqn:Hk.
  2: { rewrite (load_config_unhashable name e st Hk). out_simpl. exact Hk'. }
  destruct (cached_configs st !! k) as [c |] eqn:Hc.
  { rewrite (load_config_cached name k c st Hk Hc). out_simpl. exact Hk'. }
  pose proof (load_config_miss name k st Hk Hc) as Hm.
  pose proof (find_config_file_keeps_cache name st) as Hfind.
  unfold keeps_cache in Hfind.
  destruct (res (_find_config_file fs name st)) as [[path |] | e].
  - pose proof (read_config_file_keeps_cache path (post (_find_config_file fs name st)))
      as Hread.
    unfold keeps_cache in Hread.
    destruct (res (_read_config_file fs path (post (_find_config_file fs name st))))
      as [c | e]; destruct Hm as [_ ->].
    + cbn [cached_configs]. rewrite Hread, Hfind.
      rewrite lookup_insert_ne; [exact Hk' |]. intros ->. congruence.
    + rewrite Hread, Hfind. exact Hk'.
  - destruct Hm as [_ ->]. rewrite Hfind. exact Hk'.
  - destruct Hm as [_ ->]. rewrite Hfind. exact Hk'.
Qed.

(** Loading a name that is not cached when [config/<name><ext>] exists for
    none of the supported extensions: the answer is the error result
    ["Config '<name>' not found"], and nothing is cached. *)
Theorem load_config_reports_a_missing_file name k st :
  key_of name = Ok k ->
  cached_configs st !! k = None ->
  (forall ext w, In ext (formats_order fs) ->
     res (path_exists fs (config_path fs (py_str name +:+ ext)) w) = Ok false) ->
  res (load_config fs name st) = Ok (not_found name) /\
  cached_configs (post (load_config fs name st)) = cached_configs st.
Proof.
  intros Hk Hc Habsent.
  pose proof (load_config_miss name k st Hk Hc) as Hm.
  unfold _find_config_file in Hm at 1.
  rewrite (find_in_absent (formats_order fs) name Habsent st) in Hm.
  destruct Hm as [-> ->]. split; [reflexivity |].
  apply find_config_file_keeps_cache.
Qed.

(** A write that fails: [save_config] does not raise, it answers with the
    error result that carries the text of the fault, and the cache is left
    as it was, so the data that could not be saved is not served by a later
    load. *)
Theorem failed_save_is_not_cached name data e st :
  res (write_json fs (json_path fs name) data (world st)) = Raise e ->
  res (save_config fs name data st) = Ok (error_result (exc_text e)) /\
  cached_configs (post (save_config fs name data st)) = cached_configs st.
Proof.
  intros Hw. unfold save_config, try_except.
  assert (Ho : res (on_world (write_json fs (json_path fs name) data) st) = Raise e).
  { rewrite on_world_run. out_simpl. exact Hw. }
  unfold json_path in *. rewrite (bind_res_Raise _ _ _ _ Ho). out_simpl. cbv beta iota.
  rewrite ret_run. out_simpl. split; reflexivity.
Qed.

(** A name that cannot be a dictionary key (a list, a dictionary): the
    file is written all the same, under the text of the name, and only then
    does [save_config] fail on the cache; it answers with the error result
    of the [TypeError] and caches nothing. *)
Theorem save_under_unhashable_name_writes_the_file name data e st :
  key_of name = Raise e ->
  res (write_json fs (json_path fs name) data (world st)) = Ok tt ->
  res (save_config fs name data st) = Ok (error_result (exc_text e)) /\
  world (post (save_config fs name data st)) =
    post (write_json fs (json_path fs name) data (world st)) /\
  cached_configs (post (save_config fs name data st)) = cached_configs st.
Proof.
  intros Hk Hw. unfold save_config, try_except.
  assert (Ho : res (on_world (write_json fs (json_path fs name) data) st) = Ok tt).
  { rewrite on_world_run. out_simpl. exact Hw. }
  unfold json_path in *. rewrite (bind_res_Ok _ _ _ _ Ho).
  rewrite (bind_lift_Raise _ e _ _ Hk). out_simpl. cbv beta iota.
  rewrite ret_run, on_world_run. out_simpl. split; [| split]; reflexivity.
Qed.

(** [validate_config] on a configuration that cannot be loaded returns the
    answer of [load_config] as it is (not found, or the text of the fault)
    and never looks at the schema: it runs exactly as the load does. *)
Theorem validate_config_passes_on_the_load_error name schema message st :
  res (load_config fs name st) = Ok (error_result message) ->
  validate_config fs name schema st = load_config fs name st.
Proof.
  intros Hl. unfold validate_config.
  assert (Hbody :
    forall (k : pyval -> M (state W) pyval),
      (forall s, k (error_result message) s = Out (Ok (error_result message)) s []) ->
      bind (load_config fs name) k st = load_config fs name st).
  { intros k0 Hk0. rewrite (bind_res_Ok _ _ _ _ Hl), Hk0. out_simpl.
    rewrite app_nil_r, <- Hl. apply out_eta. }
  rewrite try_except_Ok with (a := error_result message).
  - apply Hbody. intros s. reflexivity.
  - rewrite Hbody; [exact Hl |]. intros s. reflexivity.
Qed.

End ConfigFilesProps.

Lemma save_then_load_returns_the_data_witness :
  res (ConfigFiles.save_config memory_fs (VStr "app") (VDict [("debug", VBool true)])
         (ConfigFiles.init [])) =
    Ok (VDict [("status", VStr "success"); ("path", VStr "config/app.json")]) /\
  res (ConfigFiles.load_config memory_fs (VStr "app")
         (post (ConfigFiles.save_config memory_fs (VStr "app") (VDict [("debug", VBool true)])
                  (ConfigFiles.init [])))) =
    Ok (ConfigFiles.success_config (VDict [("debug", VBool true)])).
Proof.
  destruct (save_then_load_returns_the_data memory_fs (VStr "app")
              (VDict [("debug", VBool true)]) (KStr "app") (ConfigFiles.init [])
              eq_refl eq_refl) as [Hsave Hload].
  split; [exact Hsave | rewrite Hload; reflexivity].
Defined.

Lemma loaded_config_is_cached_witness :
  res (ConfigFiles.load_config memory_fs (VStr "app")
         (post (ConfigFiles.load_config memory_fs (VStr "app")
                  (ConfigFiles.init [("config/app.json", VDict [("debug", VBool true)])])))) =
    Ok (ConfigFiles.success_config (VDict [("debug", VBool true)])).
Proof.
  rewrite (loaded_config_is_cached memory_fs (VStr "app") (VDict [("debug", VBool true)])
             (ConfigFiles.init [("config/app.json", VDict [("debug", VBool true)])])).
  - reflexivity.
  - vm_compute. reflexivity.
Defined.

Lemma load_config_keeps_cached_entries_witness :
  ConfigFiles.cached_configs
    (post (ConfigFiles.load_config memory_fs (VStr "other")
             (ConfigFiles.Build (<[KStr "app" := VInt 1]> ∅)
                [("config/other.json", VInt 2)]))) !! KStr "app" = Some (VInt 1).
Proof.
  apply (proj2 (load_config_keeps_cached_entries memory_fs (VStr "other")
                  (ConfigFiles.Build (<[KStr "app" := VInt 1]> ∅)
                     [("config/other.json", VInt 2)]))).
  vm_compute. reflexivity.
Defined.

Lemma load_config_reports_a_missing_file_witness :
  res (ConfigFiles.load_config bare_fs (VStr "app") (ConfigFiles.init tt)) =
    Ok (error_result "Config 'app' not found").
Proof.
  apply (load_config_reports_a_missing_file bare_fs (VStr "app") (KStr "app")
           (ConfigFiles.init tt)).
  - reflexivity.
  - reflexivity.
  - intros ext w _. reflexivity.
Defined.

Lemma failed_save_is_not_cached_witness :
  res (ConfigFiles.save_config read_only_fs (VStr "app") (VInt 1) (ConfigFiles.init [])) =
    Ok (error_result "[Errno 30] Read-only file system: 'config/app.json'") /\
  ConfigFiles.cached_configs
    (post (ConfigFiles.save_config read_only_fs (VStr "app") (VInt 1) (ConfigFiles.init [])))
  = ∅.
Proof.
  apply (failed_save_is_not_cached read_only_fs (VStr "app") (VInt 1)
           (Exn "OSError" "[Errno 30] Read-only file system: 'config/app.json'")
           (ConfigFiles.init [])).
  reflexivity.
Defined.

Lemma save_under_unhashable_name_writes_the_file_witness :
  res (ConfigFiles.save_config memory_fs (VList [VStr "a"]) (VInt 1) (ConfigFiles.init [])) =
    Ok (error_result "unhashable type: 'list'") /\
  ConfigFiles.world
    (post (ConfigFiles.save_config memory_fs (VList [VStr "a"]) (VInt 1)
             (ConfigFiles.init []))) =
    [("config/['a'].json", VInt 1)] /\
  ConfigFiles.cached_configs
    (post (ConfigFiles.save_config memory_fs (VList [VStr "a"]) (VInt 1)
             (ConfigFiles.init []))) = ∅.
Proof.
  apply (save_under_unhashable_name_writes_the_file memory_fs (VList [VStr "a"]) (VInt 1)
           (TypeError "unhashable type: 'list'") (ConfigFiles.init [])).
  - reflexivity.
  - reflexivity.
Defined.

Lemma validate_config_passes_on_the_load_error_witness :
  ConfigFiles.validate_config bare_fs (VStr "app") (VDict []) (ConfigFiles.init tt) =
  ConfigFiles.load_config bare_fs (VStr "app") (ConfigFiles.init tt).
Proof.
  apply (validate_config_passes_on_the_load_error bare_fs (VStr "app") (VDict [])
           "Config 'app' not found" (ConfigFiles.init tt)).
  reflexivity.
Defined.

(** ** base_commands.py: [BaseCommands] *)

Lemma assoc_get_app k (d1 d2 : list (string * pyval)) :
  assoc_get k (d1 ++ d2) =
    match assoc_get k d1 with
    | Some x => Some x
    | None => assoc_get k d2
    end.
Proof.
  induction d1 as [| [k' v'] d1 IH]; [reflexivity |]. cbn [app assoc_get].
  destruct (String.eqb k' k); [reflexivity | exact IH].
Qed.

Lemma assoc_get_set_default k v d k' :
  assoc_get k' (set_default k v d) =
    match assoc_get k' d with
    | Some x => Some x
    | None => if String.eqb k k' then Some v else None
    end.
Proof.
  unfold set_default. destruct (assoc_get k d) as [x |] eqn:Hk.
  - destruct (assoc_get k' d) eqn:Hk'; [reflexivity |].
    destruct (String.eqb_spec k k') as [-> | _]; [congruence | reflexivity].
  - rewrite assoc_get_app. cbn [assoc_get]. reflexivity.
Qed.

Lemma py_get_default_set_default k v d k' v' :
  (String.eqb k k' = true -> v = v') ->
  py_get_default (VDict (set_default k v d)) k' v' = py_get_default (VDict d) k' v'.
Proof.
  intros H. unfold py_get_default. rewrite assoc_get_set_default.
  destruct (assoc_get k' d); [reflexivity |].
  destruct (String.eqb k k'); [rewrite H; reflexivity | reflexivity].
Qed.

Lemma py_get_set_default k v d k' :
  (String.eqb k k' = true -> v = VNone) ->
  py_get (VDict (set_default k v d)) k' = py_get (VDict d) k'.
Proof.
  intros H. unfold py_get. rewrite assoc_get_set_default.
  destruct (assoc_get k' d); [reflexivity |].
  destruct (String.eqb k k'); [rewrite H; reflexivity | reflexivity].
Qed.

Lemma py_get_no_dict params k :
  (forall d, params <> VDict d) -> py_get params k = Raise (BaseCommands.no_get params).
Proof. intros H. destruct params; try reflexivity. destruct (H d eq_refl). Qed.

Lemma py_get_default_no_dict params k v :
  (forall d, params <> VDict d) ->
  py_get_default params k v = Raise (BaseCommands.no_get params).
Proof. intros H. destruct params; try reflexivity. destruct (H d eq_refl). Qed.

Ltac same_key :=
  let H := fresh in
  intros H; first [reflexivity | vm_compute in H; discriminate H].

Section BaseCommandsProps.
Context {W : Type} (vader : BaseCommands.vader_api W).

Lemma py_get_read d k : py_get (VDict d) k = Ok (BaseCommands.read d k VNone).
Proof. unfold py_get, BaseCommands.read. destruct (assoc_get k d); reflexivity. Qed.

Lemma py_get_default_read d k v :
  py_get_default (VDict d) k v = Ok (BaseCommands.read d k v).
Proof. unfold py_get_default, BaseCommands.read. destruct (assoc_get k d); reflexivity. Qed.

Lemma forwarded_fault {A} (m : M W A) (k : A -> M W pyval) (e : exn) (w : W) :
  res (m w) = Raise e ->
  res (try_except (bind m k) BaseCommands.on_error w) = Ok (error_result (exc_text e)).
Proof.
  intros H. rewrite (try_except_Raise _ _ _ _ (bind_result_Raise _ _ _ _ H)).
  out_simpl. reflexivity.
Qed.

(** No command of [BaseCommands] raises, whatever the agent does and
    whatever is passed as parameters: each one returns a result. When the
    call that [start], [stop], [restart] or [list] forwards to the agent
    raises, the result is the error result with the text of that fault. *)
Theorem commands_never_raise (now : string) (params : pyval) (w : W) :
  (is_Ok (res (BaseCommands.help w)) /\
   is_Ok (res (BaseCommands.status vader now w)) /\
   is_Ok (res (BaseCommands.start vader params w)) /\
   is_Ok (res (BaseCommands.stop vader params w)) /\
   is_Ok (res (BaseCommands.restart vader params w)) /\
   is_Ok (res (BaseCommands.list vader params w)) /\
   is_Ok (res (BaseCommands.config vader params w))) /\
  forall d e, params = VDict d ->
    (res (BaseCommands.start_task vader (BaseCommands.read d "type" VNone)
            (BaseCommands.read d "params" (VDict [])) w) = Raise e ->
     res (BaseCommands.start vader params w) = Ok (error_result (exc_text e))) /\
    (res (BaseCommands.stop_task vader (BaseCommands.read d "task_id" VNone)
            (BaseCommands.read d "force" (VBool false)) w) = Raise e ->
     res (BaseCommands.stop vader params w) = Ok (error_result (exc_text e))) /\
    (res (BaseCommands.restart_component vader (BaseCommands.read d "component" VNone)
            (BaseCommands.read d "clean" (VBool false)) w) = Raise e ->
     res (BaseCommands.restart vader params w) = Ok (error_result (exc_text e))) /\
    (res (BaseCommands.list_resources vader (BaseCommands.read d "type" (VStr "all"))
            (BaseCommands.read d "filter" (VDict [])) w) = Raise e ->
     res (BaseCommands.list vader params w) = Ok (error_result (exc_text e))).
Proof.
  split.
  { split; [eexists; reflexivity |].
    repeat split; apply try_except_is_Ok; intros e s'; eexists; reflexivity. }
  intros d e ->.
  unfold BaseCommands.start, BaseCommands.stop, BaseCommands.restart, BaseCommands.list.
  repeat split; intros H; unfold try_except;
    rewrite (bind_lift_Ok _ _ _ _ (py_get_read d _))
         || rewrite (bind_lift_Ok _ _ _ _ (py_get_default_read d _ _));
    rewrite (bind_lift_Ok _ _ _ _ (py_get_default_read d _ _));
    apply (forwarded_fault _ _ e w H).
Qed.

(** Parameters that are not a dictionary (a list, a string, [None]): every
    command that takes parameters answers with the error result of the
    [AttributeError] on [params.get], and the agent is not called. *)
Theorem non_dictionary_params_are_refused (params : pyval) (w : W) :
  (forall d, params <> VDict d) ->
  BaseCommands.start vader params w =
    Out (Ok (error_result (exc_text (BaseCommands.no_get params)))) w [] /\
  BaseCommands.stop vader params w =
    Out (Ok (error_result (exc_text (BaseCommands.no_get params)))) w [] /\
  BaseCommands.restart vader params w =
    Out (Ok (error_result (exc_text (BaseCommands.no_get params)))) w [] /\
  BaseCommands.list vader params w =
    Out (Ok (error_result (exc_text (BaseCommands.no_get params)))) w [] /\
  BaseCommands.config vader params w =
    Out (Ok (error_result (exc_text (BaseCommands.no_get params)))) w [].
Proof.
  intros H.
  unfold BaseCommands.start, BaseCommands.stop, BaseCommands.restart,
    BaseCommands.list, BaseCommands.config, try_except.
  rewrite !(bind_lift_Raise _ _ _ _ (py_get_no_dict params _ H)).
  rewrite !(bind_lift_Raise _ _ _ _ (py_get_default_no_dict params _ _ H)).
  repeat split; reflexivity.
Qed.

(** [config] with an action other than ['view'] and ['set'] answers
    ["Invalid action"]; neither [get_config] nor [set_config] is called. *)
Theorem config_rejects_other_actions
  (d : list (string * pyval)) (action : pyval) (w : W) :
  py_get_default (VDict d) "action" (VStr "view") = Ok action ->
  BaseCommands.other_action action = true ->
  BaseCommands.config vader (VDict d) w = Out (Ok (error_result "Invalid action")) w [].
Proof.
  intros Ha Ho. unfold BaseCommands.other_action in Ho.
  apply andb_prop in Ho as [Hv Hs]. apply negb_true_iff in Hv, Hs.
  unfold BaseCommands.config, try_except.
  rewrite (bind_lift_Ok _ action _ _ Ha).
  unfold py_get_default, py_get.
  destruct (assoc_get "path" d), (assoc_get "value" d);
    rewrite !(bind_lift_Ok _ _ _ _ eq_refl), Hv, Hs; reflexivity.
Qed.

(** A parameter that is left out is read as its default: every command
    behaves on [params] as on [params] completed with [setdefault] by
    ['type': None], ['params': {}] (start), ['task_id': None],
    ['force': False] (stop), ['component': None], ['clean': False]
    (restart), ['type': 'all'], ['filter': {}] (list), ['action': 'view'],
    ['path': ''], ['value': None] (config). *)
Theorem omitted_parameters_are_defaults (d : list (string * pyval)) (w : W) :
  BaseCommands.start vader (VDict d) w =
    BaseCommands.start vader
      (VDict (set_default "type" VNone (set_default "params" (VDict []) d))) w /\
  BaseCommands.stop vader (VDict d) w =
    BaseCommands.stop vader
      (VDict (set_default "task_id" VNone (set_default "force" (VBool false) d))) w /\
  BaseCommands.restart vader (VDict d) w =
    BaseCommands.restart vader
      (VDict (set_default "component" VNone (set_default "clean" (VBool false) d))) w /\
  BaseCommands.list vader (VDict d) w =
    BaseCommands.list vader
      (VDict (set_default "type" (VStr "all") (set_default "filter" (VDict []) d))) w /\
  BaseCommands.config vader (VDict d) w =
    BaseCommands.config vader
      (VDict (set_default "action" (VStr "view")
                (set_default "path" (VStr EmptyString) (set_default "value" VNone d)))) w.
Proof.
  unfold BaseCommands.start, BaseCommands.stop, BaseCommands.restart,
    BaseCommands.list, BaseCommands.config.
  rewrite !py_get_set_default by same_key.
  rewrite !py_get_default_set_default by same_key.
  repeat split; reflexivity.
Qed.

End BaseCommandsProps.

Lemma commands_never_raise_witness :
  res (BaseCommands.start offline_vader (VDict []) tt) = Ok (error_result "agent offline").
Proof.
  apply (proj1 (proj2 (commands_never_raise offline_vader EmptyString (VDict []) tt)
                  [] (Exn "RuntimeError" "agent offline") eq_refl)).
  reflexivity.
Defined.

Lemma non_dictionary_params_are_refused_witness :
  BaseCommands.list quiet_vader (VList []) tt =
    Out (Ok (error_result "'list' object has no attribute 'get'")) tt [].
Proof.
  apply (non_dictionary_params_are_refused quiet_vader (VList []) tt).
  intros d. discriminate.
Defined.

Lemma config_rejects_other_actions_witness :
  BaseCommands.config quiet_vader (VDict [("action", VStr "delete")]) tt =
    Out (Ok (error_result "Invalid action")) tt [].
Proof.
  apply (config_rejects_other_actions quiet_vader [("action", VStr "delete")]
           (VStr "delete") tt); reflexivity.
Defined.

Lemma omitted_parameters_are_defaults_witness :
  res (BaseCommands.list echo_vader (VDict []) tt) =
    Ok (VDict [("status", VStr "success"); ("items", VList [VStr "all"; VDict []])]) /\
  res (BaseCommands.list echo_vader (VDict [("filter", VDict []); ("type", VStr "all")]) tt) =
    Ok (VDict [("status", VStr "success"); ("items", VList [VStr "all"; VDict []])]).
Proof.
  destruct (omitted_parameters_are_defaults echo_vader [] tt) as (_ & _ & _ & Hlist & _).
  split; [reflexivity |].
  exact (eq_trans (f_equal res (eq_sym Hlist)) eq_refl).
Defined.
